(** * redundans: library classification and the staged pipeline controller

    A shallow embedding of [redundans.py] and the properties of its
    library classifier, scaffolding iterator, gap-closing config builder
    and stage controller.  Conventions:

    - The script is Python 2: [/] on two integers is floor division, and a
      division by zero raises [ZeroDivisionError].
    - Python [int] is [Z]; counters that only count up from 1 are [nat].  A
      finite Python [float] is the rational [Q] it denotes.  The quotient
      [isstd / ismean] of [get_libraries] and the product
      [readLimit * fastaSize] of [get_read_limit] are rounded to the nearest
      double, as the interpreter rounds them: the warning test against
      [0.66] and the truncated read limit depend on the rounding for
      ordinary inputs.  The percentage of [get_orientation] and the
      product [1.5 * mean] of the grouping test are exact: rounding can
      change the outcome of their tests only beyond 10^14 read pairs, and
      for mean inserts above 10^15.  Infinities and NaN are not values of
      the model.
    - A path is a list of components plus an absolute flag; the components
      [.] and [..] are not interpreted, and symbolic links are followed in
      the last component only.
    - The file system, the diagnostic stream and the log of external
      invocations form an explicit [world]; every function of the script is
      a computation in the monad [M], which threads the world and may raise
      a Python exception.  The world reached at the point of a raise is kept.
    - The collaborators that are imported from other modules or run as
      processes are fields of the record [Collaborators].
    - The one unbounded loop, in [run_scaffolding], takes a bound on its
      number of passes. *)

From stdpp Require Import base option list gmap strings sorting.
From Stdlib Require Import Ascii String ZArith QArith Qround Qabs Qpower.
From Stdlib Require Import DecimalString Lia.
From Stdlib Require Qcanon.

Local Open Scope string_scope.
Local Open Scope list_scope.

(** ** Python values *)

Inductive exn : Type :=
| ZeroDivisionError
| ValueError
| IndexError
| IOError
| OSError
| NameError
| OverflowError
| SystemExit (code : Z).

Inductive outcome (A : Type) : Type :=
| Ret (a : A)
| Raise (e : exn).
Arguments Ret {A} a.
Arguments Raise {A} e.

(** [int(x)] on a float: truncation towards zero. *)
Definition py_int (x : Q) : Z := Z.quot (Qnum x) (Z.pos (Qden x)).

Definition Qltb (x y : Q) : bool := negb (Qle_bool y x).
Definition Qeqb (x y : Q) : bool := Qle_bool x y && Qle_bool y x.

(** *** Rounding to a double

    IEEE 754 binary64, round to nearest, ties to even: 53 significant
    bits, and a spacing that stays at [2 ** -1074] below [2 ** -1022]. *)

(** [2 ** e] *)
Definition pow2 (e : Z) : Q := Qpower 2 e.

(** [floor(log2 |x|)] for [x] other than zero. *)
Definition exponent (x : Q) : Z :=
  let e := (Z.log2 (Z.abs (Qnum x)) - Z.log2 (Z.pos (Qden x)))%Z in
  if Qle_bool (pow2 e) (Qabs x) then e else (e - 1)%Z.

(** The nearest integer, the even one of two that are equally near. *)
Definition round_half_even (x : Q) : Z :=
  let n := Qfloor x in
  match (x - inject_Z n ?= 1 # 2)%Q with
  | Lt => n
  | Gt => (n + 1)%Z
  | Eq => if Z.even n then n else (n + 1)%Z
  end.

(** The double nearest to [x], with no bound on the exponent from above;
    [infinite] tells whether the interpreter holds an infinity instead. *)
Definition round_double (x : Q) : Q :=
  if Qeqb x 0 then 0%Q
  else
    let e := Z.max (exponent x - 52) (-1074) in
    Qred (inject_Z (round_half_even (x / pow2 e)) * pow2 e).

Definition infinite (x : Q) : bool := Qle_bool (pow2 1024) (Qabs x).

(** The float that a decimal literal or [float(s)] denotes, such as
    [0.66]. *)
Definition float_lit (x : Q) : Q := round_double x.

(** [x] is a double. *)
Definition is_double (x : Q) : bool := Qeqb (round_double x) x.

(** ["%s" % i] for a counter. *)
Definition str_of_nat (n : nat) : string := NilZero.string_of_uint (Nat.to_uint n).

(** ** Paths *)

Record path : Type := Path { absolute : bool; parts : list string }.

#[global] Instance path_eq_dec : EqDecision path.
Proof. solve_decision. Defined.

Definition rel (l : list string) : path := Path false l.

(** [os.path.join(a, b)] *)
Definition path_join (a b : path) : path :=
  if absolute b then b else Path (absolute a) (parts a ++ parts b).

(** [os.path.basename(p)] *)
Definition basename (p : path) : string := List.last (parts p) "".

(** [p + suffix]: string concatenation on the textual path. *)
Definition path_add (p : path) (suffix : string) : path :=
  match parts p with
  | [] => Path (absolute p) [suffix]
  | _ => Path (absolute p) (removelast (parts p) ++ [basename p +:+ suffix])
  end.

(** ** The world: file system, diagnostics, external invocations *)

Inductive node : Type :=
| File (content : string)
| Link (target : path)
| Dir.

#[global] Instance node_eq_dec : EqDecision node.
Proof. solve_decision. Defined.

(** One collaborator-reported measurement: the tuple
    [(fq1, fq2, ismedian, ismean, isstd, pairs)]. *)
Record dataset : Type := Dataset {
  fq1 : path; fq2 : path;
  ismedian : Q; ismean : Q; isstd : Q;
  pairs : list Z
}.

(** A library set: the six parallel lists
    [[libnames, libFs, libRs, orientations, libIS, libISStDev]].
    An open file object is represented by the path it was opened from. *)
Record LibrarySet : Type := mkLib {
  libnames : list string;
  libFs : list path;
  libRs : list path;
  orients : list string;
  libIS : list Z;
  libISStDev : list Q
}.

(** Messages written to [sys.stderr]; the formatted text is abstracted to
    the message kind and its arguments. *)
Inductive diag : Type :=
| PoorQuality (orientation : string) (maxcfrac : Q) (f1 f2 : path) (counts : list Z)
| HighlyVariable (mean std : Q) (f1 f2 : path)
| AligningMates (limit : Z)
| IterationInfo (i j : nat)
| SkippingUnsupported (orient : string) (f1 f2 : path)
| DirectoryExists (outdir : path)
| Banner (stage : string)
| Header (text : string)
| StatsLine (line : string).

(** External invocations, in the order they are made. *)
Inductive call : Type :=
| CallInsertSize (fastq : list path) (fasta : path) (mapq threads cap : Z) (verbose : bool)
| CallFastaStats (fn : path)
| CallHomozygous (input : path) (limit : Z)
| CallSspace (out input : path) (lib : LibrarySet) (limit : Z)
| CallFilterPaired (f1 f2 out1 out2 : path)
| CallGapCloser (input config out : path).

Record world : Type := World {
  fs : gmap (list string) node;
  cwd : list string;
  stderr : list diag;
  calls : list call
}.

Definition M (A : Type) : Type := world -> outcome A * world.

Definition ret {A} (a : A) : M A := fun w => (Ret a, w).
Definition raise {A} (e : exn) : M A := fun w => (Raise e, w).
Definition bind {A B} (m : M A) (k : A -> M B) : M B :=
  fun w => match m w with
           | (Ret a, w') => k a w'
           | (Raise e, w') => (Raise e, w')
           end.

Notation "'let*' x ':=' m 'in' k" := (bind m (fun x => k))
  (at level 10, x pattern, m at level 100, k at level 200).
Notation "m1 '>>' m2" := (bind m1 (fun _ => m2))
  (at level 100, m2 at level 200, right associativity).

Definition lift {A} (o : outcome A) : M A := fun w => (o, w).

(** [for x in l: st = body(st, x)] *)
Fixpoint for_each {A S} (l : list A) (body : S -> A -> M S) (st : S) : M S :=
  match l with
  | [] => ret st
  | x :: l' => let* st' := body st x in for_each l' body st'
  end.

Definition write_stderr (d : diag) : M unit :=
  fun w => (Ret tt, World (fs w) (cwd w) (stderr w ++ [d]) (calls w)).

Definition record_call (c : call) : M unit :=
  fun w => (Ret tt, World (fs w) (cwd w) (stderr w) (calls w ++ [c])).

Definition get_world : M world := fun w => (Ret w, w).

(** *** File-system primitives *)

Definition to_abs (base : list string) (p : path) : list string :=
  if absolute p then parts p else base ++ parts p.

(** Follow symbolic links in the last component; the kernel gives up after
    40 links. *)
Fixpoint follow (n : nat) (f : gmap (list string) node) (p : list string)
  : option (list string) :=
  match n with
  | O => None
  | S n' =>
      match f !! p with
      | Some (Link t) => follow n' f (to_abs (removelast p) t)
      | _ => Some p
      end
  end.

Definition MAXSYMLINKS : nat := 40.

Definition stat (w : world) (p : path) : option node :=
  match follow MAXSYMLINKS (fs w) (to_abs (cwd w) p) with
  | Some q => fs w !! q
  | None => None
  end.

(** [os.path.isfile], [os.path.isdir] *)
Definition isfile (w : world) (p : path) : bool :=
  match stat w p with Some (File _) => true | _ => false end.
Definition isdir (w : world) (p : path) : bool :=
  match stat w p with Some Dir => true | _ => false end.

(** The content a path resolves to, if it resolves to a regular file. *)
Definition content_of (w : world) (p : path) : option string :=
  match stat w p with Some (File c) => Some c | _ => None end.

(** [open(p)]: the handle is the path; a missing file raises. *)
Definition open_r (p : path) : M path :=
  fun w => if isfile w p then (Ret p, w) else (Raise IOError, w).

(** Reading through an open handle. *)
Definition read (p : path) : M string :=
  fun w => match content_of w p with
           | Some c => (Ret c, w)
           | None => (Raise IOError, w)
           end.

(** [open(p, "w")] followed by writing [c]: creates or truncates the file
    the path leads to; its directory has to exist. *)
Definition write_file (p : path) (c : string) : M unit :=
  fun w =>
    match follow MAXSYMLINKS (fs w) (to_abs (cwd w) p) with
    | Some q =>
        match fs w !! q, fs w !! removelast q with
        | Some (File _), _ | None, Some Dir =>
            if decide (q = []) then (Raise IOError, w)
            else (Ret tt, World (<[q := File c]> (fs w)) (cwd w) (stderr w) (calls w))
        | _, _ => (Raise IOError, w)
        end
    | None => (Raise IOError, w)
    end.

(** [os.symlink(target, p)]: fails when [p] exists in any form. *)
Definition os_symlink (target p : path) : M unit :=
  fun w =>
    let q := to_abs (cwd w) p in
    match fs w !! q, fs w !! removelast q with
    | None, Some Dir =>
        if decide (q = []) then (Raise OSError, w)
        else (Ret tt, World (<[q := Link target]> (fs w)) (cwd w) (stderr w) (calls w))
    | _, _ => (Raise OSError, w)
    end.

(** [os.makedirs(p)]: creates the missing ancestors, then the leaf, which
    must not exist. *)
Fixpoint mkdir_p (f : gmap (list string) node) (seen todo : list string)
  : option (gmap (list string) node) :=
  match todo with
  | [] => Some f
  | c :: todo' =>
      let d := seen ++ [c] in
      match f !! d with
      | None => mkdir_p (<[d := Dir]> f) d todo'
      | Some Dir => match todo' with
                    | [] => None
                    | _ => mkdir_p f d todo'
                    end
      | Some _ => None
      end
  end.

Definition os_makedirs (p : path) : M unit :=
  fun w =>
    match to_abs (cwd w) p with
    | [] => (Raise OSError, w)
    | q => match mkdir_p (fs w) [] q with
           | Some f => (Ret tt, World f (cwd w) (stderr w) (calls w))
           | None => (Raise OSError, w)
           end
    end.

(** ** Python list and number helpers *)

(** [max(l)] *)
Definition py_max (l : list Z) : outcome Z :=
  match l with
  | [] => Raise ValueError
  | x :: l' => Ret (foldl Z.max x l')
  end.

(** [l.index(x)]: the first position holding [x]. *)
Fixpoint py_index (l : list Z) (x : Z) : outcome nat :=
  match l with
  | [] => Raise ValueError
  | y :: l' =>
      if decide (y = x) then Ret O
      else match py_index l' x with
           | Ret i => Ret (S i)
           | Raise e => Raise e
           end
  end.

(** [l[i]] for a non-negative index. *)
Definition py_getitem {A} (l : list A) (i : nat) : outcome A :=
  match l !! i with
  | Some x => Ret x
  | None => Raise IndexError
  end.

(** [sum(l)] *)
Definition py_sum (l : list Z) : Z := foldr Z.add 0%Z l.

(** [x / y] on floats, exact. *)
Definition py_div (x y : Q) : outcome Q :=
  if Qeqb y 0 then Raise ZeroDivisionError else Ret (x / y)%Q.

(** [x / y] on floats, rounded.  Python raises on a zero divisor and on
    nothing else.  A quotient beyond the largest double is an infinity in
    the interpreter; here it is the rational it rounds to, which compares
    with [0.66] and with [1] as the infinity does. *)
Definition float_div (x y : Q) : outcome Q :=
  if Qeqb y 0 then Raise ZeroDivisionError else Ret (round_double (x / y)).

(** [float(n)], as [x * n] converts its integer operand: a [long] too
    large for a double raises. *)
Definition float_of_int (n : Z) : outcome Q :=
  let x := round_double (inject_Z n) in
  if infinite x then Raise OverflowError else Ret x.

(** [x * y] on floats; [None] stands for an infinity. *)
Definition float_mul (x y : Q) : option Q :=
  let z := round_double (x * y) in
  if infinite z then None else Some z.

(** [int(x)] on the result of a float operation: truncation; an infinity
    raises. *)
Definition int_of_float (x : option Q) : outcome Z :=
  match x with
  | Some q => Ret (py_int q)
  | None => Raise OverflowError
  end.

(** [sorted(l, key=key)]: a stable sort, smallest key first. *)
Fixpoint insert_by {A} (key : A -> Q) (x : A) (l : list A) : list A :=
  match l with
  | [] => [x]
  | y :: l' =>
      if Qle_bool (key x) (key y) then x :: y :: l'
      else y :: insert_by key x l'
  end.

Definition sorted {A} (key : A -> Q) (l : list A) : list A :=
  foldr (insert_by key) [] l.

(** [s.split(sep)] for a one-character separator. *)
Fixpoint split_on (sep : ascii) (s : string) : list string :=
  match s with
  | EmptyString => [EmptyString]
  | String c s' =>
      if Ascii.eqb c sep then EmptyString :: split_on sep s'
      else match split_on sep s' with
           | [] => [String c EmptyString]
           | h :: t => String c h :: t
           end
  end.

Definition tab : ascii := Ascii.ascii_of_nat 9.

(** The blanks of C's [isspace]: space, tab, line feed, vertical tab, form
    feed and carriage return. *)
Definition is_space (c : ascii) : bool :=
  let n := nat_of_ascii c in
  (n =? 32)%nat || ((9 <=? n)%nat && (n <=? 13)%nat).

Fixpoint lstrip (s : string) : string :=
  match s with
  | String c s' => if is_space c then lstrip s' else s
  | EmptyString => s
  end.

Definition digit_of (c : ascii) : option Z :=
  let n := nat_of_ascii c in
  if (48 <=? n)%nat && (n <=? 57)%nat then Some (Z.of_nat (n - 48)) else None.

(** The decimal digits at the head of [s], read after [acc], and what
    follows them. *)
Fixpoint read_digits (acc : Z) (s : string) : Z * string :=
  match s with
  | String c s' =>
      match digit_of c with
      | Some d => read_digits (10 * acc + d) s'
      | None => (acc, s)
      end
  | EmptyString => (acc, s)
  end.

Definition starts_with_digit (s : string) : bool :=
  match s with
  | String c _ => match digit_of c with Some _ => true | None => false end
  | EmptyString => false
  end.

(** [int(s)] on a [str], in base 10: blanks, an optional sign, at least
    one decimal digit, blanks, and nothing else; the value is an [int] or
    a [long], of any size.  Python 2 reads the numeral with [strtol]-like
    functions that pass over blanks once more after the sign, so that
    [int("- 5")] is [-5] (Python 3 refuses that string); an underscore is
    not a digit. *)
Definition int_of_str (s : string) : outcome Z :=
  let s := lstrip s in
  let '(sign, s) :=
    match s with
    | String "-" s' => ((-1)%Z, s')
    | String "+" s' => (1%Z, s')
    | _ => (1%Z, s)
    end in
  let s := lstrip s in
  if starts_with_digit s then
    let '(n, rest) := read_digits 0 s in
    match lstrip rest with
    | EmptyString => Ret (sign * n)%Z
    | String _ _ => Raise ValueError
    end
  else Raise ValueError.

(** [range(1, n+1)] *)
Definition range1 (n : Z) : list nat := seq 1 (Z.to_nat n).

(** Split off the last element: [(l[:-1], l[-1])]. *)
Fixpoint unsnoc {A} (l : list A) : option (list A * A) :=
  match l with
  | [] => None
  | x :: l' =>
      match unsnoc l' with
      | None => Some ([], x)
      | Some (front, y) => Some (x :: front, y)
      end
  end.

(** ** Collaborators

    The functions imported from [fasta2homozygous], [fastq2sspace],
    [fastq2insert_size] and [fasta_stats], the read filter, and the
    [GapCloser] process.  Each may observe the world it is started in; a
    Python function may raise; a tool may finish without leaving its output
    ([None]). *)
Record Collaborators : Type := {
  fastq2insert_size :
    world -> list path -> path -> Z -> Z -> Z -> bool -> outcome (list dataset);
  fasta_stats : string -> outcome string;
  fasta2homozygous :
    string -> Q -> Q -> Z -> list LibrarySet -> Z -> outcome string;
  fastq2sspace :
    world -> path -> string -> LibrarySet -> Z -> Z -> Z -> Z -> string
    -> outcome (option string);
  filter_paired : string -> string -> Z -> Z -> Z -> Z -> outcome (string * string);
  GapCloser : world -> Z -> Z -> Z -> path -> path -> path -> outcome (option string * string)
}.

Section Pipeline.

Context (ext : Collaborators).

(** ** [symlink] *)

Definition symlink (file1 file2 : path) : M unit :=
  let* w := get_world in
  if negb (isfile w file2) then
    (* os.path.realpath(os.path.curdir) is the working directory *)
    let file1abs := path_join (Path true (cwd w)) file1 in
    if isfile w file1abs then os_symlink file1abs file2
    else os_symlink file1 file2
  else ret tt.

(** ** [get_orientation] *)

Definition orientations : list string := ["FF"; "FR"; "RF"; "RR"].

Definition get_orientation (pairs : list Z) (fq1 fq2 : path) : M string :=
  let* maxc := lift (py_max pairs) in
  let* maxci := lift (py_index pairs maxc) in
  let* orientation := lift (py_getitem orientations maxci) in
  let* maxcfrac := lift (py_div (100 * inject_Z maxc) (inject_Z (py_sum pairs))) in
  (if Qltb maxcfrac 90
   then write_stderr (PoorQuality orientation maxcfrac fq1 fq2 pairs)
   else ret tt) >>
  ret orientation.

(** ** [get_libraries] *)

Definition empty_set : LibrarySet := mkLib [] [] [] [] [] [].

(** The part of the loop body that records one measurement in the open
    set [cur] under the counter [i]. *)
Definition add_library (cur : LibrarySet) (i : nat) (d : dataset) : M LibrarySet :=
  let names := libnames cur ++ ["lib" +:+ str_of_nat i] in
  let* h1 := open_r (fq1 d) in
  let* h2 := open_r (fq2 d) in
  let* orientation := get_orientation (pairs d) (fq1 d) (fq2 d) in
  let* stdfrac := lift (float_div (isstd d) (ismean d)) in
  (if Qltb (float_lit (66 # 100)) stdfrac
   then write_stderr (HighlyVariable (ismean d) (isstd d) (fq1 d) (fq2 d))
   else ret tt) >>
  let stdfrac := if Qltb 1 stdfrac then 1%Q else stdfrac in
  ret (mkLib names (libFs cur ++ [h1]) (libRs cur ++ [h2])
             (orients cur ++ [orientation])
             (libIS cur ++ [py_int (ismean d)])
             (libISStDev cur ++ [stdfrac])).

(** The test at the head of the loop body: [libraries] split into
    [libraries[:-1]] and the open set [libraries[-1]], after a new set was
    appended when the rule asks for one, and the counter [i]. *)
Definition open_set (libraries : list LibrarySet) (i : nat) (d : dataset)
  : M (list LibrarySet * LibrarySet * nat) :=
  match unsnoc libraries with
  | None => ret (libraries, empty_set, 1%nat)
  | Some (front, last) =>
      let* first := lift (py_getitem (libIS last) 0) in
      if Qltb ((3 # 2) * inject_Z first) (ismedian d)
      then ret (libraries, empty_set, 1%nat)
      else ret (front, last, i)
  end.

(** One pass of the loop over the sorted measurements; the state is the
    list [libraries] and the counter [i]. *)
Definition get_libraries_body (st : list LibrarySet * nat) (d : dataset)
  : M (list LibrarySet * nat) :=
  let '(libraries, i) := st in
  let* (front, cur, i) := open_set libraries i d in
  let* cur := add_library cur i d in
  ret (front ++ [cur], S i).

Definition floor_limit (limit : Z) : Z :=
  if (limit =? 0)%Z || (limit <? 1000000)%Z then 1000000%Z else limit.

Definition get_libraries (fastq : list path) (fasta : path)
    (mapq threads limit : Z) (verbose : bool) : M (list LibrarySet) :=
  let limit := floor_limit limit in
  let* w := get_world in
  record_call (CallInsertSize fastq fasta mapq threads (limit / 100) verbose) >>
  let* libdata :=
    lift (fastq2insert_size ext w fastq fasta mapq threads (limit / 100) verbose) in
  let* st := for_each (sorted ismean libdata) get_libraries_body ([], 1%nat) in
  ret (fst st).

(** ** [get_read_limit] *)

Definition get_read_limit (fastq : list path) (fasta : path)
    (mapq threads : Z) (readLimit : Q) (verbose : bool)
  : M (Z * list LibrarySet) :=
  let* limit :=
    if negb (Qeqb readLimit 0) then
      let* h := open_r fasta in
      let* text := read h in
      record_call (CallFastaStats fasta) >>
      let* stats := lift (fasta_stats ext text) in
      let* field := lift (py_getitem (split_on tab stats) 2) in
      let* fastaSize := lift (int_of_str field) in
      let* size := lift (float_of_int fastaSize) in
      let* limit := lift (int_of_float (float_mul readLimit size)) in
      (if verbose then write_stderr (AligningMates limit) else ret tt) >>
      ret limit
    else ret 0%Z in
  let* libraries := get_libraries fastq fasta mapq threads limit verbose in
  ret (limit, libraries).

(** ** [run_scaffolding] *)

(** Modelled from the spec: the scaffolder's own code is not part of this
    file.  By the comment in [run_scaffolding], a round that completes
    leaves [<out>/<basename out>.final.scaffolds.fasta]; a round that does
    not complete leaves nothing (its exit status is not examined). *)
Definition sspace_writes (out : path) (res : option string) : M unit :=
  fun w =>
    match res with
    | None => (Ret tt, w)
    | Some text =>
        let d := to_abs (cwd w) out in
        let f := d ++ [basename out +:+ ".final.scaffolds.fasta"] in
        match d, fs w !! d, fs w !! f with
        | _ :: _, (None | Some Dir), (None | Some (File _)) =>
            (Ret tt, World (<[f := File text]> (<[d := Dir]> (fs w)))
                           (cwd w) (stderr w) (calls w))
        | _, _, _ => (Ret tt, w)
        end
    end.

(** [os.path.join(outdir, "_sspace.%s.%s" % (i, j))] *)
Definition sspace_out (outdir : path) (i j : nat) : path :=
  path_join outdir (rel ["_sspace." +:+ str_of_nat i +:+ "." +:+ str_of_nat j]).

Section Scaffolding.

Context (outdir : path) (fastq : list path) (mapq threads joins limit iters : Z)
        (sspacebin : string) (verbose : bool).

(** The body of [for j in range(1, iters+1)]; the state is [pout]. *)
Definition scaffolding_round (lib : LibrarySet) (i : nat) (pout : path) (j : nat)
  : M path :=
  (if verbose then write_stderr (IterationInfo i j) else ret tt) >>
  let out := sspace_out outdir i j in
  let* h := open_r pout in
  let* text := read h in
  record_call (CallSspace out pout lib limit) >>
  let* w := get_world in
  let* res := lift (fastq2sspace ext w out text lib threads mapq limit joins sspacebin) in
  sspace_writes out res >>
  let pout := path_add out ".fa" in
  let targetout :=
    path_join (rel [basename out])
              (rel [basename (path_add out ".final.scaffolds.fasta")]) in
  symlink targetout pout >>
  ret pout.

(** [while i < len(libraries)]; [fuel] bounds the number of passes of the
    model, and [None] is returned only when it runs out. *)
Fixpoint scaffolding_loop (fuel : nat) (libraries : list LibrarySet) (i : nat)
    (pout : path) : M (option (list LibrarySet * path)) :=
  match fuel with
  | O => ret None
  | S fuel' =>
      if (i <? List.length libraries)%nat then
        let* lib := lift (py_getitem libraries i) in
        let i := S i in
        let* pout := for_each (range1 iters) (scaffolding_round lib i) pout in
        let* libraries := get_libraries fastq pout mapq threads limit false in
        scaffolding_loop fuel' libraries i pout
      else ret (Some (libraries, pout))
  end.

Definition run_scaffolding (fuel : nat) (scaffoldsFname : path)
    (libraries : list LibrarySet) (reducedFname : path)
  : M (option (list LibrarySet)) :=
  let* r := scaffolding_loop fuel libraries 0%nat reducedFname in
  match r with
  | None => ret None
  | Some (libraries, pout) =>
      symlink pout scaffoldsFname >>
      ret (Some libraries)
  end.

End Scaffolding.

(** ** [filter_reads] and [prepare_gapcloser] *)

Definition nl : string := String (Ascii.ascii_of_nat 10) EmptyString.

Definition str_of_Z (z : Z) : string := NilZero.string_of_int (Z.to_int z).

(** The text of a path. *)
Definition str_of_path (p : path) : string :=
  (if absolute p then "/" else "") +:+ String.concat "/" (parts p).

(** [os.path.join(outdir, "_gapcloser.%s.%s.fq" % (i, os.path.basename(fq.name)))] *)
Definition filtered_name (outdir : path) (i : nat) (fq : path) : path :=
  path_join outdir
    (rel ["_gapcloser." +:+ str_of_nat i +:+ "." +:+ basename fq +:+ ".fq"]).

(** [filter_paired] is called here, but this file neither defines nor
    imports that name; it is taken from the collaborators.  The file as it
    stands behaves like the collaborator that raises [NameError]. *)
Definition filter_reads (i : nat) (outdir fq1 fq2 : path)
    (minlen maxlen limit minqual : Z) : M (path * path) :=
  let fn1 := filtered_name outdir i fq1 in
  let fn2 := filtered_name outdir i fq2 in
  write_file fn1 "" >>
  write_file fn2 "" >>
  let* w := get_world in
  let text1 := default "" (content_of w fq1) in
  let text2 := default "" (content_of w fq2) in
  record_call (CallFilterPaired fq1 fq2 fn1 fn2) >>
  let* (out1, out2) := lift (filter_paired ext text1 text2 minlen maxlen limit minqual) in
  write_file fn1 out1 >>
  write_file fn2 out2 >>
  ret (fn1, fn2).

(** [lines % (iSize, reverse_seq, i, fn1, fn2)] *)
Definition lib_block (iSize reverse_seq : Z) (i : nat) (fn1 fn2 : path) : string :=
  "[LIB]" +:+ nl +:+ "avg_ins=" +:+ str_of_Z iSize +:+ nl +:+
  "reverse_seq=" +:+ str_of_Z reverse_seq +:+ nl +:+
  "asm_flags=3" +:+ nl +:+ "rank=" +:+ str_of_nat i +:+ nl +:+
  "pair_num_cutoff=5" +:+ nl +:+ "map_len=35" +:+ nl +:+
  "q1=" +:+ str_of_path fn1 +:+ nl +:+ "q2=" +:+ str_of_path fn2 +:+ nl.

(** [enumerate(zip(libFs, libRs, orientations, libIS, libISStDev), 1)] *)
Definition zip5 (libFs libRs : list path) (orientations : list string)
    (libIS : list Z) (libISStDev : list Q)
  : list (path * path * string * Z * Q) :=
  zip (zip (zip (zip libFs libRs) orientations) libIS) libISStDev.

Definition enumerate1 {A} (l : list A) : list (nat * A) :=
  zip (seq 1 (List.length l)) l.

Definition prepare_gapcloser_body (outdir : path) (mapq minlen maxlen limit : Z)
    (verbose : bool) (config : list string)
    (x : nat * (path * path * string * Z * Q)) : M (list string) :=
  let '(i, (fq1, fq2, orient, iSize, iFrac)) := x in
  if String.eqb orient "FR" || String.eqb orient "RF" then
    let reverse_seq := if String.eqb orient "FR" then 0%Z else 1%Z in
    let* (fn1, fn2) := filter_reads i outdir fq1 fq2 minlen maxlen limit mapq in
    ret (config ++ [lib_block iSize reverse_seq i fn1 fn2])
  else
    (if verbose then write_stderr (SkippingUnsupported orient fq1 fq2) else ret tt) >>
    ret config.

(** Returns [True] ([Some true]) or falls off the end ([None]). *)
Definition prepare_gapcloser (outdir : path) (mapq : Z) (configFn : path)
    (libFs libRs : list path) (orientations : list string) (libIS : list Z)
    (libISStDev : list Q) (minlen maxlen limit : Z) (verbose : bool)
  : M (option bool) :=
  let config := ["max_rd_len=" +:+ str_of_Z maxlen] in
  let* config :=
    for_each (enumerate1 (zip5 libFs libRs orientations libIS libISStDev))
             (prepare_gapcloser_body outdir mapq minlen maxlen limit verbose)
             config in
  if (1 <? List.length config)%nat then
    write_file configFn (String.concat nl config) >>
    ret (Some true)
  else ret None.

Definition py_truth (r : option bool) : bool := default false r.

(** ** [run_gapclosing] *)

(** Modelled from the spec: the gap filler is a separate program.  It is
    started with [-a pout -b configFn -o out], its output streams go to the
    log file, and when it completes it leaves its result at [out]. *)
Definition gapcloser_round (outdir : path) (threads overlap maxReadLen : Z)
    (verbose : bool) (configFn : path) (i : nat) (pout : path) (j : nat) : M path :=
  let out := path_join outdir
    (rel ["_gapcloser." +:+ str_of_nat i +:+ "." +:+ str_of_nat j +:+ ".fa"]) in
  (if verbose then write_stderr (IterationInfo i j) else ret tt) >>
  write_file (path_add out ".log") "" >>
  record_call (CallGapCloser pout configFn out) >>
  let* w := get_world in
  let* (res, log) := lift (GapCloser ext w threads overlap maxReadLen pout configFn out) in
  write_file (path_add out ".log") log >>
  match res with
  | Some text => write_file out text
  | None => ret tt
  end >>
  ret out.

Definition run_gapclosing_body (outdir : path) (mapq threads limit iters : Z)
    (verbose : bool) (overlap maxReadLen minReadLen : Z)
    (pout : path) (x : nat * LibrarySet) : M path :=
  let '(i, lib) := x in
  let configFn := path_join outdir (rel ["_gapcloser." +:+ str_of_nat i +:+ ".conf"]) in
  let* ok := prepare_gapcloser outdir mapq configFn (libFs lib) (libRs lib)
               (orients lib) (libIS lib) (libISStDev lib)
               minReadLen maxReadLen limit verbose in
  if negb (py_truth ok) then ret pout
  else for_each (range1 iters)
         (gapcloser_round outdir threads overlap maxReadLen verbose configFn i) pout.

Definition run_gapclosing (outdir : path) (mapq : Z) (libraries : list LibrarySet)
    (nogapsFname scaffoldsFname : path) (threads limit iters : Z) (verbose : bool)
  : M unit :=
  let overlap := 25%Z in
  let maxReadLen := 150%Z in
  let minReadLen := 40%Z in
  let* pout :=
    for_each (enumerate1 libraries)
      (run_gapclosing_body outdir mapq threads limit iters verbose
                           overlap maxReadLen minReadLen)
      scaffoldsFname in
  symlink pout nogapsFname.

(** ** [redundants] *)

Definition starts_with (pre s : string) : bool := String.prefix pre s.

Definition ends_with (suf s : string) : bool :=
  (String.length suf <=? String.length s)%nat &&
  String.eqb (String.substring (String.length s - String.length suf)
                               (String.length suf) s) suf.

Fixpoint insert_str (x : string) (l : list string) : list string :=
  match l with
  | [] => [x]
  | y :: l' => if String.leb x y then x :: y :: l' else y :: insert_str x l'
  end.

(** [sorted(glob.glob(os.path.join(dir, pre + "*" + suf)))] *)
Definition sorted_glob (w : world) (dir : path) (pre suf : string) : list path :=
  let d := to_abs (cwd w) dir in
  let names :=
    omap (fun kv : list string * node =>
            let k := kv.1 in
            let name := List.last k "" in
            if bool_decide (k <> [] /\ removelast k = d)
               && starts_with pre name && ends_with suf name
               && (String.length pre + String.length suf <=? String.length name)%nat
            then Some name else None)
         (map_to_list (fs w)) in
  (fun name => path_join dir (rel [name])) <$> foldr insert_str [] names.

Definition report (fn : path) : M unit :=
  let* h := open_r fn in
  let* text := read h in
  record_call (CallFastaStats fn) >>
  let* line := lift (fasta_stats ext text) in
  write_stderr (StatsLine line).

Definition banner (verbose : bool) (stage : string) : M unit :=
  if verbose then write_stderr (Banner stage) else ret tt.

Section Redundants.

Context (fuel : nat) (fastq : list path) (fasta outdir : path)
        (mapq threads : Z) (identity overlap : Q) (minLength joins : Z)
        (readLimit : Q) (iters : Z) (sspacebin : string)
        (reduction scaffolding gapclosing verbose : bool).

Definition contigsFname : path := path_join outdir (rel ["contigs.fa"]).
Definition reducedFname : path := path_join outdir (rel ["contigs.reduced.fa"]).
Definition scaffoldsFname : path := path_join outdir (rel ["scaffolds.fa"]).
Definition nogapsFname : path := path_join outdir (rel ["scaffolds.filled.fa"]).

(** "prepare outdir or quit if exists" *)
Definition prepare_outdir : M unit :=
  let* w := get_world in
  if isdir w outdir then
    write_stderr (DirectoryExists outdir) >>
    raise (SystemExit 1)
  else os_makedirs outdir.

Definition reduction_stage (libraries : list LibrarySet) (limit : Z) : M unit :=
  if reduction then
    (if verbose
     then write_stderr (Banner "Reduction...") >> write_stderr (Header "#file name")
     else ret tt) >>
    write_file reducedFname "" >>
    let* h := open_r contigsFname in
    let* text := read h in
    record_call (CallHomozygous contigsFname limit) >>
    let* reduced :=
      lift (fasta2homozygous ext text identity overlap minLength libraries limit) in
    write_file reducedFname reduced
  else symlink contigsFname reducedFname.

Definition scaffolding_stage (libraries : list LibrarySet) (limit : Z)
  : M (option (list LibrarySet)) :=
  if scaffolding then
    banner verbose "Scaffolding..." >>
    run_scaffolding outdir fastq mapq threads joins limit iters sspacebin verbose
                    fuel scaffoldsFname libraries reducedFname
  else
    symlink reducedFname scaffoldsFname >>
    ret (Some libraries).

Definition gapclosing_stage (libraries : list LibrarySet) (limit : Z) : M unit :=
  if gapclosing && bool_decide (libraries <> []) then
    banner verbose "Gap closing..." >>
    run_gapclosing outdir mapq libraries nogapsFname scaffoldsFname
                   threads limit iters verbose
  else symlink scaffoldsFname nogapsFname.

Definition report_stage : M unit :=
  banner verbose "Reporting statistics..." >>
  let* w := get_world in
  let fastas :=
    [contigsFname; reducedFname] ++ sorted_glob w outdir "_sspace." ".fa" ++
    [scaffoldsFname] ++ sorted_glob w outdir "_gap" ".fa" ++ [nogapsFname] in
  write_stderr (Header "#fname") >>
  for_each fastas (fun _ fn => report fn) tt.

(** Everything after the run directory has been created.  The result is
    [None] only when the scaffolding loop of the model ran out of [fuel]. *)
Definition run_stages : M (option unit) :=
  symlink fasta contigsFname >>
  let* (limit, libraries) :=
    get_read_limit fastq contigsFname mapq threads readLimit verbose in
  reduction_stage libraries limit >>
  let* r := scaffolding_stage libraries limit in
  match r with
  | None => ret None
  | Some libraries =>
      gapclosing_stage libraries limit >>
      report_stage >>
      ret (Some tt)
  end.

Definition redundants : M (option unit) :=
  prepare_outdir >>
  run_stages.

End Redundants.

End Pipeline.

(** ** The command line front end: [_check_executable], [main] and the
    top-level handler

    The front end writes to the same stream as the pipeline.  Its
    messages are kept in a list of their own: [main] writes all of its
    messages before it calls [redundants], and the handler writes after
    [main] has ended, so the stream is the front end's messages up to the
    call, the pipeline's, and the handler's.  The reading of the command
    line is not part of the model: [parse_args] stands for the call on a
    command line that is well formed and denotes given options, and [main]
    for the rest of the function, from the options on.  A
    [KeyboardInterrupt] comes from outside the program and is not
    modelled. *)

(** The namespace returned by [parse_args]; the file object of [--log] is
    represented by the path it was opened from. *)
Record Options : Type := {
  o_verbose : bool;
  o_log : option path;
  o_fastq : list path;
  o_fasta : path;
  o_outdir : path;
  o_threads : Z;
  o_identity : Q;
  o_overlap : Q;
  o_minLength : Z;
  o_joins : Z;
  o_limit : Q;
  o_mapq : Z;
  o_iters : Z;
  o_sspacebin : string;
  o_noreduction : bool;
  o_noscaffolding : bool;
  o_nogapclosing : bool
}.

Inductive front_diag : Type :=
| OptionsLine (o : Options)
| NoSuchFile (fn : path)
| ExecutableError (info : string)
| CannotOpen (log : path)
| IOErrorLine
| OSErrorLine
| TimeElapsed.

Record top : Type := Top { core : world; front : list front_diag }.

Definition F (A : Type) : Type := top -> outcome A * top.

Definition fret {A} (a : A) : F A := fun t => (Ret a, t).
Definition fraise {A} (e : exn) : F A := fun t => (Raise e, t).
Definition fbind {A B} (m : F A) (k : A -> F B) : F B :=
  fun t => match m t with
           | (Ret a, t') => k a t'
           | (Raise e, t') => (Raise e, t')
           end.

Notation "'let+' x ':=' m 'in' k" := (fbind m (fun x => k))
  (at level 10, x pattern, m at level 100, k at level 200).
Notation "m1 '>>+' m2" := (fbind m1 (fun _ => m2))
  (at level 100, m2 at level 200, right associativity).

Definition fwrite (d : front_diag) : F unit :=
  fun t => (Ret tt, Top (core t) (front t ++ [d])).

Definition get_top : F top := fun t => (Ret t, t).

(** A computation of the pipeline, run from the front end. *)
Definition in_core {A} (m : M A) : F A :=
  fun t => let '(o, w) := m (core t) in (o, Top w (front t)).

(** [for x in l: body(x)] *)
Fixpoint ffor {A} (l : list A) (body : A -> F unit) : F unit :=
  match l with
  | [] => fret tt
  | x :: l' => body x >>+ ffor l' body
  end.

(** [needle in s] *)
Fixpoint contains (needle s : string) : bool :=
  String.prefix needle s ||
  match s with
  | EmptyString => false
  | String _ s' => contains needle s'
  end.

Section FrontEnd.

(** The collaborators, the bound on the passes of the scaffolding loop,
    and what a shell command prints on its standard output. *)
Context (ext : Collaborators) (fuel : nat) (shell_stdout : string -> string).

(** [parser.parse_args()] on a well-formed command line that denotes the
    options [o].  The argument of [--log] has the type
    [argparse.FileType('w')]: it is opened for writing while the line is
    read, which creates or truncates the file; [-] stands for the standard
    output; [argparse] turns the [IOError] of a file that cannot be opened
    into its usage error, which ends the script with status 2. *)
Definition parse_args (o : Options) : F Options :=
  match o_log o with
  | None => fret o
  | Some p =>
      if bool_decide (p = rel ["-"]) then fret o
      else fun t =>
        match write_file p "" (core t) with
        | (Ret _, w) => (Ret o, Top w (front t))
        | (Raise _, w) => (Raise (SystemExit 2), Top w (front t ++ [CannotOpen p]))
        end
  end.

Definition _check_executable (cmd : string) : string :=
  shell_stdout ("type " +:+ cmd).

Definition main (o : Options) : F (option unit) :=
  (if o_verbose o then fwrite (OptionsLine o) else fret tt) >>+
  (* check if input files exists *)
  ffor (o_fasta o :: o_fastq o)
       (fun fn =>
          let+ t := get_top in
          if negb (isfile (core t) fn)
          then fwrite (NoSuchFile fn) >>+ fraise (SystemExit 1)
          else fret tt) >>+
  (* check if all executables exists *)
  ffor ["blat"; "bwa"; o_sspacebin o; "Gap2Seq"]
       (fun cmd =>
          let info := _check_executable cmd in
          if contains "not found" info
          then fwrite (ExecutableError info) >>+ fraise (SystemExit 1)
          else fret tt) >>+
  (* initialise pipeline *)
  in_core (redundants ext fuel (o_fastq o) (o_fasta o) (o_outdir o) (o_mapq o)
             (o_threads o) (o_identity o) (o_overlap o) (o_minLength o) (o_joins o)
             (o_limit o) (o_iters o) (o_sspacebin o) (o_noreduction o)
             (o_noscaffolding o) (o_nogapclosing o) (o_verbose o)).

(** The block under [if __name__=='__main__'], for a command line that
    denotes the options [o]: [IOError] and [OSError] are reported and the
    script goes on to the elapsed-time line; every other exception,
    [SystemExit] included, leaves the script at once. *)
Definition script (o : Options) : F unit :=
  fun t =>
    match (let+ o := parse_args o in main o) t with
    | (Ret _, t') => fwrite TimeElapsed t'
    | (Raise IOError, t') => (fwrite IOErrorLine >>+ fwrite TimeElapsed) t'
    | (Raise OSError, t') => (fwrite OSErrorLine >>+ fwrite TimeElapsed) t'
    | (Raise e, t') => (Raise e, t')
    end.

End FrontEnd.

(** The exit status of the interpreter: 0 when the script runs to its end,
    the code of [sys.exit], and 1 for any other exception. *)
Definition exit_status {A} (r : outcome A) : Z :=
  match r with
  | Ret _ => 0%Z
  | Raise (SystemExit code) => code
  | Raise _ => 1%Z
  end.

(** * Specification vocabulary *)

(** [i] is the first position of the largest entry [m] of [l]. *)
Definition first_argmax (l : list Z) (i : nat) (m : Z) : Prop :=
  l !! i = Some m /\
  (forall j y, l !! j = Some y -> (y <= m)%Z) /\
  (forall j y, (j < i)%nat -> l !! j = Some y -> (y < m)%Z).

(** [o] is the orientation at the first largest count of [ps]. *)
Definition vote (ps : list Z) (o : string) : Prop :=
  exists i m, first_argmax ps i m /\ orientations !! i = Some o.

(** The float quotient [stdDev / mean] of a measurement. *)
Definition ratio_of (d : dataset) : Q := round_double (isstd d / ismean d).

(** The variability fraction: [stdDev / mean], at most 1. *)
Definition stdfrac_of (d : dataset) : Q :=
  if Qltb 1 (ratio_of d) then 1%Q else ratio_of d.

(** The recorded mean insert of a measurement. *)
Definition recorded_mean (d : dataset) : Z := py_int (ismean d).

(** The grouping rule in the specification's words: a new set is started
    when no sets exist yet, or when the median insert of the current
    dataset exceeds 1.5 times the first recorded mean insert of the most
    recently opened set. *)
Definition opens_new_set (groups : list (list dataset)) (d : dataset) : bool :=
  match unsnoc groups with
  | None => true
  | Some (_, []) => true
  | Some (_, first :: _) =>
      Qltb ((3 # 2) * inject_Z (recorded_mean first)) (ismedian d)
  end.

Definition spec_step (groups : list (list dataset)) (d : dataset)
  : list (list dataset) :=
  if opens_new_set groups d then groups ++ [[d]]
  else match unsnoc groups with
       | Some (front, g) => front ++ [g ++ [d]]
       | None => [[d]]
       end.

(** The groups obtained from datasets taken in the given order. *)
Definition spec_groups (ds : list dataset) : list (list dataset) :=
  foldl spec_step [] ds.

(** The library set [l] records exactly the datasets [g], in order. *)
Record represents (l : LibrarySet) (g : list dataset) : Prop := {
  rep_names : libnames l = (fun k => "lib" +:+ str_of_nat k) <$> seq 1 (List.length g);
  rep_Fs : libFs l = fq1 <$> g;
  rep_Rs : libRs l = fq2 <$> g;
  rep_orients : Forall2 (fun o d => vote (pairs d) o) (orients l) g;
  rep_IS : libIS l = recorded_mean <$> g;
  rep_StDev : libISStDev l = stdfrac_of <$> g
}.

(** What the classifier needs from a measurement in a world: both read
    files can be opened, there are at most four counts and they do not sum
    to zero, and the mean insert is not zero. *)
Record classifiable (w : world) (d : dataset) : Prop := {
  cl_fq1 : isfile w (fq1 d) = true;
  cl_fq2 : isfile w (fq2 d) = true;
  cl_len : (List.length (pairs d) <= 4)%nat;
  cl_sum : py_sum (pairs d) <> 0%Z;
  cl_mean : ~ (ismean d == 0)%Q
}.

(** The invariant of the classification loop: the sets built so far
    record the groups of the rule, no group is empty, and the counter is
    one more than the size of the open group. *)
Definition loop_inv (libraries : list LibrarySet) (i : nat)
    (groups : list (list dataset)) : Prop :=
  Forall2 represents libraries groups /\
  Forall (fun g => g <> []) groups /\
  (forall front g, unsnoc groups = Some (front, g) -> i = S (List.length g)).

(** Two worlds that differ at most in the diagnostic stream. *)
Definition same_but_stderr (w w' : world) : Prop :=
  fs w' = fs w /\ cwd w' = cwd w /\ calls w' = calls w.

(** The members of a library set, as (forward file, reverse file, recorded
    mean insert). *)
Definition members (l : LibrarySet) : list (path * path * Z) :=
  zip (zip (libFs l) (libRs l)) (libIS l).

Definition member_of (d : dataset) : path * path * Z :=
  (fq1 d, fq2 d, recorded_mean d).

(** A computation keeps the relation [P] between the world it starts in
    and the world it leaves, whatever its outcome. *)
Definition keeps {A} (P : world -> world -> Prop) (m : M A) : Prop :=
  forall w, P w (m w).2.

(** Directories stay, and so does the working directory. *)
Definition dirs_kept (w w' : world) : Prop :=
  cwd w' = cwd w /\ forall p, fs w !! p = Some Dir -> fs w' !! p = Some Dir.

(** A library is eligible for gap closing when its orientation is FR or
    RF; FR maps to [reverse_seq=0] and RF to [reverse_seq=1]. *)
Definition eligible (orient : string) : bool :=
  String.eqb orient "FR" || String.eqb orient "RF".

Definition reverse_seq_of (orient : string) : Z :=
  if String.eqb orient "FR" then 0%Z else 1%Z.

Definition orient_of (x : path * path * string * Z * Q) : string := x.1.1.2.

(** The [LIB] block of one numbered library, if it is eligible. *)
Definition config_block_of (outdir : path) (x : nat * (path * path * string * Z * Q))
  : option string :=
  let '(i, (fq1, fq2, orient, iSize, _)) := x in
  if eligible orient
  then Some (lib_block iSize (reverse_seq_of orient) i
               (filtered_name outdir i fq1) (filtered_name outdir i fq2))
  else None.

(** The diagnostic of one numbered library, if it is skipped. *)
Definition skip_message_of (x : nat * (path * path * string * Z * Q)) : option diag :=
  let '(_, (fq1, fq2, orient, _, _)) := x in
  if eligible orient then None else Some (SkippingUnsupported orient fq1 fq2).

(** The invocations of the scaffolder. *)
Definition is_sspace (c : call) : bool :=
  match c with CallSspace _ _ _ _ => true | _ => false end.

(** The rounds [js] of pass [i] on the set [lib], the first of them reading
    [pout] and each later one the link to the output of the round before. *)
Fixpoint expected_rounds_set (outdir : path) (limit : Z) (lib : LibrarySet)
    (i : nat) (pout : path) (js : list nat) : list call :=
  match js with
  | [] => []
  | j :: js' =>
      CallSspace (sspace_out outdir i j) pout lib limit
      :: expected_rounds_set outdir limit lib i
           (path_add (sspace_out outdir i j) ".fa") js'
  end.

(** The artifact that is current after the rounds [js] of pass [i]. *)
Fixpoint last_output (outdir : path) (i : nat) (pout : path) (js : list nat) : path :=
  match js with
  | [] => pout
  | j :: js' => last_output outdir i (path_add (sspace_out outdir i j) ".fa") js'
  end.

(** The rounds of the passes [i+1], [i+2], ... over the sets [processed]. *)
Fixpoint expected_rounds (outdir : path) (limit iters : Z) (i : nat) (pout : path)
    (processed : list LibrarySet) : list call :=
  match processed with
  | [] => []
  | lib :: rest =>
      expected_rounds_set outdir limit lib (S i) pout (range1 iters) ++
      expected_rounds outdir limit iters (S i)
        (last_output outdir (S i) pout (range1 iters)) rest
  end.

(** Every invocation reads what the one before it produced, the first one
    reads [pout]. *)
Fixpoint consumes_previous (pout : path) (cs : list call) : Prop :=
  match cs with
  | [] => True
  | CallSspace out input _ _ :: rest =>
      input = pout /\ consumes_previous (path_add out ".fa") rest
  | _ :: _ => False
  end.

(** The passes of the loop of [run_scaffolding]:
    [passes i current pout w steps libraries' pout' w'] says that the loop,
    entered with the counter [i], the classification [current] and the
    artifact [pout] in the world [w], makes one pass for each entry of
    [steps] and is left with [libraries'] and [pout'] in the world [w'].
    An entry holds the set the pass works on, which is the one at index
    [i] of the classification current when the pass begins, and the
    classification that [get_libraries] returns for the output of the
    pass, which is the current one from then on.  The loop is left when
    the counter has reached the length of the current classification. *)
Section Passes.

Context (ext : Collaborators) (outdir : path) (fastq : list path)
        (mapq threads joins limit iters : Z) (sspacebin : string) (verbose : bool).

Inductive passes : nat -> list LibrarySet -> path -> world ->
    list (LibrarySet * list LibrarySet) -> list LibrarySet -> path -> world -> Prop :=
| passes_end (i : nat) (current : list LibrarySet) (pout : path) (w : world) :
    (List.length current <= i)%nat ->
    passes i current pout w [] current pout w
| passes_pass (i : nat) (current : list LibrarySet) (pout : path) (w : world)
    (lib : LibrarySet) (w1 : world) (fresh : list LibrarySet) (w2 : world)
    (steps : list (LibrarySet * list LibrarySet)) (libraries' : list LibrarySet)
    (pout' : path) (w' : world) :
    current !! i = Some lib ->
    for_each (range1 iters)
      (scaffolding_round ext outdir mapq threads joins limit sspacebin verbose lib (S i))
      pout w = (Ret (last_output outdir (S i) pout (range1 iters)), w1) ->
    get_libraries ext fastq (last_output outdir (S i) pout (range1 iters))
                  mapq threads limit false w1 = (Ret fresh, w2) ->
    passes (S i) fresh (last_output outdir (S i) pout (range1 iters)) w2
           steps libraries' pout' w' ->
    passes i current pout w ((lib, fresh) :: steps) libraries' pout' w'.

End Passes.

(** The log of external invocations is untouched. *)
Definition calls_kept (w w' : world) : Prop := calls w' = calls w.

(** The path [p] leads, through fewer than [n] links, to a regular file
    that holds [text]. *)
Definition reaches (n : nat) (w : world) (p : path) (text : string) : Prop :=
  exists q, follow n (fs w) (to_abs (cwd w) p) = Some q /\ fs w !! q = Some (File text).

(** The name [p] itself is a symbolic link. *)
Definition is_link (w : world) (p : path) : Prop :=
  exists t, fs w !! to_abs (cwd w) p = Some (Link t).

(** Every entry of the file system lies in a directory. *)
Definition tree (w : world) : Prop :=
  map_Forall (fun k _ => k = [] \/ fs w !! removelast k = Some Dir) (fs w).

(** Links stay as they are and regular files stay regular files. *)
Definition entries_kept (w w' : world) : Prop :=
  cwd w' = cwd w /\
  (forall k t, fs w !! k = Some (Link t) -> fs w' !! k = Some (Link t)) /\
  (forall k c, fs w !! k = Some (File c) -> exists c', fs w' !! k = Some (File c')).

(** The file system is untouched. *)
Definition fs_kept (w w' : world) : Prop := fs w' = fs w /\ cwd w' = cwd w.

(** The entry [name] of the directory [dir] stays free. *)
Definition absent_in (dir : path) (name : string) (w w' : world) : Prop :=
  cwd w' = cwd w /\
  (fs w !! (to_abs (cwd w) dir ++ [name]) = None ->
   fs w' !! (to_abs (cwd w) dir ++ [name]) = None).

(** A library set with at least one library that gap closing can use. *)
Definition has_eligible (lib : LibrarySet) : bool :=
  existsb (fun x => eligible (orient_of x))
          (zip5 (libFs lib) (libRs lib) (orients lib) (libIS lib) (libISStDev lib)).

(** The read filter as the file has it: a name that is not bound. *)
Definition unbound_filter (ext : Collaborators) : Prop :=
  forall t1 t2 minlen maxlen limit minqual,
    filter_paired ext t1 t2 minlen maxlen limit minqual = Raise NameError.

(** The names in the run directory that the pipeline writes through with
    [open(..., "w")]: everything of gap closing and, when the reduction
    stage runs, the reduced contigs. *)
Definition written_name (reduction : bool) (x : string) : bool :=
  String.prefix "_gapcloser." x || (String.eqb x "contigs.reduced.fa" && reduction).

(** From a world in which no written name of the run directory is a
    symbolic link: the working directory stays, nothing changes outside
    the run directory, and no written name becomes a symbolic link. *)
Definition confined (reduction : bool) (outdir : path) (w w' : world) : Prop :=
  let D := to_abs (cwd w) outdir in
  (forall x t, written_name reduction x = true -> fs w !! (D ++ [x]) <> Some (Link t)) ->
  cwd w' = cwd w /\
  (forall k, ~ D `prefix_of` k -> fs w' !! k = fs w !! k) /\
  (forall x t, written_name reduction x = true -> fs w' !! (D ++ [x]) <> Some (Link t)).

(** The artifact that is current after the invocations [cs]: the link to
    the output of the last scaffolder invocation, or [pout] when the
    scaffolder was not invoked. *)
Fixpoint artifact_after (pout : path) (cs : list call) : path :=
  match cs with
  | [] => pout
  | CallSspace out _ _ _ :: rest => artifact_after (path_add out ".fa") rest
  | _ :: rest => artifact_after pout rest
  end.

(** The warnings about a highly variable insert size. *)
Definition is_variability (d : diag) : bool :=
  match d with HighlyVariable _ _ _ _ => true | _ => false end.

(** The variability warning that a measurement calls for: one when its
    float quotient [stdDev / mean] is above the float [0.66], none
    otherwise. *)
Definition variability_warning (d : dataset) : list diag :=
  if Qltb (float_lit (66 # 100)) (ratio_of d)
  then [HighlyVariable (ismean d) (isstd d) (fq1 d) (fq2 d)]
  else [].

(** A character that no integer literal holds: neither a decimal digit,
    nor a blank, nor a sign. *)
Definition foreign (c : ascii) : bool :=
  negb (is_space c) && negb (starts_with_digit (String c EmptyString)) &&
  negb (Ascii.eqb c "-") && negb (Ascii.eqb c "+").

Fixpoint holds (p : ascii -> bool) (s : string) : bool :=
  match s with
  | EmptyString => false
  | String c s' => p c || holds p s'
  end.

(** What reading the command line does to the world: nothing without
    [--log] and with [-]; otherwise the log is opened for writing. *)
Definition log_opened (log : option path) (w w1 : world) : Prop :=
  match log with
  | None => w1 = w
  | Some p =>
      if bool_decide (p = rel ["-"]) then w1 = w
      else write_file p "" w = (Ret tt, w1)
  end.

(** The invocations of the gap filler. *)
Definition is_gapcloser (c : call) : bool :=
  match c with CallGapCloser _ _ _ => true | _ => false end.

(** [os.path.join(outdir, "_gapcloser.%s.%s.fa" % (i, j))] and
    [os.path.join(outdir, "_gapcloser.%s.conf" % i)] *)
Definition gap_out (outdir : path) (i j : nat) : path :=
  path_join outdir
    (rel ["_gapcloser." +:+ str_of_nat i +:+ "." +:+ str_of_nat j +:+ ".fa"]).

Definition gap_conf (outdir : path) (i : nat) : path :=
  path_join outdir (rel ["_gapcloser." +:+ str_of_nat i +:+ ".conf"]).

(** The rounds [js] on set [i], the first of them filling [pout] and each
    later one the output of the round before. *)
Fixpoint expected_gap_set (outdir : path) (i : nat) (pout : path) (js : list nat)
  : list call :=
  match js with
  | [] => []
  | j :: js' =>
      CallGapCloser pout (gap_conf outdir i) (gap_out outdir i j)
      :: expected_gap_set outdir i (gap_out outdir i j) js'
  end.

Fixpoint gap_last (outdir : path) (i : nat) (pout : path) (js : list nat) : path :=
  match js with
  | [] => pout
  | j :: js' => gap_last outdir i (gap_out outdir i j) js'
  end.

(** The rounds over the numbered sets [xs]: a set without a usable library
    is passed over and leaves the current artifact as it is. *)
Fixpoint expected_gap (outdir : path) (iters : Z) (pout : path)
    (xs : list (nat * LibrarySet)) : list call :=
  match xs with
  | [] => []
  | (i, lib) :: rest =>
      if has_eligible lib
      then expected_gap_set outdir i pout (range1 iters) ++
           expected_gap outdir iters (gap_last outdir i pout (range1 iters)) rest
      else expected_gap outdir iters pout rest
  end.

(** Invocations are added, none of them of the gap filler. *)
Definition no_gapcloser (w w' : world) : Prop :=
  exists trace, calls w' = calls w ++ trace /\ filter is_gapcloser trace = [].

(** * A concrete run

    A small world with three read pairs and one assembly, and
    collaborators that answer with fixed measurements. *)
Module Scenario.

Definition fs0 : gmap (list string) node :=
  list_to_map
    [([], Dir); (["data"], Dir);
     (["data"; "a_1.fq"], File "a1"); (["data"; "a_2.fq"], File "a2");
     (["data"; "b_1.fq"], File "b1"); (["data"; "b_2.fq"], File "b2");
     (["data"; "c_1.fq"], File "c1"); (["data"; "c_2.fq"], File "c2");
     (["data"; "asm.fa"], File "ACGT")].

Definition w0 : world := World fs0 ["data"] [] [].

Definition d300 : dataset :=
  Dataset (rel ["a_1.fq"]) (rel ["a_2.fq"]) 300 300 30 [5; 95; 0; 0]%Z.
Definition d305 : dataset :=
  Dataset (rel ["b_1.fq"]) (rel ["b_2.fq"]) 305 305 25 [0; 1; 98; 1]%Z.
Definition d1200 : dataset :=
  Dataset (rel ["c_1.fq"]) (rel ["c_2.fq"]) 1200 1200 1500 [40; 40; 10; 10]%Z.

Definition libdata : list dataset := [d1200; d300; d305].

(** A read pair none of whose mates could be placed. *)
Definition dzero : dataset :=
  Dataset (rel ["b_1.fq"]) (rel ["b_2.fq"]) 0 310 20 [0; 0; 0; 0]%Z.

Definition fastq : list path :=
  [rel ["a_1.fq"]; rel ["a_2.fq"]; rel ["b_1.fq"]; rel ["b_2.fq"];
   rel ["c_1.fq"]; rel ["c_2.fq"]].

Definition tabbed (fields : list string) : string :=
  String.concat (String tab EmptyString) fields.

Definition ext : Collaborators := {|
  fastq2insert_size := fun _ _ _ _ _ _ _ => Ret libdata;
  fasta_stats := fun text => Ret (tabbed ["asm"; "12"; "20000000"; "41.0"]);
  fasta2homozygous := fun text _ _ _ _ _ => Ret (text +:+ "-reduced");
  fastq2sspace := fun _ _ text _ _ _ _ _ _ => Ret (Some (text +:+ "-scaffolded"));
  filter_paired := fun t1 t2 _ _ _ _ => Ret (t1, t2);
  GapCloser := fun w _ _ _ pout _ _ =>
    Ret ((fun text => text +:+ "-filled") <$> content_of w pout, "log")
|}.

(** The same collaborators, when the second read pair yields no counts. *)
Definition ext_zero : Collaborators := {|
  fastq2insert_size := fun _ _ _ _ _ _ _ => Ret [d300; dzero];
  fasta_stats := fasta_stats ext;
  fasta2homozygous := fasta2homozygous ext;
  fastq2sspace := fastq2sspace ext;
  filter_paired := filter_paired ext;
  GapCloser := GapCloser ext
|}.

(** The collaborators of the file as it stands: the read filter is an
    unbound name. *)
Definition ext_unbound : Collaborators := {|
  fastq2insert_size := fastq2insert_size ext;
  fasta_stats := fasta_stats ext;
  fasta2homozygous := fasta2homozygous ext;
  fastq2sspace := fastq2sspace ext;
  filter_paired := fun _ _ _ _ _ _ => Raise NameError;
  GapCloser := GapCloser ext
|}.

(** A statistics collaborator whose estimates drift: measured against the
    assembly left by the first library set, the third read pair comes out
    at 400, which puts all three pairs in one set. *)
Definition d400 : dataset :=
  Dataset (rel ["c_1.fq"]) (rel ["c_2.fq"]) 400 400 40 [3; 95; 1; 1]%Z.

Definition ext_drift : Collaborators := {|
  fastq2insert_size := fun _ _ fasta _ _ _ _ =>
    if bool_decide (fasta = rel ["out"; "_sspace.1.2.fa"])
    then Ret [d400; d300; d305] else Ret libdata;
  fasta_stats := fasta_stats ext;
  fasta2homozygous := fasta2homozygous ext;
  fastq2sspace := fastq2sspace ext;
  filter_paired := filter_paired ext;
  GapCloser := GapCloser ext
|}.

(** The two sets of the first classification. *)
Definition set_short : LibrarySet :=
  mkLib ["lib1"; "lib2"] [rel ["a_1.fq"]; rel ["b_1.fq"]]
        [rel ["a_2.fq"]; rel ["b_2.fq"]] ["FR"; "RF"] [300; 305]%Z
        [float_lit (30 # 300); float_lit (25 # 305)].
Definition set_long : LibrarySet :=
  mkLib ["lib1"] [rel ["c_1.fq"]] [rel ["c_2.fq"]] ["FF"] [1200]%Z [1%Q].

(** A world in which the run directory [out] holds the reduced contigs. *)
Definition w_reduced : world :=
  World (<[ ["data"; "out"; "contigs.reduced.fa"] := File "ACGT-reduced" ]>
           (<[ ["data"; "out"] := Dir ]> fs0))
        ["data"] [] [].

(** A statistics collaborator that finds no usable read pair. *)
Definition ext_none : Collaborators := {|
  fastq2insert_size := fun _ _ _ _ _ _ _ => Ret [];
  fasta_stats := fasta_stats ext;
  fasta2homozygous := fasta2homozygous ext;
  fastq2sspace := fastq2sspace ext;
  filter_paired := filter_paired ext;
  GapCloser := GapCloser ext
|}.

(** Worlds in which the run directory [out] holds the linked contigs, and
    the scaffolds. *)
Definition w_contigs : world :=
  World (<[ ["data"; "out"; "contigs.fa"] := Link (Path true ["data"; "asm.fa"]) ]>
           (<[ ["data"; "out"] := Dir ]> fs0))
        ["data"] [] [].

Definition w_scaffolds : world :=
  World (<[ ["data"; "out"; "scaffolds.fa"] := File "ACGT-scaffolded" ]>
           (<[ ["data"; "out"] := Dir ]> fs0))
        ["data"] [] [].

(** A whole run in [w0] with the given stage switches. *)
Definition run (e : Collaborators) (reduction scaffolding gapclosing : bool)
  : outcome (option unit) * world :=
  redundants e 3 fastq (rel ["asm.fa"]) (rel ["out"]) 10 2 (8 # 10) (75 # 100) 200 5
             (2 # 10) 2 "sspace" reduction scaffolding gapclosing false w0.

(** A world in which the run directory [out] exists. *)
Definition w_out : world :=
  World (<[ ["data"; "out"] := Dir ]> fs0) ["data"] [] [].

End Scenario.

(** * Further concrete cases *)

Module Cases.

(** A statistics line with two fields only. *)
Definition ext_short_stats : Collaborators := {|
  fastq2insert_size := fastq2insert_size Scenario.ext;
  fasta_stats := fun text => Ret (Scenario.tabbed ["asm"; "12"]);
  fasta2homozygous := fasta2homozygous Scenario.ext;
  fastq2sspace := fastq2sspace Scenario.ext;
  filter_paired := filter_paired Scenario.ext;
  GapCloser := GapCloser Scenario.ext
|}.

(** A statistics line whose third field is not a whole number. *)
Definition ext_odd_stats : Collaborators := {|
  fastq2insert_size := fastq2insert_size Scenario.ext;
  fasta_stats := fun text => Ret (Scenario.tabbed ["asm"; "12"; "2e7"; "41.0"]);
  fasta2homozygous := fasta2homozygous Scenario.ext;
  fastq2sspace := fastq2sspace Scenario.ext;
  filter_paired := filter_paired Scenario.ext;
  GapCloser := GapCloser Scenario.ext
|}.

(** A statistics line whose third field is a sign alone. *)
Definition ext_sign_stats : Collaborators := {|
  fastq2insert_size := fastq2insert_size Scenario.ext;
  fasta_stats := fun text => Ret (Scenario.tabbed ["asm"; "12"; "-"; "41.0"]);
  fasta2homozygous := fasta2homozygous Scenario.ext;
  fastq2sspace := fastq2sspace Scenario.ext;
  filter_paired := filter_paired Scenario.ext;
  GapCloser := GapCloser Scenario.ext
|}.

Fixpoint zeros (n : nat) : string :=
  match n with
  | O => EmptyString
  | S n' => String "0" (zeros n')
  end.

(** A statistics line whose third field is 10^309, beyond the largest
    double. *)
Definition ext_huge_stats : Collaborators := {|
  fastq2insert_size := fastq2insert_size Scenario.ext;
  fasta_stats := fun text => Ret (Scenario.tabbed ["asm"; "12"; "1" +:+ zeros 309; "41.0"]);
  fasta2homozygous := fasta2homozygous Scenario.ext;
  fastq2sspace := fastq2sspace Scenario.ext;
  filter_paired := filter_paired Scenario.ext;
  GapCloser := GapCloser Scenario.ext
|}.

(** A scaffolder that never completes. *)
Definition ext_no_scaffolds : Collaborators := {|
  fastq2insert_size := fastq2insert_size Scenario.ext;
  fasta_stats := fasta_stats Scenario.ext;
  fasta2homozygous := fasta2homozygous Scenario.ext;
  fastq2sspace := fun _ _ _ _ _ _ _ _ _ => Ret None;
  filter_paired := filter_paired Scenario.ext;
  GapCloser := GapCloser Scenario.ext
|}.

(** Options of a run on the scenario's files, into [out]. *)
Definition options_out : Options := {|
  o_verbose := false;
  o_log := None;
  o_fastq := Scenario.fastq;
  o_fasta := rel ["asm.fa"];
  o_outdir := rel ["out"];
  o_threads := 2;
  o_identity := float_lit (8 # 10);
  o_overlap := float_lit (75 # 100);
  o_minLength := 200;
  o_joins := 5;
  o_limit := float_lit (2 # 10);
  o_mapq := 10;
  o_iters := 2;
  o_sspacebin := "sspace";
  o_noreduction := true;
  o_noscaffolding := true;
  o_nogapclosing := true
|}.

(** The same options with the assembly file given as output path. *)
Definition options_asm : Options := {|
  o_verbose := false;
  o_log := None;
  o_fastq := Scenario.fastq;
  o_fasta := rel ["asm.fa"];
  o_outdir := rel ["asm.fa"];
  o_threads := 2;
  o_identity := float_lit (8 # 10);
  o_overlap := float_lit (75 # 100);
  o_minLength := 200;
  o_joins := 5;
  o_limit := float_lit (2 # 10);
  o_mapq := 10;
  o_iters := 2;
  o_sspacebin := "sspace";
  o_noreduction := true;
  o_noscaffolding := true;
  o_nogapclosing := true
|}.

(** The options of [options_out] with a log file. *)
Definition options_log : Options := {|
  o_verbose := false;
  o_log := Some (rel ["run.log"]);
  o_fastq := Scenario.fastq;
  o_fasta := rel ["asm.fa"];
  o_outdir := rel ["out"];
  o_threads := 2;
  o_identity := float_lit (8 # 10);
  o_overlap := float_lit (75 # 100);
  o_minLength := 200;
  o_joins := 5;
  o_limit := float_lit (2 # 10);
  o_mapq := 10;
  o_iters := 2;
  o_sspacebin := "sspace";
  o_noreduction := true;
  o_noscaffolding := true;
  o_nogapclosing := true
|}.

(** The same, with the log in a directory that is not there. *)
Definition options_nolog : Options := {|
  o_verbose := false;
  o_log := Some (rel ["logs"; "run.log"]);
  o_fastq := Scenario.fastq;
  o_fasta := rel ["asm.fa"];
  o_outdir := rel ["out"];
  o_threads := 2;
  o_identity := float_lit (8 # 10);
  o_overlap := float_lit (75 # 100);
  o_minLength := 200;
  o_joins := 5;
  o_limit := float_lit (2 # 10);
  o_mapq := 10;
  o_iters := 2;
  o_sspacebin := "sspace";
  o_noreduction := true;
  o_noscaffolding := true;
  o_nogapclosing := true
|}.

(** A measurement with a mean insert below zero. *)
Definition d_negative : dataset :=
  Dataset (rel ["a_1.fq"]) (rel ["a_2.fq"]) (-100) (-100) 200 [5; 95; 0; 0]%Z.

Definition ext_negative : Collaborators := {|
  fastq2insert_size := fun _ _ _ _ _ _ _ => Ret [d_negative];
  fasta_stats := fasta_stats Scenario.ext;
  fasta2homozygous := fasta2homozygous Scenario.ext;
  fastq2sspace := fastq2sspace Scenario.ext;
  filter_paired := filter_paired Scenario.ext;
  GapCloser := GapCloser Scenario.ext
|}.

(** A measurement whose quotient [stdDev / mean] is above 0.66 as a
    rational and rounds to the double nearest to 0.66. *)
Definition d_threshold : dataset :=
  Dataset (rel ["a_1.fq"]) (rel ["a_2.fq"]) (float_lit (1049 # 10))
          (float_lit (1049 # 10)) (float_lit (6923400000000001 # 100000000000000))
          [5; 95; 0; 0]%Z.

Definition ext_threshold : Collaborators := {|
  fastq2insert_size := fun _ _ _ _ _ _ _ => Ret [d_threshold];
  fasta_stats := fasta_stats Scenario.ext;
  fasta2homozygous := fasta2homozygous Scenario.ext;
  fastq2sspace := fastq2sspace Scenario.ext;
  filter_paired := filter_paired Scenario.ext;
  GapCloser := GapCloser Scenario.ext
|}.

(** A measurement that names a read file which is not there. *)
Definition d_lost : dataset :=
  Dataset (rel ["gone_1.fq"]) (rel ["b_2.fq"]) 305 305 25 [0; 1; 98; 1]%Z.

Definition ext_lost : Collaborators := {|
  fastq2insert_size := fun _ _ _ _ _ _ _ => Ret [Scenario.d300; d_lost];
  fasta_stats := fasta_stats Scenario.ext;
  fasta2homozygous := fasta2homozygous Scenario.ext;
  fastq2sspace := fastq2sspace Scenario.ext;
  filter_paired := filter_paired Scenario.ext;
  GapCloser := GapCloser Scenario.ext
|}.

End Cases.

(** * Properties *)

(** ** Reasoning in the monad *)

Lemma bind_ret {A B} (m : M A) (k : A -> M B) w a w' :
  m w = (Ret a, w') -> bind m k w = k a w'.
Proof. intros H. unfold bind. now rewrite H. Qed.

Lemma bind_raise {A B} (m : M A) (k : A -> M B) w e w' :
  m w = (Raise e, w') -> bind m k w = (Raise e, w').
Proof. intros H. unfold bind. now rewrite H. Qed.

Lemma bind_ret_inv {A B} (m : M A) (k : A -> M B) w b w' :
  bind m k w = (Ret b, w') ->
  exists a w1, m w = (Ret a, w1) /\ k a w1 = (Ret b, w').
Proof.
  unfold bind. destruct (m w) as [[a|e] w1]; intros H.
  - exists a, w1. now split.
  - discriminate.
Qed.

(** A run is determined by its outcome and the world it leaves. *)
Lemma run_eq {A} (x : outcome A * world) (o : outcome A) : x.1 = o -> x = (o, x.2).
Proof. destruct x as [o' w]. simpl. now intros ->. Qed.

Lemma lift_ret {A} (o : outcome A) w : lift o w = (o, w).
Proof. reflexivity. Qed.

(** ** Rational comparisons *)

Lemma Qltb_lt (x y : Q) : Qltb x y = true <-> (x < y)%Q.
Proof.
  unfold Qltb. rewrite negb_true_iff, <- not_true_iff_false, Qle_bool_iff.
  split; [apply Qnot_le_lt | apply Qlt_not_le].
Qed.

Lemma Qltb_ge (x y : Q) : Qltb x y = false <-> (y <= x)%Q.
Proof.
  unfold Qltb. rewrite negb_false_iff, Qle_bool_iff. reflexivity.
Qed.

Lemma Qeqb_eq (x y : Q) : Qeqb x y = true <-> (x == y)%Q.
Proof.
  unfold Qeqb. rewrite andb_true_iff, !Qle_bool_iff. split.
  - intros [H1 H2]. now apply Qle_antisym.
  - intros H. rewrite H. split; apply Qle_refl.
Qed.

Lemma pow2_pos (e : Z) : (0 < pow2 e)%Q.
Proof. unfold pow2. apply Qpower_0_lt. reflexivity. Qed.

Lemma round_half_even_nonneg (x : Q) : (0 <= x)%Q -> (0 <= round_half_even x)%Z.
Proof.
  intros H. assert (Hf : (0 <= Qfloor x)%Z).
  { change 0%Z with (Qfloor 0). now apply Qfloor_resp_le. }
  unfold round_half_even.
  destruct (_ ?= _)%Q; [destruct (Z.even _)|..]; lia.
Qed.

Lemma round_half_even_nonpos (x : Q) : (x <= 0)%Q -> (round_half_even x <= 0)%Z.
Proof.
  intros H. assert (Hf : (Qfloor x <= 0)%Z).
  { change 0%Z with (Qfloor 0). now apply Qfloor_resp_le. }
  unfold round_half_even.
  destruct (Z.eq_dec (Qfloor x) 0) as [E|E].
  - rewrite E. assert (Hx : (x - inject_Z 0 ?= 1 # 2)%Q = Lt).
    { apply Qlt_alt. unfold Qminus.
      apply Qle_lt_trans with (y := 0%Q); [|reflexivity].
      change (- inject_Z 0)%Q with 0%Q. now rewrite Qplus_0_r. }
    rewrite Hx. lia.
  - destruct (_ ?= _)%Q; [destruct (Z.even _)|..]; lia.
Qed.

(** Rounding keeps the sign. *)
Lemma round_double_nonneg (x : Q) : (0 <= x)%Q -> (0 <= round_double x)%Q.
Proof.
  intros H. unfold round_double. destruct (Qeqb x 0); [apply Qle_refl|].
  rewrite Qred_correct. apply Qmult_le_0_compat.
  - change 0%Q with (inject_Z 0). rewrite <- Zle_Qle.
    apply round_half_even_nonneg. apply Qle_shift_div_l; [apply pow2_pos|].
    now rewrite Qmult_0_l.
  - apply Qlt_le_weak, pow2_pos.
Qed.

Lemma round_double_nonpos (x : Q) : (x <= 0)%Q -> (round_double x <= 0)%Q.
Proof.
  intros H. unfold round_double. destruct (Qeqb x 0); [apply Qle_refl|].
  rewrite Qred_correct.
  set (e := Z.max _ _).
  assert (Hn : (round_half_even (x / pow2 e) <= 0)%Z).
  { apply round_half_even_nonpos. apply Qle_shift_div_r; [apply pow2_pos|].
    now rewrite Qmult_0_l. }
  rewrite Zle_Qle in Hn.
  rewrite <- (Qmult_0_l (pow2 e)).
  apply Qmult_le_compat_r; [exact Hn | apply Qlt_le_weak, pow2_pos].
Qed.

Lemma round_half_even_comp (x y : Q) : (x == y)%Q -> round_half_even x = round_half_even y.
Proof.
  intros H. unfold round_half_even.
  rewrite (Qfloor_comp _ _ H).
  assert (Hc : (x - inject_Z (Qfloor y) ?= 1 # 2)%Q = (y - inject_Z (Qfloor y) ?= 1 # 2)%Q).
  { apply Qcompare_comp; [now rewrite H | reflexivity]. }
  now rewrite Hc.
Qed.

Lemma round_half_even_Z (m : Z) : round_half_even (inject_Z m) = m.
Proof.
  unfold round_half_even. rewrite Qfloor_Z.
  assert (Hc : (inject_Z m - inject_Z m ?= 1 # 2)%Q = Lt).
  { apply Qlt_alt. unfold Qminus. rewrite Qplus_opp_r. reflexivity. }
  now rewrite Hc.
Qed.

Lemma pow2_nonneg (k : Z) : (0 <= k)%Z -> (pow2 k == inject_Z (2 ^ k))%Q.
Proof. intros H. unfold pow2. now rewrite (Zpower_Qpower 2 k H). Qed.

(** An integer below [2 ** 53] in absolute value is a double. *)
Lemma round_double_int (n : Z) :
  (Z.abs n < 2 ^ 53)%Z -> round_double (inject_Z n) = inject_Z n.
Proof.
  intros Hn. unfold round_double.
  destruct (Qeqb (inject_Z n) 0) eqn:E0.
  { apply Qeqb_eq in E0. unfold Qeq in E0. simpl in E0.
    replace n with 0%Z by lia. reflexivity. }
  assert (Hnz : n <> 0%Z).
  { intros ->. assert (Qeqb (inject_Z 0) 0 = true) by now apply Qeqb_eq. congruence. }
  set (L := Z.log2 (Z.abs n)).
  assert (HL : (0 <= L < 53)%Z).
  { split; [apply Z.log2_nonneg|]. apply Z.log2_lt_pow2; lia. }
  assert (Hpow : (2 ^ L <= Z.abs n)%Z) by (apply Z.log2_spec; lia).
  assert (Hexp : exponent (inject_Z n) = L).
  { unfold exponent. cbn [Qnum Qden inject_Z]. change (Z.log2 1) with 0%Z.
    rewrite Z.sub_0_r. fold L.
    assert (Hle : Qle_bool (pow2 L) (Qabs (inject_Z n)) = true).
    { apply Qle_bool_iff. rewrite pow2_nonneg by lia.
      change (Qabs (inject_Z n)) with (inject_Z (Z.abs n)). now rewrite <- Zle_Qle. }
    now rewrite Hle. }
  rewrite Hexp.
  replace (Z.max (L - 52) (-1074)) with (- (52 - L))%Z by lia.
  set (k := (52 - L)%Z). assert (Hk : (0 <= k)%Z) by (unfold k; lia).
  assert (Hinv : (pow2 (- k) == / inject_Z (2 ^ k))%Q).
  { unfold pow2. rewrite Qpower_opp. now rewrite <- (Zpower_Qpower 2 k Hk). }
  assert (Hpos : ~ (inject_Z (2 ^ k) == 0)%Q).
  { unfold Qeq. simpl. rewrite Z.mul_1_r. apply Z.pow_nonzero; lia. }
  assert (Hscaled : (inject_Z n / pow2 (- k) == inject_Z (n * 2 ^ k))%Q).
  { rewrite Hinv. unfold Qdiv. rewrite Qinv_involutive. now rewrite inject_Z_mult. }
  rewrite (round_half_even_comp _ _ Hscaled), round_half_even_Z.
  rewrite <- (Qcanon.Qred_identity (inject_Z n)) by (simpl; apply Z.gcd_1_r).
  apply Qred_complete.
  rewrite Hinv, inject_Z_mult. field. exact Hpos.
Qed.

Lemma finite_int (n : Z) : (Z.abs n < 2 ^ 53)%Z -> infinite (inject_Z n) = false.
Proof.
  intros Hn. unfold infinite.
  destruct (Qle_bool (pow2 1024) (Qabs (inject_Z n))) eqn:E; [|reflexivity].
  apply Qle_bool_iff in E. rewrite (pow2_nonneg 1024) in E by lia.
  change (Qabs (inject_Z n)) with (inject_Z (Z.abs n)) in E.
  rewrite <- Zle_Qle in E.
  assert (2 ^ 53 < 2 ^ 1024)%Z by (apply Z.pow_lt_mono_r; lia). lia.
Qed.

Lemma Qeqb_inject_Z_0 (z : Z) : Qeqb (inject_Z z) 0 = bool_decide (z = 0%Z).
Proof.
  destruct (Qeqb (inject_Z z) 0) eqn:E; symmetry.
  - apply bool_decide_eq_true. apply Qeqb_eq in E.
    unfold Qeq in E. simpl in E. lia.
  - apply bool_decide_eq_false. intros ->.
    assert (Qeqb (inject_Z 0) 0 = true) by now apply Qeqb_eq.
    congruence.
Qed.

(** The percentage test of [get_orientation], over the integers. *)
Lemma percent_lt_90 (m s : Z) :
  (0 < s)%Z ->
  Qltb (100 * inject_Z m / inject_Z s) 90 = bool_decide (100 * m < 90 * s)%Z.
Proof.
  intros Hs.
  assert (Hiff : (100 * inject_Z m / inject_Z s < 90)%Q <-> (100 * m < 90 * s)%Z).
  { destruct s as [|p|p]; try lia.
    unfold Qlt, Qdiv, Qmult, Qinv, inject_Z. simpl. lia. }
  destruct (Qltb _ _) eqn:E; symmetry.
  - apply bool_decide_eq_true, Hiff, Qltb_lt, E.
  - apply bool_decide_eq_false. intros H. apply Hiff, Qltb_lt in H. congruence.
Qed.

(** ** [max], [index], [sum] *)

Lemma foldl_max_ge (l : list Z) (x : Z) :
  (x <= foldl Z.max x l)%Z /\ (forall y, y ∈ l -> (y <= foldl Z.max x l)%Z).
Proof.
  revert x. induction l as [|a l IH]; intros x; simpl.
  - split; [lia | intros y Hy; inversion Hy].
  - destruct (IH (Z.max x a)) as [H1 H2]. split; [lia|].
    intros y Hy. apply elem_of_cons in Hy as [->|Hy]; [lia | auto].
Qed.

Lemma foldl_max_in (l : list Z) (x : Z) : foldl Z.max x l ∈ x :: l.
Proof.
  revert x. induction l as [|a l IH]; intros x; simpl.
  - apply list_elem_of_here.
  - specialize (IH (Z.max x a)). apply elem_of_cons in IH as [E|IH].
    + rewrite E. destruct (Z.max_spec x a) as [[_ ->]|[_ ->]].
      * apply list_elem_of_further, list_elem_of_here.
      * apply list_elem_of_here.
    + now do 2 apply list_elem_of_further.
Qed.

Lemma py_index_first (l : list Z) (x : Z) :
  x ∈ l ->
  exists i, py_index l x = Ret i /\ l !! i = Some x /\
            forall j y, (j < i)%nat -> l !! j = Some y -> y <> x.
Proof.
  induction l as [|a l IH]; intros Hin; [inversion Hin|].
  simpl. destruct (decide (a = x)) as [->|Hne].
  - exists O. split; [reflexivity|]. split; [reflexivity|]. intros j y Hj; lia.
  - apply elem_of_cons in Hin as [->|Hin]; [congruence|].
    destruct (IH Hin) as (i & Hi & Hl & Hf). exists (S i). rewrite Hi.
    split; [reflexivity|]. split; [exact Hl|].
    intros [|j] y Hj Hy; simpl in Hy; [congruence|].
    apply (Hf j); [lia | exact Hy].
Qed.

Lemma max_index_argmax (l : list Z) :
  l <> [] ->
  exists i m, py_max l = Ret m /\ py_index l m = Ret i /\ first_argmax l i m.
Proof.
  destruct l as [|x l]; [congruence|]. intros _.
  set (m := foldl Z.max x l).
  destruct (py_index_first (x :: l) m (foldl_max_in l x)) as (i & Hi & Hl & Hf).
  exists i, m. split; [reflexivity|]. split; [exact Hi|].
  split; [exact Hl|]. split.
  - intros j y Hy. apply list_elem_of_lookup_2 in Hy.
    destruct (foldl_max_ge l x) as [H1 H2].
    apply elem_of_cons in Hy as [->|Hy]; [exact H1 | now apply H2].
  - intros j y Hj Hy. specialize (Hf j y Hj Hy).
    apply list_elem_of_lookup_2 in Hy.
    destruct (foldl_max_ge l x) as [H1 H2].
    assert (y <= m)%Z by (apply elem_of_cons in Hy as [->|Hy]; [exact H1 | now apply H2]).
    lia.
Qed.

(** What [get_orientation] does on a vector of at most four counts with a
    non-zero sum. *)
Lemma get_orientation_run (ps : list Z) (f1 f2 : path) (w : world) :
  (List.length ps <= 4)%nat -> py_sum ps <> 0%Z ->
  exists i m o,
    first_argmax ps i m /\ orientations !! i = Some o /\
    get_orientation ps f1 f2 w =
      (Ret o,
       if Qltb (100 * inject_Z m / inject_Z (py_sum ps)) 90
       then World (fs w) (cwd w)
              (stderr w ++ [PoorQuality o (100 * inject_Z m / inject_Z (py_sum ps)) f1 f2 ps])
              (calls w)
       else w).
Proof.
  intros Hlen Hsum.
  assert (Hne : ps <> []) by (intros ->; now apply Hsum).
  destruct (max_index_argmax ps Hne) as (i & m & Hmax & Hidx & Harg).
  assert (Hi : (i < 4)%nat).
  { destruct Harg as [Hl _]. apply lookup_lt_Some in Hl. lia. }
  destruct (orientations !! i) as [o|] eqn:Ho.
  2:{ apply lookup_ge_None in Ho. simpl in Ho. lia. }
  exists i, m, o. split; [exact Harg|]. split; [exact Ho|].
  unfold get_orientation.
  rewrite (bind_ret _ _ w m w) by now rewrite lift_ret, Hmax.
  rewrite (bind_ret _ _ w i w) by now rewrite lift_ret, Hidx.
  rewrite (bind_ret _ _ w o w) by (rewrite lift_ret; unfold py_getitem; now rewrite Ho).
  rewrite (bind_ret _ _ w (100 * inject_Z m / inject_Z (py_sum ps))%Q w).
  2:{ rewrite lift_ret. unfold py_div. rewrite Qeqb_inject_Z_0.
      now rewrite bool_decide_eq_false_2. }
  destruct (Qltb _ 90); reflexivity.
Qed.

(** ** The classification loop *)

Lemma unsnoc_app {A} (l : list A) (x : A) : unsnoc (l ++ [x]) = Some (l, x).
Proof.
  induction l as [|a l IH]; simpl; [reflexivity|]. now rewrite IH.
Qed.

Lemma unsnoc_None {A} (l : list A) : unsnoc l = None -> l = [].
Proof.
  destruct l as [|a l]; [reflexivity|]. simpl.
  destruct (unsnoc l) as [[f y]|]; discriminate.
Qed.

Lemma unsnoc_Some {A} (l f : list A) (x : A) :
  unsnoc l = Some (f, x) -> l = f ++ [x].
Proof.
  revert f. induction l as [|a l IH]; intros f; simpl; [discriminate|].
  destruct (unsnoc l) as [[f' y]|] eqn:E.
  - intros [= <- <-]. simpl. f_equal. now apply IH.
  - intros [= <- <-]. apply unsnoc_None in E. now subst.
Qed.

Lemma same_but_stderr_refl w : same_but_stderr w w.
Proof. now repeat split. Qed.

Lemma same_but_stderr_trans w1 w2 w3 :
  same_but_stderr w1 w2 -> same_but_stderr w2 w3 -> same_but_stderr w1 w3.
Proof. unfold same_but_stderr. intros (?&?&?) (?&?&?). repeat split; congruence. Qed.

Lemma stat_same w w' p : fs w' = fs w -> cwd w' = cwd w -> stat w' p = stat w p.
Proof. intros Hf Hc. unfold stat. now rewrite Hf, Hc. Qed.

Lemma isfile_same w w' p : same_but_stderr w w' -> isfile w' p = isfile w p.
Proof. intros (Hf & Hc & _). unfold isfile. now rewrite (stat_same w w'). Qed.

Lemma classifiable_same w w' d :
  same_but_stderr w w' -> classifiable w d -> classifiable w' d.
Proof.
  intros Hs [H1 H2 H3 H4 H5]. split; try assumption;
    now rewrite (isfile_same w w').
Qed.

Lemma add_library_run (cur : LibrarySet) (i : nat) (d : dataset) (w : world) :
  classifiable w d ->
  exists o w',
    vote (pairs d) o /\ same_but_stderr w w' /\
    add_library cur i d w =
      (Ret (mkLib (libnames cur ++ ["lib" +:+ str_of_nat i])
                  (libFs cur ++ [fq1 d]) (libRs cur ++ [fq2 d])
                  (orients cur ++ [o]) (libIS cur ++ [recorded_mean d])
                  (libISStDev cur ++ [stdfrac_of d])), w').
Proof.
  intros [H1 H2 Hlen Hsum Hmean].
  destruct (get_orientation_run (pairs d) (fq1 d) (fq2 d) w Hlen Hsum)
    as (k & m & o & Harg & Ho & Hrun).
  set (w1 := if Qltb (100 * inject_Z m / inject_Z (py_sum (pairs d))) 90
             then World (fs w) (cwd w)
                    (stderr w ++ [PoorQuality o
                       (100 * inject_Z m / inject_Z (py_sum (pairs d)))
                       (fq1 d) (fq2 d) (pairs d)]) (calls w)
             else w) in *.
  assert (Hw1 : same_but_stderr w w1).
  { unfold w1. destruct (Qltb _ 90); now repeat split. }
  assert (Hdiv : float_div (isstd d) (ismean d) = Ret (ratio_of d)).
  { unfold float_div. destruct (Qeqb (ismean d) 0) eqn:E; [|reflexivity].
    apply Qeqb_eq in E. contradiction. }
  exists o.
  exists (if Qltb (float_lit (66 # 100)) (ratio_of d)
          then World (fs w1) (cwd w1)
                 (stderr w1 ++ [HighlyVariable (ismean d) (isstd d) (fq1 d) (fq2 d)])
                 (calls w1)
          else w1).
  split; [now exists k, m|]. split.
  { destruct (Qltb (float_lit (66 # 100)) _); [|exact Hw1].
    eapply same_but_stderr_trans; [exact Hw1|]. now repeat split. }
  unfold add_library.
  rewrite (bind_ret _ _ w (fq1 d) w) by (unfold open_r; now rewrite H1).
  rewrite (bind_ret _ _ w (fq2 d) w) by (unfold open_r; now rewrite H2).
  rewrite (bind_ret _ _ w o w1) by exact Hrun.
  rewrite (bind_ret _ _ w1 (ratio_of d) w1) by now rewrite lift_ret, Hdiv.
  unfold stdfrac_of, recorded_mean.
  destruct (Qltb (float_lit (66 # 100)) _); reflexivity.
Qed.

Lemma represents_empty : represents empty_set [].
Proof. split; simpl; try reflexivity. constructor. Qed.

Lemma represents_snoc (cur : LibrarySet) (g : list dataset) (d : dataset) (o : string) :
  represents cur g -> vote (pairs d) o ->
  represents (mkLib (libnames cur ++ ["lib" +:+ str_of_nat (S (List.length g))])
                    (libFs cur ++ [fq1 d]) (libRs cur ++ [fq2 d])
                    (orients cur ++ [o]) (libIS cur ++ [recorded_mean d])
                    (libISStDev cur ++ [stdfrac_of d]))
             (g ++ [d]).
Proof.
  intros [Hn HF HR Ho HI HS] Hv. split; simpl.
  - rewrite Hn, length_app. simpl. rewrite Nat.add_1_r, seq_S, fmap_app. reflexivity.
  - now rewrite HF, fmap_app.
  - now rewrite HR, fmap_app.
  - apply Forall2_app; [exact Ho|]. repeat constructor. exact Hv.
  - now rewrite HI, fmap_app.
  - now rewrite HS, fmap_app.
Qed.

Lemma loop_inv_init : loop_inv [] 1 [].
Proof.
  split; [constructor|]. split; [constructor|]. intros front g H. discriminate.
Qed.

Lemma open_set_run (libraries : list LibrarySet) (i : nat)
    (groups : list (list dataset)) (d : dataset) (w : world) :
  loop_inv libraries i groups ->
  exists front cur gfront g,
    open_set libraries i d w = (Ret (front, cur, S (List.length g)), w) /\
    Forall2 represents front gfront /\ represents cur g /\
    Forall (fun g => g <> []) gfront /\
    spec_step groups d = gfront ++ [g ++ [d]].
Proof.
  intros (Hrep & Hne & Hcnt).
  unfold open_set, spec_step, opens_new_set.
  destruct (unsnoc groups) as [[gf g]|] eqn:E.
  - pose proof (unsnoc_Some _ _ _ E) as ->.
    apply Forall2_app_inv_r in Hrep as (lf & ll & Hlf & Hll & ->).
    inversion Hll as [|l g' ll' gg' Hl Hnil]; subst. inversion Hnil; subst.
    rewrite unsnoc_app.
    assert (Hg : g <> []).
    { rewrite Forall_app in Hne. destruct Hne as [_ Hg]. now inversion Hg. }
    destruct g as [|first rest]; [congruence|].
    assert (Hfirst : py_getitem (libIS l) 0 = Ret (recorded_mean first)).
    { rewrite (rep_IS _ _ Hl). reflexivity. }
    rewrite (bind_ret _ _ w (recorded_mean first) w) by now rewrite lift_ret, Hfirst.
    destruct (Qltb _ (ismedian d)).
    + exists (lf ++ [l]), empty_set, (gf ++ [first :: rest]), [].
      split; [reflexivity|]. split; [now apply Forall2_app|].
      split; [apply represents_empty|]. split; [exact Hne | reflexivity].
    + specialize (Hcnt _ _ eq_refl). subst i.
      exists lf, l, gf, (first :: rest).
      split; [reflexivity|]. split; [exact Hlf|]. split; [exact Hl|].
      rewrite Forall_app in Hne. destruct Hne as [Hgf _].
      split; [exact Hgf | reflexivity].
  - apply unsnoc_None in E. subst groups. inversion Hrep; subst.
    exists [], empty_set, [], [].
    split; [reflexivity|]. split; [constructor|].
    split; [apply represents_empty|]. split; [constructor | reflexivity].
Qed.

Lemma body_run (libraries : list LibrarySet) (i : nat)
    (groups : list (list dataset)) (d : dataset) (w : world) :
  loop_inv libraries i groups -> classifiable w d ->
  exists libraries' i' w',
    get_libraries_body (libraries, i) d w = (Ret (libraries', i'), w') /\
    same_but_stderr w w' /\
    loop_inv libraries' i' (spec_step groups d).
Proof.
  intros Hinv Hcl.
  destruct (open_set_run libraries i groups d w Hinv)
    as (front & cur & gfront & g & Hopen & Hfront & Hcur & Hne & ->).
  destruct (add_library_run cur (S (List.length g)) d w Hcl)
    as (o & w' & Hv & Hs & Hrun).
  eexists (front ++ [_]), (S (S (List.length g))), w'.
  split; [|split; [exact Hs|]].
  - unfold get_libraries_body.
    rewrite (bind_ret _ _ w _ w Hopen). rewrite (bind_ret _ _ w _ w' Hrun).
    reflexivity.
  - split; [|split].
    + apply Forall2_app; [exact Hfront|]. constructor; [|constructor].
      exact (represents_snoc cur g d o Hcur Hv).
    + apply Forall_app. split; [exact Hne|]. constructor; [|constructor].
      destruct g; discriminate.
    + intros front' g'. rewrite unsnoc_app. intros [= <- <-].
      rewrite length_app. simpl. lia.
Qed.

Lemma loop_run (ds : list dataset) :
  forall libraries i groups w,
    loop_inv libraries i groups -> Forall (classifiable w) ds ->
    exists libraries' i' w',
      for_each ds get_libraries_body (libraries, i) w = (Ret (libraries', i'), w') /\
      same_but_stderr w w' /\
      loop_inv libraries' i' (foldl spec_step groups ds).
Proof.
  induction ds as [|d ds IH]; intros libraries i groups w Hinv Hall.
  - exists libraries, i, w. split; [reflexivity|].
    split; [apply same_but_stderr_refl | exact Hinv].
  - inversion Hall as [|? ? Hd Hds]; subst.
    destruct (body_run libraries i groups d w Hinv Hd)
      as (l1 & i1 & w1 & Hrun1 & Hs1 & Hinv1).
    destruct (IH l1 i1 (spec_step groups d) w1 Hinv1) as (l2 & i2 & w2 & Hrun2 & Hs2 & Hinv2).
    { eapply Forall_impl; [exact Hds|]. intros x. now apply classifiable_same. }
    exists l2, i2, w2. split; [|split].
    + simpl. rewrite (bind_ret _ _ w _ w1 Hrun1). exact Hrun2.
    + eapply same_but_stderr_trans; eassumption.
    + exact Hinv2.
Qed.

(** ** [sorted] *)

Lemma insert_by_perm {A} (key : A -> Q) (x : A) (l : list A) :
  insert_by key x l ≡ₚ x :: l.
Proof.
  induction l as [|y l IH]; simpl; [reflexivity|].
  destruct (Qle_bool (key x) (key y)); [reflexivity|].
  rewrite IH. apply Permutation_swap.
Qed.

Lemma sorted_perm {A} (key : A -> Q) (l : list A) : sorted key l ≡ₚ l.
Proof.
  induction l as [|x l IH]; simpl; [reflexivity|].
  unfold sorted in IH. rewrite insert_by_perm. now rewrite IH.
Qed.

Lemma insert_by_sorted {A} (key : A -> Q) (x : A) (l : list A) :
  StronglySorted (fun a b => (key a <= key b)%Q) l ->
  StronglySorted (fun a b => (key a <= key b)%Q) (insert_by key x l).
Proof.
  induction l as [|y l IH]; intros Hs; simpl.
  - repeat constructor.
  - inversion Hs as [|? ? Hl Hy]; subst.
    destruct (Qle_bool (key x) (key y)) eqn:E.
    + apply Qle_bool_iff in E. constructor; [exact Hs|].
      constructor; [exact E|].
      eapply Forall_impl; [exact Hy|]. intros z Hz. simpl in Hz.
      eapply Qle_trans; eassumption.
    + assert (Hyx : (key y <= key x)%Q).
      { apply Qlt_le_weak, Qnot_le_lt. intros H. apply Qle_bool_iff in H. congruence. }
      constructor; [now apply IH|].
      rewrite (insert_by_perm key x l). constructor; assumption.
Qed.

Lemma sorted_sorted {A} (key : A -> Q) (l : list A) :
  StronglySorted (fun a b => (key a <= key b)%Q) (sorted key l).
Proof.
  induction l as [|x l IH]; simpl; [constructor|]. now apply insert_by_sorted.
Qed.

(** ** The groups of the rule *)

Lemma spec_step_concat (groups : list (list dataset)) (d : dataset) :
  List.concat (spec_step groups d) = List.concat groups ++ [d].
Proof.
  unfold spec_step. destruct (opens_new_set groups d).
  - rewrite concat_app. reflexivity.
  - destruct (unsnoc groups) as [[front g]|] eqn:E.
    + rewrite (unsnoc_Some _ _ _ E), !concat_app. simpl.
      now rewrite ?app_nil_r, ?app_assoc.
    + now rewrite (unsnoc_None _ E).
Qed.

Lemma foldl_spec_step_concat (ds : list dataset) (groups : list (list dataset)) :
  List.concat (foldl spec_step groups ds) = List.concat groups ++ ds.
Proof.
  revert groups. induction ds as [|d ds IH]; intros groups; simpl.
  - now rewrite app_nil_r.
  - now rewrite IH, spec_step_concat, <- app_assoc.
Qed.

Lemma spec_groups_concat (ds : list dataset) : List.concat (spec_groups ds) = ds.
Proof. unfold spec_groups. now rewrite foldl_spec_step_concat. Qed.

Lemma heads_sorted {A} (R : A -> A -> Prop) (x0 : A) (gs : list (list A)) :
  Forall (fun g => g <> []) gs ->
  StronglySorted R (List.concat gs) ->
  StronglySorted R ((fun g => List.hd x0 g) <$> gs).
Proof.
  induction gs as [|g gs IH]; intros Hne Hs; simpl; [constructor|].
  inversion Hne as [|? ? Hg Hgs]; subst.
  destruct g as [|x g]; [congruence|]. simpl in *.
  inversion Hs as [|? ? Hs' Hx]; subst.
  apply StronglySorted_app_1_r in Hs'.
  constructor; [now apply IH|].
  rewrite Forall_app in Hx. destruct Hx as [_ Hx].
  rewrite Forall_forall in Hx. apply Forall_forall. intros y Hy.
  apply list_elem_of_fmap in Hy as (g' & -> & Hg').
  assert (Hg'ne : g' <> []).
  { rewrite Forall_forall in Hgs. now apply Hgs. }
  destruct g' as [|y g']; [congruence|]. simpl. apply Hx.
  apply list_elem_of_In, in_concat. exists (y :: g').
  split; [now apply list_elem_of_In | now left].
Qed.

Lemma py_int_mono (x y : Q) : (x <= y)%Q -> (py_int x <= py_int y)%Z.
Proof.
  destruct x as [a b], y as [c d]. unfold Qle, py_int. simpl. intros H.
  rewrite <- (Z.quot_mul_cancel_r a (Z.pos b) (Z.pos d)) by lia.
  rewrite <- (Z.quot_mul_cancel_r c (Z.pos d) (Z.pos b)) by lia.
  rewrite (Z.mul_comm (Z.pos d) (Z.pos b)).
  apply Z.quot_le_mono; lia.
Qed.

Lemma zip_fmap_same {A B C} (f : A -> B) (h : A -> C) (l : list A) :
  zip (f <$> l) (h <$> l) = (fun x => (f x, h x)) <$> l.
Proof.
  induction l as [|x l IH]; [reflexivity|].
  rewrite !fmap_cons. simpl. f_equal. exact IH.
Qed.

Lemma represents_members (l : LibrarySet) (g : list dataset) :
  represents l g -> members l = member_of <$> g.
Proof.
  intros H. unfold members.
  rewrite (rep_Fs _ _ H), (rep_Rs _ _ H), (rep_IS _ _ H).
  rewrite zip_fmap_same, zip_fmap_same. reflexivity.
Qed.

Lemma represents_concat (libs : list LibrarySet) (groups : list (list dataset)) :
  Forall2 represents libs groups ->
  List.concat (members <$> libs) = member_of <$> List.concat groups.
Proof.
  induction 1 as [|l g libs groups Hl _ IH]; [reflexivity|].
  rewrite fmap_cons. cbn [List.concat]. rewrite IH, fmap_app.
  now rewrite (represents_members l g).
Qed.

Lemma represents_first_means (libs : list LibrarySet) (groups : list (list dataset)) :
  Forall2 represents libs groups ->
  Forall (fun g => g <> []) groups ->
  (fun l => List.hd 0%Z (libIS l)) <$> libs =
  recorded_mean <$> ((fun g => List.hd (Dataset (rel []) (rel []) 0 0 0 []) g) <$> groups).
Proof.
  induction 1 as [|l g libs groups Hl _ IH]; intros Hne; [reflexivity|].
  inversion Hne as [|? ? Hg Hgs]; subst.
  rewrite !fmap_cons, (IH Hgs). f_equal.
  rewrite (rep_IS _ _ Hl). destruct g; [congruence | reflexivity].
Qed.

(** ** [get_libraries] as a whole *)

Lemma get_libraries_run (ext : Collaborators) (fastq : list path) (fasta : path)
    (mapq threads limit : Z) (verbose : bool) (w : world) (libdata : list dataset) :
  fastq2insert_size ext w fastq fasta mapq threads (floor_limit limit / 100) verbose
    = Ret libdata ->
  Forall (classifiable w) libdata ->
  exists libs w',
    get_libraries ext fastq fasta mapq threads limit verbose w = (Ret libs, w') /\
    Forall2 represents libs (spec_groups (sorted ismean libdata)) /\
    Forall (fun g => g <> []) (spec_groups (sorted ismean libdata)) /\
    fs w' = fs w /\ cwd w' = cwd w /\
    calls w' = calls w ++
      [CallInsertSize fastq fasta mapq threads (floor_limit limit / 100) verbose].
Proof.
  intros Hstats Hall.
  set (c := CallInsertSize fastq fasta mapq threads (floor_limit limit / 100) verbose).
  set (w1 := World (fs w) (cwd w) (stderr w) (calls w ++ [c])).
  assert (Hall1 : Forall (classifiable w1) (sorted ismean libdata)).
  { rewrite (sorted_perm ismean libdata).
    eapply Forall_impl; [exact Hall|]. intros d [H1 H2 H3 H4 H5].
    split; assumption. }
  destruct (loop_run (sorted ismean libdata) [] 1%nat [] w1 loop_inv_init Hall1)
    as (libs & i & w' & Hrun & (Hf & Hc & Hk) & (Hrep & Hne & _)).
  exists libs, w'. split; [|repeat split; assumption].
  unfold get_libraries.
  rewrite (bind_ret _ _ w w w) by reflexivity.
  rewrite (bind_ret _ _ w tt w1) by reflexivity.
  rewrite (bind_ret _ _ w1 libdata w1) by now rewrite lift_ret, Hstats.
  rewrite (bind_ret _ _ w1 _ w' Hrun). reflexivity.
Qed.

(** ** Failing measurements *)

Lemma get_orientation_zero (ps : list Z) (f1 f2 : path) (w : world) :
  List.length ps = 4%nat -> py_sum ps = 0%Z ->
  get_orientation ps f1 f2 w = (Raise ZeroDivisionError, w).
Proof.
  intros Hlen Hsum.
  assert (Hne : ps <> []) by (intros ->; discriminate).
  destruct (max_index_argmax ps Hne) as (i & m & Hmax & Hidx & Harg).
  assert (Hi : (i < 4)%nat).
  { destruct Harg as [Hl _]. apply lookup_lt_Some in Hl. lia. }
  destruct (orientations !! i) as [o|] eqn:Ho.
  2:{ apply lookup_ge_None in Ho. simpl in Ho. lia. }
  unfold get_orientation.
  rewrite (bind_ret _ _ w m w) by now rewrite lift_ret, Hmax.
  rewrite (bind_ret _ _ w i w) by now rewrite lift_ret, Hidx.
  rewrite (bind_ret _ _ w o w) by (rewrite lift_ret; unfold py_getitem; now rewrite Ho).
  apply bind_raise. rewrite lift_ret, Hsum. reflexivity.
Qed.

Lemma add_library_fail (cur : LibrarySet) (i : nat) (d : dataset) (w : world) :
  isfile w (fq1 d) = true -> isfile w (fq2 d) = true ->
  List.length (pairs d) = 4%nat ->
  py_sum (pairs d) = 0%Z \/ (ismean d == 0)%Q ->
  exists w', add_library cur i d w = (Raise ZeroDivisionError, w').
Proof.
  intros H1 H2 Hlen Hbad. unfold add_library.
  rewrite (bind_ret _ _ w (fq1 d) w) by (unfold open_r; now rewrite H1).
  rewrite (bind_ret _ _ w (fq2 d) w) by (unfold open_r; now rewrite H2).
  destruct (decide (py_sum (pairs d) = 0%Z)) as [Hz|Hnz].
  - exists w. apply bind_raise. now apply get_orientation_zero.
  - destruct Hbad as [Hz|Hmean]; [contradiction|].
    destruct (get_orientation_run (pairs d) (fq1 d) (fq2 d) w) as (k & m & o & _ & _ & Hrun);
      [lia | exact Hnz |].
    rewrite (bind_ret _ _ w _ _ Hrun). eexists. apply bind_raise.
    rewrite lift_ret. unfold float_div.
    apply Qeqb_eq in Hmean. now rewrite Hmean.
Qed.

Lemma loop_fail (ds : list dataset) :
  forall libraries i groups w,
    loop_inv libraries i groups ->
    Forall (fun d => isfile w (fq1 d) = true /\ isfile w (fq2 d) = true /\
                     List.length (pairs d) = 4%nat) ds ->
    Exists (fun d => py_sum (pairs d) = 0%Z \/ (ismean d == 0)%Q) ds ->
    exists w', for_each ds get_libraries_body (libraries, i) w
               = (Raise ZeroDivisionError, w').
Proof.
  induction ds as [|d ds IH]; intros libraries i groups w Hinv Hwf Hbad.
  - inversion Hbad.
  - inversion Hwf as [|? ? (H1 & H2 & Hlen) Hwf']; subst.
    destruct (decide (py_sum (pairs d) = 0%Z)) as [Hz|Hnz];
      [|destruct (Qeq_dec (ismean d) 0) as [Hm|Hm]].
    1,2: destruct (open_set_run libraries i groups d w Hinv)
           as (front & cur & gfront & g & Hopen & _);
         destruct (add_library_fail cur (S (List.length g)) d w H1 H2 Hlen) as [w' Hf];
           [tauto|];
         exists w'; simpl; apply bind_raise; unfold get_libraries_body;
         rewrite (bind_ret _ _ w _ w Hopen); now apply bind_raise.
    assert (Hcl : classifiable w d) by (split; try assumption; lia).
    destruct (body_run libraries i groups d w Hinv Hcl)
      as (l1 & i1 & w1 & Hrun1 & Hs1 & Hinv1).
    destruct (IH l1 i1 (spec_step groups d) w1 Hinv1) as [w' Hf].
    + eapply Forall_impl; [exact Hwf'|]. intros x (A & B & C).
      rewrite !(isfile_same w w1) by exact Hs1. tauto.
    + inversion Hbad as [? ? [Hz|Hz]|]; subst; [contradiction | contradiction | assumption].
    + exists w'. simpl. now rewrite (bind_ret _ _ w _ w1 Hrun1).
Qed.

Lemma represents_stdfracs (libs : list LibrarySet) (groups : list (list dataset)) :
  Forall2 represents libs groups ->
  List.concat (libISStDev <$> libs) = stdfrac_of <$> List.concat groups.
Proof.
  induction 1 as [|l g libs groups Hl _ IH]; [reflexivity|].
  rewrite fmap_cons. cbn [List.concat]. rewrite IH, fmap_app.
  now rewrite (rep_StDev _ _ Hl).
Qed.

Lemma stdfrac_of_le_1 (d : dataset) : (stdfrac_of d <= 1)%Q.
Proof.
  unfold stdfrac_of. destruct (Qltb 1 _) eqn:E.
  - apply Qle_refl.
  - now apply Qltb_ge.
Qed.

Lemma stdfrac_of_nonneg (d : dataset) :
  (0 <= isstd d / ismean d)%Q -> (0 <= stdfrac_of d)%Q.
Proof.
  intros H. unfold stdfrac_of. destruct (Qltb 1 _); [discriminate|].
  now apply round_double_nonneg.
Qed.

Lemma stdfrac_of_neg (d : dataset) : (ratio_of d < 0)%Q -> (stdfrac_of d < 0)%Q.
Proof.
  intros H. unfold stdfrac_of. destruct (Qltb 1 _) eqn:E; [|exact H].
  apply Qltb_lt in E. exfalso.
  apply (Qlt_irrefl 0), (Qlt_trans _ 1); [reflexivity|].
  now apply (Qlt_trans _ (ratio_of d)).
Qed.

Lemma represents_nonempty (libs : list LibrarySet) (groups : list (list dataset)) :
  Forall2 represents libs groups ->
  Forall (fun g => g <> []) groups ->
  Forall (fun l => members l <> []) libs.
Proof.
  induction 1 as [|l g ls gs Hl _ IH]; intros Hg; [constructor|].
  inversion Hg; subst. constructor; [|now apply IH].
  rewrite (represents_members _ _ Hl). destruct g; [congruence | discriminate].
Qed.

Lemma scenario_classifiable : Forall (classifiable Scenario.w0) Scenario.libdata.
Proof.
  repeat constructor; try (vm_compute; reflexivity); try (simpl; lia);
    try discriminate.
Qed.

(** ** The claims on classification *)

(** C3.  On a vector of four counts that sum to a positive number,
    [get_orientation] returns the orientation at the first position of the
    largest count (so ties go to the earlier of FF, FR, RF, RR), and it
    writes the poor-quality warning exactly when the largest count is less
    than 90% of the total.  Counts (5,95,0,0) give FR and no warning;
    counts (40,40,10,10) give FF and a warning. *)
Theorem orientation_selection :
  (forall (ps : list Z) (f1 f2 : path) (w : world),
     List.length ps = 4%nat -> (0 < py_sum ps)%Z ->
     exists i m o,
       first_argmax ps i m /\ orientations !! i = Some o /\
       get_orientation ps f1 f2 w =
         (Ret o,
          if bool_decide (100 * m < 90 * py_sum ps)%Z
          then World (fs w) (cwd w)
                 (stderr w ++
                    [PoorQuality o (100 * inject_Z m / inject_Z (py_sum ps)) f1 f2 ps])
                 (calls w)
          else w)) /\
  (forall f1 f2 w, get_orientation [5; 95; 0; 0]%Z f1 f2 w = (Ret "FR", w)) /\
  (forall f1 f2 w,
     get_orientation [40; 40; 10; 10]%Z f1 f2 w =
       (Ret "FF",
        World (fs w) (cwd w)
          (stderr w ++ [PoorQuality "FF" (100 * inject_Z 40 / inject_Z 100)
                                    f1 f2 [40; 40; 10; 10]%Z])
          (calls w))).
Proof.
  split; [|split].
  - intros ps f1 f2 w Hlen Hsum.
    destruct (get_orientation_run ps f1 f2 w) as (i & m & o & Harg & Ho & Hrun);
      [lia | lia |].
    exists i, m, o. split; [exact Harg|]. split; [exact Ho|].
    rewrite Hrun. now rewrite percent_lt_90.
  - intros f1 f2 w. reflexivity.
  - intros f1 f2 w. reflexivity.
Qed.

Lemma orientation_selection_witness :
  exists i m o,
    first_argmax [5; 95; 0; 0]%Z i m /\ orientations !! i = Some o /\
    get_orientation [5; 95; 0; 0]%Z (rel ["a_1.fq"]) (rel ["a_2.fq"]) Scenario.w0 =
      (Ret o,
       if bool_decide (100 * m < 90 * py_sum [5; 95; 0; 0])%Z
       then World (fs Scenario.w0) (cwd Scenario.w0)
              (stderr Scenario.w0 ++
                 [PoorQuality o (100 * inject_Z m / inject_Z (py_sum [5; 95; 0; 0]%Z))
                    (rel ["a_1.fq"]) (rel ["a_2.fq"]) [5; 95; 0; 0]%Z])
              (calls Scenario.w0)
       else Scenario.w0).
Proof.
  destruct orientation_selection as [H _].
  apply H; [reflexivity | reflexivity].
Defined.

(** C1.  The classifier consumes the measurements in ascending order of
    mean insert, and the sets it returns are the groups of the rule: a new
    set is started exactly when no set exists yet or the median insert of
    the current dataset exceeds 1.5 times the first recorded mean insert of
    the set opened last.  Means 300 and 305 and a third dataset with mean
    and median 1200 give the two sets {300, 305} and {1200}. *)
Theorem grouping_rule :
  (forall (ext : Collaborators) (fastq : list path) (fasta : path)
          (mapq threads limit : Z) (verbose : bool) (w : world)
          (libdata : list dataset),
     fastq2insert_size ext w fastq fasta mapq threads (floor_limit limit / 100) verbose
       = Ret libdata ->
     Forall (classifiable w) libdata ->
     exists libs w',
       get_libraries ext fastq fasta mapq threads limit verbose w = (Ret libs, w') /\
       Forall2 represents libs (spec_groups (sorted ismean libdata)) /\
       sorted ismean libdata ≡ₚ libdata /\
       StronglySorted (fun a b => (ismean a <= ismean b)%Q) (sorted ismean libdata)) /\
  (exists libs w',
     get_libraries Scenario.ext Scenario.fastq (rel ["asm.fa"]) 10 2 0 true Scenario.w0
       = (Ret libs, w') /\
     libIS <$> libs = [[300; 305]; [1200]]%Z).
Proof.
  split.
  - intros ext fastq fasta mapq threads limit verbose w libdata Hstats Hall.
    destruct (get_libraries_run ext fastq fasta mapq threads limit verbose w libdata
                Hstats Hall) as (libs & w' & Hrun & Hrep & _).
    exists libs, w'. split; [exact Hrun|]. split; [exact Hrep|].
    split; [apply sorted_perm | apply sorted_sorted].
  - eexists _, _. split; [apply run_eq; vm_compute; reflexivity|].
    vm_compute. reflexivity.
Qed.

Lemma grouping_rule_witness :
  exists libs w',
    get_libraries Scenario.ext Scenario.fastq (rel ["asm.fa"]) 10 2 0 true Scenario.w0
      = (Ret libs, w') /\
    Forall2 represents libs (spec_groups (sorted ismean Scenario.libdata)) /\
    sorted ismean Scenario.libdata ≡ₚ Scenario.libdata /\
    StronglySorted (fun a b => (ismean a <= ismean b)%Q) (sorted ismean Scenario.libdata).
Proof.
  destruct grouping_rule as [H _].
  apply H; [reflexivity | exact scenario_classifiable].
Defined.

(** C7, as the code has it.  Every variability fraction stored in a
    library set is the dataset's float quotient [stdDev / mean] clamped to
    at most 1, in the order the datasets are consumed; it is at most 1 for
    every ratio, ratios above 1 included.  There is no clamp from below: a
    negative quotient is stored as it is, and the stored fractions lie in
    [0, 1] when no dataset has a negative ratio. *)
Theorem stdfrac_clamped (ext : Collaborators) (fastq : list path) (fasta : path)
    (mapq threads limit : Z) (verbose : bool) (w : world) (libdata : list dataset) :
  fastq2insert_size ext w fastq fasta mapq threads (floor_limit limit / 100) verbose
    = Ret libdata ->
  Forall (classifiable w) libdata ->
  exists libs w',
    get_libraries ext fastq fasta mapq threads limit verbose w = (Ret libs, w') /\
    List.concat (libISStDev <$> libs) = stdfrac_of <$> sorted ismean libdata /\
    (forall d, (1 < ratio_of d)%Q -> stdfrac_of d = 1%Q) /\
    (forall d, (ratio_of d <= 1)%Q -> stdfrac_of d = ratio_of d) /\
    (forall d, (ratio_of d < 0)%Q -> (stdfrac_of d < 0)%Q) /\
    Forall (fun l => Forall (fun x => (x <= 1)%Q) (libISStDev l)) libs /\
    (Forall (fun d => (0 <= isstd d / ismean d)%Q) libdata ->
     Forall (fun l => Forall (fun x => (0 <= x)%Q /\ (x <= 1)%Q) (libISStDev l)) libs).
Proof.
  intros Hstats Hall.
  destruct (get_libraries_run ext fastq fasta mapq threads limit verbose w libdata
              Hstats Hall) as (libs & w' & Hrun & Hrep & _).
  exists libs, w'. split; [exact Hrun|].
  assert (Hcat : List.concat (libISStDev <$> libs) = stdfrac_of <$> sorted ismean libdata).
  { rewrite (represents_stdfracs _ _ Hrep). now rewrite spec_groups_concat. }
  assert (Hstored : forall l x, l ∈ libs -> x ∈ libISStDev l ->
            exists d, x = stdfrac_of d /\ d ∈ libdata).
  { intros l x Hl Hx.
    assert (Hin : x ∈ List.concat (libISStDev <$> libs)).
    { apply list_elem_of_In, in_concat. exists (libISStDev l).
      split; apply list_elem_of_In; [|exact Hx].
      apply list_elem_of_fmap. now exists l. }
    rewrite Hcat in Hin. apply list_elem_of_fmap in Hin as (d & -> & Hd).
    rewrite (sorted_perm ismean libdata) in Hd. now exists d. }
  split; [exact Hcat|]. split; [|split; [|split; [|split]]].
  - intros d Hd. unfold stdfrac_of. apply Qltb_lt in Hd. now rewrite Hd.
  - intros d Hd. unfold stdfrac_of. apply Qltb_ge in Hd. now rewrite Hd.
  - exact stdfrac_of_neg.
  - apply Forall_forall. intros l Hl. apply Forall_forall. intros x Hx.
    destruct (Hstored l x Hl Hx) as (d & -> & _). apply stdfrac_of_le_1.
  - intros Hsign. apply Forall_forall. intros l Hl. apply Forall_forall. intros x Hx.
    destruct (Hstored l x Hl Hx) as (d & -> & Hd).
    rewrite Forall_forall in Hsign.
    split; [apply stdfrac_of_nonneg, Hsign, Hd | apply stdfrac_of_le_1].
Qed.

Lemma stdfrac_clamped_witness :
  exists libs w',
    get_libraries Scenario.ext Scenario.fastq (rel ["asm.fa"]) 10 2 0 true Scenario.w0
      = (Ret libs, w') /\
    List.concat (libISStDev <$> libs) = stdfrac_of <$> sorted ismean Scenario.libdata /\
    libISStDev <$> libs = [[float_lit (1 # 10); float_lit (25 # 305)]; [1%Q]] /\
    Forall (fun l => Forall (fun x => (0 <= x)%Q /\ (x <= 1)%Q) (libISStDev l)) libs.
Proof.
  destruct (stdfrac_clamped Scenario.ext Scenario.fastq (rel ["asm.fa"]) 10 2 0 true
              Scenario.w0 Scenario.libdata eq_refl scenario_classifiable)
    as (libs & w' & Hrun & Hcat & _ & _ & _ & _ & Hpos).
  exists libs, w'. split; [exact Hrun|]. split; [exact Hcat|]. split.
  - assert (Hrun' : get_libraries Scenario.ext Scenario.fastq (rel ["asm.fa"]) 10 2 0
                      true Scenario.w0 = (Ret libs, w')) by exact Hrun.
    vm_compute in Hrun'. injection Hrun' as <- _. vm_compute. reflexivity.
  - apply Hpos. repeat constructor; unfold Qle; simpl; lia.
Defined.

(** C7, as stated, fails: for a mean insert below zero the stored fraction
    is the negative quotient itself, outside [0, 1]. *)
Lemma stdfrac_clamped_counterexample :
  exists libs w',
    get_libraries Cases.ext_negative Scenario.fastq (rel ["asm.fa"]) 10 2 0 true
                  Scenario.w0 = (Ret libs, w') /\
    libISStDev <$> libs = [[(-2)%Q]] /\
    ~ (0 <= -2)%Q.
Proof.
  eexists _, _. split; [apply run_eq; vm_compute; reflexivity|].
  split; [vm_compute; reflexivity | unfold Qle; simpl; lia].
Qed.

(** C8.  For a non-empty list of measurements the classifier returns a
    partition of it: the members of the returned sets, taken together, are
    the input datasets, each exactly once (so distinct inputs land in
    disjoint sets), no set is empty, and the sets are in ascending order of
    the recorded mean insert of their first member. *)
Theorem classification_partition (ext : Collaborators) (fastq : list path)
    (fasta : path) (mapq threads limit : Z) (verbose : bool) (w : world)
    (libdata : list dataset) :
  fastq2insert_size ext w fastq fasta mapq threads (floor_limit limit / 100) verbose
    = Ret libdata ->
  Forall (classifiable w) libdata ->
  libdata <> [] ->
  exists libs w',
    get_libraries ext fastq fasta mapq threads limit verbose w = (Ret libs, w') /\
    List.concat (members <$> libs) ≡ₚ member_of <$> libdata /\
    (NoDup (member_of <$> libdata) -> NoDup (List.concat (members <$> libs))) /\
    libs <> [] /\
    Forall (fun l => members l <> []) libs /\
    StronglySorted Z.le ((fun l => List.hd 0%Z (libIS l)) <$> libs).
Proof.
  intros Hstats Hall Hne.
  destruct (get_libraries_run ext fastq fasta mapq threads limit verbose w libdata
              Hstats Hall) as (libs & w' & Hrun & Hrep & Hgne & _).
  exists libs, w'. split; [exact Hrun|].
  assert (Hperm : List.concat (members <$> libs) ≡ₚ member_of <$> libdata).
  { rewrite (represents_concat _ _ Hrep), spec_groups_concat.
    now rewrite (sorted_perm ismean libdata). }
  split; [exact Hperm|]. split; [|split; [|split]].
  - intros Hnd. now rewrite Hperm.
  - intros ->. apply Forall2_nil_inv_l in Hrep.
    assert (Hs : sorted ismean libdata = []).
    { rewrite <- (spec_groups_concat (sorted ismean libdata)). now rewrite Hrep. }
    apply Hne. apply Permutation_nil_r. rewrite <- Hs. symmetry. apply sorted_perm.
  - exact (represents_nonempty _ _ Hrep Hgne).
  - rewrite (represents_first_means _ _ Hrep Hgne).
    apply (StronglySorted_fmap recorded_mean (fun a b => (ismean a <= ismean b)%Q)).
    + intros a b Hab. now apply py_int_mono.
    + apply heads_sorted; [exact Hgne|].
      rewrite spec_groups_concat. apply sorted_sorted.
Qed.

Lemma classification_partition_witness :
  exists libs w',
    get_libraries Scenario.ext Scenario.fastq (rel ["asm.fa"]) 10 2 0 true Scenario.w0
      = (Ret libs, w') /\
    List.concat (members <$> libs) ≡ₚ member_of <$> Scenario.libdata /\
    (NoDup (member_of <$> Scenario.libdata) -> NoDup (List.concat (members <$> libs))) /\
    libs <> [] /\
    Forall (fun l => members l <> []) libs /\
    StronglySorted Z.le ((fun l => List.hd 0%Z (libIS l)) <$> libs).
Proof.
  apply (classification_partition Scenario.ext Scenario.fastq (rel ["asm.fa"]) 10 2 0
           true Scenario.w0 Scenario.libdata).
  - reflexivity.
  - exact scenario_classifiable.
  - discriminate.
Defined.

(** ** Relations kept by every outcome *)

Section Keeps.

Context (P : world -> world -> Prop) `{!PreOrder P}.

Lemma keeps_ret {A} (a : A) : keeps P (ret a).
Proof. intros w. reflexivity. Qed.

Lemma keeps_raise {A} (e : exn) : keeps P (@raise A e).
Proof. intros w. reflexivity. Qed.

Lemma keeps_lift {A} (o : outcome A) : keeps P (lift o).
Proof. intros w. reflexivity. Qed.

Lemma keeps_get_world : keeps P get_world.
Proof. intros w. reflexivity. Qed.

Lemma keeps_bind {A B} (m : M A) (k : A -> M B) :
  keeps P m -> (forall a, keeps P (k a)) -> keeps P (bind m k).
Proof.
  intros Hm Hk w. unfold bind. specialize (Hm w).
  destruct (m w) as [[a|e] w1]; simpl in *; [|exact Hm].
  etransitivity; [exact Hm | apply Hk].
Qed.

Lemma keeps_for_each {A S} (l : list A) (body : S -> A -> M S) (st : S) :
  (forall st x, keeps P (body st x)) -> keeps P (for_each l body st).
Proof.
  intros Hb. revert st. induction l as [|x l IH]; intros st; simpl.
  - apply keeps_ret.
  - apply keeps_bind; [apply Hb | exact IH].
Qed.

Lemma keeps_open_r (p : path) : keeps P (open_r p).
Proof. intros w. unfold open_r. destruct (isfile w p); reflexivity. Qed.

Lemma keeps_read (p : path) : keeps P (read p).
Proof. intros w. unfold read. destruct (content_of w p); reflexivity. Qed.

End Keeps.

Ltac keeps_step :=
  lazymatch goal with
  | |- keeps ?P (bind _ _) => apply (keeps_bind P); [|intros]
  | |- keeps ?P (ret _) => apply (keeps_ret P)
  | |- keeps ?P (raise _) => apply (keeps_raise P)
  | |- keeps ?P (lift _) => apply (keeps_lift P)
  | |- keeps ?P get_world => apply (keeps_get_world P)
  | |- keeps ?P (open_r _) => apply (keeps_open_r P)
  | |- keeps ?P (read _) => apply (keeps_read P)
  | |- keeps ?P (for_each _ _ _) => apply (keeps_for_each P); intros
  | |- keeps _ (if ?b then _ else _) => destruct b
  | |- keeps _ (match ?x with _ => _ end) => destruct x
  end.

Create HintDb keeps.

Ltac keeps_auto := repeat (first [keeps_step | solve [eauto with keeps]]).

#[global] Instance quiet_preorder : PreOrder same_but_stderr.
Proof.
  split.
  - intros w. now repeat split.
  - intros w1 w2 w3 (?&?&?) (?&?&?). repeat split; congruence.
Qed.

Lemma quiet_write_stderr (d : diag) : keeps same_but_stderr (write_stderr d).
Proof. intros w. now repeat split. Qed.
#[global] Hint Resolve quiet_write_stderr : keeps.

Lemma quiet_get_orientation (ps : list Z) (f1 f2 : path) :
  keeps same_but_stderr (get_orientation ps f1 f2).
Proof. unfold get_orientation. keeps_auto. Qed.
#[global] Hint Resolve quiet_get_orientation : keeps.

Lemma quiet_body (st : list LibrarySet * nat) (d : dataset) :
  keeps same_but_stderr (get_libraries_body st d).
Proof.
  destruct st as [libraries i].
  unfold get_libraries_body, open_set, add_library. keeps_auto.
Qed.

(** Whatever its outcome, [get_libraries] invokes the statistics
    collaborator exactly once, with one hundredth of the floored limit. *)
Lemma get_libraries_calls (ext : Collaborators) (fastq : list path) (fasta : path)
    (mapq threads limit : Z) (verbose : bool) (w : world) :
  let w' := (get_libraries ext fastq fasta mapq threads limit verbose w).2 in
  fs w' = fs w /\
  calls w' = calls w ++
    [CallInsertSize fastq fasta mapq threads (floor_limit limit / 100) verbose].
Proof.
  set (c := CallInsertSize fastq fasta mapq threads (floor_limit limit / 100) verbose).
  set (w1 := World (fs w) (cwd w) (stderr w) (calls w ++ [c])).
  assert (Hk : keeps same_but_stderr
            (let* libdata := lift (fastq2insert_size ext w fastq fasta mapq threads
                                     (floor_limit limit / 100) verbose) in
             let* st := for_each (sorted ismean libdata) get_libraries_body ([], 1%nat) in
             ret (fst st))).
  { keeps_auto. apply quiet_body. }
  destruct (Hk w1) as (Hf & _ & Hc).
  unfold get_libraries.
  rewrite (bind_ret _ _ w w w) by reflexivity.
  rewrite (bind_ret _ _ w tt w1) by reflexivity.
  simpl. split; [exact Hf | exact Hc].
Qed.

Lemma py_sum_nonneg (ps : list Z) : Forall (fun c => (0 <= c)%Z) ps -> (0 <= py_sum ps)%Z.
Proof. induction 1; simpl; lia. Qed.

Lemma get_libraries_fail (ext : Collaborators) (fastq : list path) (fasta : path)
    (mapq threads limit : Z) (verbose : bool) (w : world) (libdata : list dataset) :
  fastq2insert_size ext w fastq fasta mapq threads (floor_limit limit / 100) verbose
    = Ret libdata ->
  Forall (fun d => isfile w (fq1 d) = true /\ isfile w (fq2 d) = true /\
                   List.length (pairs d) = 4%nat) libdata ->
  Exists (fun d => py_sum (pairs d) = 0%Z \/ (ismean d == 0)%Q) libdata ->
  exists w',
    get_libraries ext fastq fasta mapq threads limit verbose w
      = (Raise ZeroDivisionError, w').
Proof.
  intros Hstats Hwf Hbad.
  set (c := CallInsertSize fastq fasta mapq threads (floor_limit limit / 100) verbose).
  set (w1 := World (fs w) (cwd w) (stderr w) (calls w ++ [c])).
  destruct (loop_fail (sorted ismean libdata) [] 1%nat [] w1 loop_inv_init) as [w' Hf].
  - rewrite (sorted_perm ismean libdata). exact Hwf.
  - rewrite (sorted_perm ismean libdata). exact Hbad.
  - exists w'. unfold get_libraries.
    rewrite (bind_ret _ _ w w w) by reflexivity.
    rewrite (bind_ret _ _ w tt w1) by reflexivity.
    rewrite (bind_ret _ _ w1 libdata w1) by now rewrite lift_ret, Hstats.
    now apply bind_raise.
Qed.

Lemma measurable_dec (d : dataset) :
  {(0 < py_sum (pairs d))%Z /\ ~ (ismean d == 0)%Q} +
  {~ ((0 < py_sum (pairs d))%Z /\ ~ (ismean d == 0)%Q)}.
Proof.
  destruct (Z_lt_dec 0 (py_sum (pairs d))), (Qeq_dec (ismean d) 0);
    [right | left | right | right]; tauto.
Qed.

(** C10.  Classification is total only under two preconditions.  For
    measurements whose read files can be opened and that carry four
    non-negative counts, [get_libraries] returns if and only if the counts
    of every dataset sum to a positive number and every mean insert is
    non-zero; a dataset with all-zero counts or a zero mean insert is not
    skipped: the call ends in [ZeroDivisionError]. *)
Theorem classification_preconditions (ext : Collaborators) (fastq : list path)
    (fasta : path) (mapq threads limit : Z) (verbose : bool) (w : world)
    (libdata : list dataset) :
  fastq2insert_size ext w fastq fasta mapq threads (floor_limit limit / 100) verbose
    = Ret libdata ->
  Forall (fun d => isfile w (fq1 d) = true /\ isfile w (fq2 d) = true /\
                   List.length (pairs d) = 4%nat /\
                   Forall (fun c => (0 <= c)%Z) (pairs d)) libdata ->
  ((exists libs w',
      get_libraries ext fastq fasta mapq threads limit verbose w = (Ret libs, w')) <->
   Forall (fun d => (0 < py_sum (pairs d))%Z /\ ~ (ismean d == 0)%Q) libdata) /\
  (Exists (fun d => py_sum (pairs d) = 0%Z \/ (ismean d == 0)%Q) libdata ->
   exists w',
     get_libraries ext fastq fasta mapq threads limit verbose w
       = (Raise ZeroDivisionError, w')).
Proof.
  intros Hstats Hwf.
  assert (Hwf' : Forall (fun d => isfile w (fq1 d) = true /\ isfile w (fq2 d) = true /\
                                  List.length (pairs d) = 4%nat) libdata).
  { eapply Forall_impl; [exact Hwf|]. intros d (A & B & C & _). tauto. }
  assert (Hfail : Exists (fun d => py_sum (pairs d) = 0%Z \/ (ismean d == 0)%Q) libdata ->
                  exists w', get_libraries ext fastq fasta mapq threads limit verbose w
                             = (Raise ZeroDivisionError, w')).
  { intros Hbad. now apply (get_libraries_fail ext fastq fasta mapq threads limit verbose
                              w libdata). }
  split; [split|exact Hfail].
  - intros (libs & w' & Hrun).
    destruct (Forall_Exists_dec _ _ measurable_dec libdata) as [Hok|Hbad]; [exact Hok|].
    exfalso. destruct Hfail as [w'' Hf]; [|congruence].
    apply Exists_exists in Hbad as (d & Hd & Hnot).
    apply Exists_exists. exists d. split; [exact Hd|].
    rewrite Forall_forall in Hwf. destruct (Hwf d Hd) as (_ & _ & _ & Hnn).
    apply py_sum_nonneg in Hnn.
    destruct (Qeq_dec (ismean d) 0) as [Hm|Hm]; [now right|].
    left. destruct (Z_lt_dec 0 (py_sum (pairs d))) as [Hs|Hs]; [tauto | lia].
  - intros Hok.
    destruct (get_libraries_run ext fastq fasta mapq threads limit verbose w libdata Hstats)
      as (libs & w' & Hrun & _).
    + apply Forall_forall. intros d Hd.
      rewrite Forall_forall in Hwf, Hok.
      destruct (Hwf d Hd) as (A & B & C & _). destruct (Hok d Hd) as [D E].
      split; try assumption; lia.
    + now exists libs, w'.
Qed.

Lemma classification_preconditions_witness :
  ((exists libs w',
      get_libraries Scenario.ext_zero Scenario.fastq (rel ["asm.fa"]) 10 2 0 true
        Scenario.w0 = (Ret libs, w')) <->
   Forall (fun d => (0 < py_sum (pairs d))%Z /\ ~ (ismean d == 0)%Q)
          [Scenario.d300; Scenario.dzero]) /\
  (Exists (fun d => py_sum (pairs d) = 0%Z \/ (ismean d == 0)%Q)
          [Scenario.d300; Scenario.dzero] ->
   exists w',
     get_libraries Scenario.ext_zero Scenario.fastq (rel ["asm.fa"]) 10 2 0 true
       Scenario.w0 = (Raise ZeroDivisionError, w')).
Proof.
  apply (classification_preconditions Scenario.ext_zero Scenario.fastq (rel ["asm.fa"])
           10 2 0 true Scenario.w0 [Scenario.d300; Scenario.dzero]).
  - reflexivity.
  - repeat constructor; try (vm_compute; reflexivity); simpl; lia.
Defined.

(** ** The pair-sample cap *)

Lemma floor_limit_max (limit : Z) : floor_limit limit = Z.max limit 1000000.
Proof.
  unfold floor_limit.
  destruct (limit =? 0)%Z eqn:E0; destruct (limit <? 1000000)%Z eqn:E1; simpl; lia.
Qed.

Lemma bind_ret_world {A B} (m : M A) (f : A -> B) (w : world) :
  (bind m (fun a => ret (f a)) w).2 = (m w).2.
Proof. unfold bind. destruct (m w) as [[a|e] w']; reflexivity. Qed.

Lemma content_isfile (w : world) (p : path) (text : string) :
  content_of w p = Some text -> isfile w p = true.
Proof.
  unfold content_of, isfile. destruct (stat w p) as [[c|t|]|]; now intros.
Qed.

(** C4, as the code has it.  [get_read_limit] hands the statistics
    collaborator one hundredth of the pair limit, after raising the limit
    to at least 10^6: with no read fraction configured the cap is the
    fixed value 10^4; with a read fraction it is
    [max(int(readLimit * assemblySize), 10^6) / 100], so the fraction of
    the assembly size decides only once it reaches 10^6 pairs.  The
    product is the float product: the assembly size is converted to a
    double, which is exact below 2^53 bases, and the product is rounded
    to a double and then truncated.  The read fraction is the double that
    the command line yields. *)
Theorem sample_cap (ext : Collaborators) (fastq : list path) (fasta : path)
    (mapq threads : Z) (readLimit : Q) (verbose : bool) (w : world) :
  ((readLimit == 0)%Q ->
   calls (get_read_limit ext fastq fasta mapq threads readLimit verbose w).2 =
     calls w ++ [CallInsertSize fastq fasta mapq threads 10000 verbose]) /\
  (~ (readLimit == 0)%Q -> is_double readLimit = true ->
   forall text stats field size,
     content_of w fasta = Some text ->
     fasta_stats ext text = Ret stats ->
     split_on tab stats !! 2%nat = Some field ->
     int_of_str field = Ret size ->
     let product := round_double (readLimit * round_double (inject_Z size)) in
     infinite (round_double (inject_Z size)) = false ->
     infinite product = false ->
     calls (get_read_limit ext fastq fasta mapq threads readLimit verbose w).2 =
       calls w ++
       [CallFastaStats fasta;
        CallInsertSize fastq fasta mapq threads
          (Z.max (py_int product) 1000000 / 100) verbose]) /\
  (forall size,
     (Z.abs size < 2 ^ 53)%Z ->
     round_double (inject_Z size) = inject_Z size /\
     infinite (round_double (inject_Z size)) = false).
Proof.
  split; [|split].
  3:{ intros size Hs. rewrite (round_double_int size Hs).
      split; [reflexivity | now apply finite_int]. }
  - intros Hz. apply Qeqb_eq in Hz. unfold get_read_limit. rewrite Hz. simpl.
    rewrite (bind_ret _ _ w 0%Z w) by reflexivity.
    rewrite (bind_ret_world _ (fun libraries => (0%Z, libraries))).
    destruct (get_libraries_calls ext fastq fasta mapq threads 0 verbose w) as [_ Hc].
    exact Hc.
  - intros Hnz _ text stats field size Htext Hstats Hfield Hsize product Hfin Hprod.
    assert (Hb : Qeqb readLimit 0 = false).
    { destruct (Qeqb readLimit 0) eqn:E; [|reflexivity].
      apply Qeqb_eq in E. contradiction. }
    unfold get_read_limit. rewrite Hb. simpl.
    set (limit := py_int product).
    set (w1 := World (fs w) (cwd w) (stderr w) (calls w ++ [CallFastaStats fasta])).
    set (w2 := if verbose
               then World (fs w1) (cwd w1) (stderr w1 ++ [AligningMates limit]) (calls w1)
               else w1).
    rewrite (bind_ret _ _ w limit w2).
    + rewrite (bind_ret_world _ (fun libraries => (limit, libraries))).
      destruct (get_libraries_calls ext fastq fasta mapq threads limit verbose w2)
        as [_ Hc].
      rewrite Hc, floor_limit_max. unfold w2, w1.
      destruct verbose; simpl; now rewrite <- app_assoc.
    + rewrite (bind_ret _ _ w fasta w)
        by (unfold open_r; now rewrite (content_isfile w fasta text)).
      rewrite (bind_ret _ _ w text w) by (unfold read; now rewrite Htext).
      rewrite (bind_ret _ _ w tt w1) by reflexivity.
      rewrite (bind_ret _ _ w1 stats w1) by now rewrite lift_ret, Hstats.
      rewrite (bind_ret _ _ w1 field w1)
        by (rewrite lift_ret; unfold py_getitem; now rewrite Hfield).
      rewrite (bind_ret _ _ w1 size w1) by now rewrite lift_ret, Hsize.
      rewrite (bind_ret _ _ w1 (round_double (inject_Z size)) w1)
        by (rewrite lift_ret; unfold float_of_int; now rewrite Hfin).
      rewrite (bind_ret _ _ w1 limit w1)
        by (rewrite lift_ret; unfold float_mul; fold product; now rewrite Hprod).
      unfold w2. destruct verbose; reflexivity.
Qed.

Lemma sample_cap_witness :
  calls (get_read_limit Scenario.ext Scenario.fastq (rel ["asm.fa"]) 10 2
           (float_lit (2 # 10)) true Scenario.w0).2 =
    calls Scenario.w0 ++
    [CallFastaStats (rel ["asm.fa"]);
     CallInsertSize Scenario.fastq (rel ["asm.fa"]) 10 2 40000 true] /\
  calls (get_read_limit Scenario.ext Scenario.fastq (rel ["asm.fa"]) 10 2
           (float_lit (57 # 100)) true Scenario.w0).2 =
    calls Scenario.w0 ++
    [CallFastaStats (rel ["asm.fa"]);
     CallInsertSize Scenario.fastq (rel ["asm.fa"]) 10 2 113999 true].
Proof.
  split.
  - destruct (sample_cap Scenario.ext Scenario.fastq (rel ["asm.fa"]) 10 2
                (float_lit (2 # 10)) true Scenario.w0) as [_ [H _]].
    apply (H ltac:(discriminate) ltac:(vm_compute; reflexivity) "ACGT"
             (Scenario.tabbed ["asm"; "12"; "20000000"; "41.0"]) "20000000" 20000000%Z);
      vm_compute; reflexivity.
  - destruct (sample_cap Scenario.ext Scenario.fastq (rel ["asm.fa"]) 10 2
                (float_lit (57 # 100)) true Scenario.w0) as [_ [H _]].
    apply (H ltac:(discriminate) ltac:(vm_compute; reflexivity) "ACGT"
             (Scenario.tabbed ["asm"; "12"; "20000000"; "41.0"]) "20000000" 20000000%Z);
      vm_compute; reflexivity.
Defined.

(** C4, as stated, fails: with no read fraction configured the cap that
    reaches the statistics collaborator is 10^4, below 10^6. *)
Lemma sample_cap_counterexample :
  exists cap,
    calls (get_read_limit Scenario.ext Scenario.fastq (rel ["asm.fa"]) 10 2 0 true
             Scenario.w0).2 =
      [CallInsertSize Scenario.fastq (rel ["asm.fa"]) 10 2 cap true] /\
    (cap < 1000000)%Z.
Proof. exists 10000%Z. split; [vm_compute; reflexivity | lia]. Qed.

(** ** Files and links *)

Lemma follow_not_link (n : nat) (f : gmap (list string) node) (p q : list string) :
  follow n f p = Some q -> forall t, f !! q <> Some (Link t).
Proof.
  revert p. induction n as [|n IH]; intros p; simpl; [discriminate|].
  destruct (f !! p) as [[c|t'|]|] eqn:E; try (intros [= <-] t; congruence).
  intros H. exact (IH _ H).
Qed.

Lemma follow_insert (n : nat) (f : gmap (list string) node) (p q : list string)
    (x : node) :
  follow n f p = Some q -> (forall t, x <> Link t) ->
  follow n (<[q := x]> f) p = Some q.
Proof.
  intros H Hx. pose proof (follow_not_link n f p q H) as Hq.
  revert p H. induction n as [|n IH]; intros p H; simpl in *; [discriminate|].
  destruct (decide (q = p)) as [->|Hne].
  - rewrite lookup_insert_eq. destruct x; try reflexivity.
    exfalso. now eapply Hx.
  - rewrite lookup_insert_ne by exact Hne.
    destruct (f !! p) as [[c|t'|]|] eqn:E; try exact H.
    apply IH, H.
Qed.

Lemma write_file_content (p : path) (text : string) (w w' : world) :
  write_file p text w = (Ret tt, w') -> content_of w' p = Some text.
Proof.
  unfold write_file.
  destruct (follow MAXSYMLINKS (fs w) (to_abs (cwd w) p)) as [q|] eqn:Hq;
    [|discriminate].
  assert (Hgo : content_of (World (<[q := File text]> (fs w)) (cwd w) (stderr w) (calls w)) p
                = Some text).
  { unfold content_of, stat. cbn [fs cwd].
    rewrite (follow_insert _ _ _ _ (File text) Hq) by discriminate.
    now rewrite lookup_insert_eq. }
  destruct (fs w !! q) as [[c|t|]|]; try discriminate;
    [|destruct (fs w !! removelast q) as [[c|t|]|]; try discriminate];
    (destruct (decide (q = [])); [discriminate|]);
    intros [= <-]; exact Hgo.
Qed.

(** ** The gap-closing config builder *)

Ltac bind_inv H :=
  let a := fresh "a" in
  let w1 := fresh "w" in
  let H1 := fresh "H" in
  apply bind_ret_inv in H as (a & w1 & H1 & H).

Lemma filter_reads_ret (ext : Collaborators) (i : nat) (outdir f1 f2 : path)
    (minlen maxlen limit minqual : Z) (w w' : world) (r : path * path) :
  filter_reads ext i outdir f1 f2 minlen maxlen limit minqual w = (Ret r, w') ->
  r = (filtered_name outdir i f1, filtered_name outdir i f2).
Proof.
  unfold filter_reads. intros H.
  do 5 bind_inv H. destruct a3 as [out1 out2].
  do 2 bind_inv H. now inversion H.
Qed.

Section ConfigBuilder.

Context (ext : Collaborators) (outdir : path) (mapq minlen maxlen limit : Z)
        (verbose : bool).

Let body := prepare_gapcloser_body ext outdir mapq minlen maxlen limit verbose.

Lemma config_body_ret (config config' : list string)
    (x : nat * (path * path * string * Z * Q)) (w w' : world) :
  body config x w = (Ret config', w') ->
  config' = config ++ option_list (config_block_of outdir x).
Proof.
  destruct x as [i [[[[f1 f2] o] iSize] iFrac]].
  unfold body, prepare_gapcloser_body, config_block_of, eligible, reverse_seq_of.
  destruct (String.eqb o "FR" || String.eqb o "RF").
  - intros H. bind_inv H. destruct a as [fn1 fn2].
    apply filter_reads_ret in H0. inversion H0; subst. now inversion H.
  - intros H. bind_inv H. inversion H. simpl. now rewrite app_nil_r.
Qed.

Lemma config_loop_ret (xs : list (nat * (path * path * string * Z * Q))) :
  forall config config' w w',
    for_each xs body config w = (Ret config', w') ->
    config' = config ++ omap (config_block_of outdir) xs.
Proof.
  induction xs as [|x xs IH]; intros config config' w w' H; simpl in H.
  - inversion H. now rewrite app_nil_r.
  - bind_inv H. apply config_body_ret in H0. apply IH in H. subst.
    rewrite <- app_assoc. f_equal.
    simpl. destruct (config_block_of outdir x); reflexivity.
Qed.

Lemma config_loop_skip (xs : list (nat * (path * path * string * Z * Q))) :
  forall config w,
    Forall (fun x => eligible (orient_of x.2) = false) xs ->
    for_each xs body config w =
      (Ret config,
       World (fs w) (cwd w)
             (stderr w ++ (if verbose then omap skip_message_of xs else []))
             (calls w)).
Proof.
  induction xs as [|x xs IH]; intros config w Hall; simpl.
  - destruct w, verbose; simpl; now rewrite ?app_nil_r.
  - inversion Hall as [|? ? Hx Hxs]; subst.
    destruct x as [i [[[[f1 f2] o] iSize] iFrac]].
    unfold orient_of in Hx. simpl in Hx.
    unfold body at 1, prepare_gapcloser_body, skip_message_of.
    unfold eligible in Hx |- *. rewrite Hx.
    destruct verbose.
    + rewrite (bind_ret _ _ w config
                 (World (fs w) (cwd w)
                        (stderr w ++ [SkippingUnsupported o f1 f2]) (calls w)))
        by reflexivity.
      fold body. rewrite (IH _ _ Hxs). simpl. now rewrite <- app_assoc.
    + rewrite (bind_ret _ _ w config w) by reflexivity.
      fold body. rewrite (IH _ _ Hxs). reflexivity.
Qed.

Lemma blocks_nonempty (xs : list (nat * (path * path * string * Z * Q))) :
  omap (config_block_of outdir) xs <> [] <->
  Exists (fun x => eligible (orient_of x.2) = true) xs.
Proof.
  induction xs as [|x xs IH]; simpl.
  - split; [congruence | intros H; inversion H].
  - destruct x as [i [[[[f1 f2] o] iSize] iFrac]].
    unfold config_block_of at 1. destruct (eligible o) eqn:E.
    + split; [|discriminate]. intros _. now left.
    + rewrite IH. split; [now right|].
      intros H. inversion H as [? ? Hx|]; subst; [|assumption].
      simpl in Hx. unfold orient_of in Hx. simpl in Hx. congruence.
Qed.

End ConfigBuilder.

(** C5, as the code has it.  [prepare_gapcloser] returns [True] only when
    at least one library has orientation FR or RF, and whenever it returns
    with such a library present it has written the config: the
    [max_rd_len] line and one block per eligible library, FR with
    [reverse_seq=0] and RF with [reverse_seq=1].  A library with any other
    orientation is skipped and never causes an error; its diagnostic is
    written only when [verbose] is set.  With no eligible library the
    function returns [None], writes no file and raises nothing.  One FR and
    one RR library give a config holding only the FR block, and with
    [verbose] set the RR library is reported. *)
Theorem config_builder :
  (forall (ext : Collaborators) (outdir : path) (mapq : Z) (configFn : path)
          (libFs libRs : list path) (orientations : list string) (libIS : list Z)
          (libISStDev : list Q) (minlen maxlen limit : Z) (verbose : bool) (w : world),
     let xs := enumerate1 (zip5 libFs libRs orientations libIS libISStDev) in
     (Forall (fun x => eligible (orient_of x.2) = false) xs ->
      prepare_gapcloser ext outdir mapq configFn libFs libRs orientations libIS
                        libISStDev minlen maxlen limit verbose w =
        (Ret None,
         World (fs w) (cwd w)
               (stderr w ++ (if verbose then omap skip_message_of xs else []))
               (calls w))) /\
     (forall r w',
        prepare_gapcloser ext outdir mapq configFn libFs libRs orientations libIS
                          libISStDev minlen maxlen limit verbose w = (Ret r, w') ->
        (r = Some true <-> Exists (fun x => eligible (orient_of x.2) = true) xs) /\
        (r <> Some true -> r = None) /\
        (r = Some true ->
         content_of w' configFn =
           Some (String.concat nl
                   (("max_rd_len=" +:+ str_of_Z maxlen)
                      :: omap (config_block_of outdir) xs))))) /\
  (exists w',
     prepare_gapcloser Scenario.ext (rel ["out"]) 10 (rel ["out"; "_gapcloser.1.conf"])
       [rel ["a_1.fq"]; rel ["b_1.fq"]] [rel ["a_2.fq"]; rel ["b_2.fq"]]
       ["FR"; "RR"] [300; 305]%Z [1 # 10; 1 # 10] 40 150 0 true Scenario.w_out
       = (Ret (Some true), w') /\
     content_of w' (rel ["out"; "_gapcloser.1.conf"]) =
       Some (String.concat nl
               ["max_rd_len=150";
                lib_block 300 0 1 (rel ["out"; "_gapcloser.1.a_1.fq.fq"])
                                  (rel ["out"; "_gapcloser.1.a_2.fq.fq"])]) /\
     stderr w' = [SkippingUnsupported "RR" (rel ["b_1.fq"]) (rel ["b_2.fq"])]).
Proof.
  split.
  - intros ext outdir mapq configFn libFs libRs orientations libIS libISStDev
           minlen maxlen limit verbose w xs.
    split.
    + intros Hall. unfold prepare_gapcloser. fold xs.
      rewrite (bind_ret _ _ w _ _
                 (config_loop_skip ext outdir mapq minlen maxlen limit verbose xs
                    ["max_rd_len=" +:+ str_of_Z maxlen] w Hall)).
      reflexivity.
    + intros r w' H. unfold prepare_gapcloser in H. fold xs in H.
      bind_inv H.
      apply config_loop_ret in H0. subst a.
      pose proof (blocks_nonempty outdir xs) as Hne.
      destruct (omap (config_block_of outdir) xs) as [|b bs] eqn:E.
      * simpl in H. inversion H; subst.
        split; [|split]; [|reflexivity|discriminate].
        split; [discriminate|]. intros Hex. apply Hne in Hex. congruence.
      * assert (Hlen : (1 <? List.length
                           (["max_rd_len=" +:+ str_of_Z maxlen] ++ b :: bs))%nat = true)
          by (apply Nat.ltb_lt; rewrite length_app; simpl; lia).
        rewrite Hlen in H. bind_inv H. inversion H; subst.
        destruct a. apply write_file_content in H0.
        split; [|split].
        -- split; [|reflexivity]. intros _. apply Hne. discriminate.
        -- congruence.
        -- intros _. exact H0.
  - eexists. split; [apply run_eq; vm_compute; reflexivity|].
    split; vm_compute; reflexivity.
Qed.

Lemma config_builder_witness :
  let xs := enumerate1 (zip5 [rel ["a_1.fq"]; rel ["b_1.fq"]]
                             [rel ["a_2.fq"]; rel ["b_2.fq"]]
                             ["FR"; "RR"] [300; 305]%Z [1 # 10; 1 # 10]) in
  exists r w',
    prepare_gapcloser Scenario.ext (rel ["out"]) 10 (rel ["out"; "_gapcloser.1.conf"])
      [rel ["a_1.fq"]; rel ["b_1.fq"]] [rel ["a_2.fq"]; rel ["b_2.fq"]]
      ["FR"; "RR"] [300; 305]%Z [1 # 10; 1 # 10] 40 150 0 true Scenario.w_out
      = (Ret r, w') /\
    (r = Some true <-> Exists (fun x => eligible (orient_of x.2) = true) xs) /\
    (r <> Some true -> r = None) /\
    (r = Some true ->
     content_of w' (rel ["out"; "_gapcloser.1.conf"]) =
       Some (String.concat nl
               (("max_rd_len=" +:+ str_of_Z 150)
                  :: omap (config_block_of (rel ["out"])) xs))).
Proof.
  intros xs. destruct config_builder as [H _].
  eexists _, _. split; [apply run_eq; vm_compute; reflexivity|].
  apply (H Scenario.ext (rel ["out"]) 10%Z (rel ["out"; "_gapcloser.1.conf"])
           [rel ["a_1.fq"]; rel ["b_1.fq"]] [rel ["a_2.fq"]; rel ["b_2.fq"]]
           ["FR"; "RR"] [300; 305]%Z [1 # 10; 1 # 10] 40%Z 150%Z 0%Z true Scenario.w_out).
  apply run_eq. vm_compute. reflexivity.
Defined.

(** C5, as stated, fails: a library with orientation RR is skipped without
    any diagnostic when [verbose] is not set. *)
Lemma config_builder_counterexample :
  prepare_gapcloser Scenario.ext (rel ["out"]) 10 (rel ["out"; "_gapcloser.1.conf"])
    [rel ["b_1.fq"]] [rel ["b_2.fq"]] ["RR"] [305]%Z [1 # 10] 40 150 0 false
    Scenario.w_out
  = (Ret None, Scenario.w_out) /\
  stderr Scenario.w_out = [].
Proof. split; reflexivity. Qed.

(** With the read filter unbound, as in the file as it stands, an eligible
    library ends the builder in [NameError] and no config is written. *)
Lemma config_builder_unbound_filter :
  exists w',
    prepare_gapcloser Scenario.ext_unbound (rel ["out"]) 10
      (rel ["out"; "_gapcloser.1.conf"])
      [rel ["a_1.fq"]] [rel ["a_2.fq"]] ["FR"] [300]%Z [1 # 10] 40 150 0 true
      Scenario.w_out
    = (Raise NameError, w') /\
    content_of w' (rel ["out"; "_gapcloser.1.conf"]) = None.
Proof.
  eexists. split; [apply run_eq; vm_compute; reflexivity | vm_compute; reflexivity].
Qed.

(** ** The scaffolding iterator *)

#[global] Instance calls_kept_preorder : PreOrder calls_kept.
Proof.
  split.
  - intros w. reflexivity.
  - intros w1 w2 w3 H1 H2. unfold calls_kept in *. congruence.
Qed.

Lemma calls_write_stderr (d : diag) : keeps calls_kept (write_stderr d).
Proof. intros w. reflexivity. Qed.

Lemma calls_write_file (p : path) (text : string) : keeps calls_kept (write_file p text).
Proof.
  intros w. unfold write_file.
  destruct (follow _ _ _) as [q|]; [|reflexivity].
  destruct (fs w !! q) as [[c|t|]|]; try reflexivity;
    [|destruct (fs w !! removelast q) as [[c|t|]|]; try reflexivity];
    destruct (decide (q = [])); reflexivity.
Qed.

Lemma calls_os_symlink (t p : path) : keeps calls_kept (os_symlink t p).
Proof.
  intros w. unfold os_symlink.
  destruct (fs w !! to_abs (cwd w) p) as [[c|t'|]|]; try reflexivity.
  destruct (fs w !! removelast _) as [[c|t'|]|]; try reflexivity.
  destruct (decide (_ = [])); reflexivity.
Qed.

Lemma calls_os_makedirs (p : path) : keeps calls_kept (os_makedirs p).
Proof.
  intros w. unfold os_makedirs.
  destruct (to_abs (cwd w) p); [reflexivity|].
  destruct (mkdir_p _ _ _); reflexivity.
Qed.

Lemma calls_sspace_writes (out : path) (res : option string) :
  keeps calls_kept (sspace_writes out res).
Proof.
  intros w. unfold sspace_writes. destruct res; [|reflexivity].
  repeat case_match; reflexivity.
Qed.

#[global] Hint Resolve calls_write_stderr calls_write_file calls_os_symlink
  calls_os_makedirs calls_sspace_writes : keeps.

Lemma calls_symlink (file1 file2 : path) : keeps calls_kept (symlink file1 file2).
Proof.
  unfold symlink. apply (keeps_bind calls_kept); [apply (keeps_get_world calls_kept)|].
  intros w. keeps_auto.
Qed.
#[global] Hint Resolve calls_symlink : keeps.

(** A computation that returned kept what it keeps under every outcome. *)
Lemma keeps_ret_inv {A} (P : world -> world -> Prop) (m : M A) (w w' : world) (a : A) :
  keeps P m -> m w = (Ret a, w') -> P w w'.
Proof. intros Hk H. specialize (Hk w). now rewrite H in Hk. Qed.

Section ScaffoldingCalls.

Context (ext : Collaborators) (outdir : path) (fastq : list path)
        (mapq threads joins limit iters : Z) (sspacebin : string) (verbose : bool).

Let round := scaffolding_round ext outdir mapq threads joins limit sspacebin verbose.
Let loop := scaffolding_loop ext outdir fastq mapq threads joins limit iters
                             sspacebin verbose.

Lemma round_run (lib : LibrarySet) (i j : nat) (pout pout' : path) (w w' : world) :
  round lib i pout j w = (Ret pout', w') ->
  pout' = path_add (sspace_out outdir i j) ".fa" /\
  calls w' = calls w ++ [CallSspace (sspace_out outdir i j) pout lib limit].
Proof.
  unfold round, scaffolding_round. intros H.
  do 8 bind_inv H.
  unfold ret in H. injection H as <- <-. split; [reflexivity|].
  assert (Hc0 : calls_kept w w0).
  { eapply (keeps_ret_inv calls_kept); [|exact H0]. keeps_auto. }
  apply (keeps_ret_inv calls_kept) in H1; [|keeps_auto].
  apply (keeps_ret_inv calls_kept) in H2; [|keeps_auto].
  unfold record_call in H3. injection H3 as _ <-.
  apply (keeps_ret_inv calls_kept) in H4; [|keeps_auto].
  apply (keeps_ret_inv calls_kept) in H5; [|keeps_auto].
  apply (keeps_ret_inv calls_kept) in H6; [|keeps_auto].
  apply (keeps_ret_inv calls_kept) in H7; [|keeps_auto].
  unfold calls_kept in *. simpl in *. congruence.
Qed.

Lemma rounds_run (lib : LibrarySet) (i : nat) (js : list nat) :
  forall pout pout' w w',
    for_each js (round lib i) pout w = (Ret pout', w') ->
    pout' = last_output outdir i pout js /\
    calls w' = calls w ++ expected_rounds_set outdir limit lib i pout js.
Proof.
  induction js as [|j js IH]; intros pout pout' w w' H; simpl in H.
  - inversion H; subst. simpl. now rewrite app_nil_r.
  - bind_inv H. apply round_run in H0 as [-> Hc].
    apply IH in H as [-> Hc']. simpl. split; [reflexivity|].
    rewrite Hc', Hc, <- app_assoc. reflexivity.
Qed.

Lemma filter_rounds_set (lib : LibrarySet) (i : nat) (js : list nat) (pout : path) :
  filter is_sspace (expected_rounds_set outdir limit lib i pout js) =
  expected_rounds_set outdir limit lib i pout js.
Proof.
  revert pout. induction js as [|j js IH]; intros pout; simpl; [reflexivity|].
  rewrite filter_cons_True by reflexivity. now rewrite IH.
Qed.

Let passes := passes ext outdir fastq mapq threads joins limit iters sspacebin verbose.

(** A run of the loop that returns has made the passes of the source. *)
Lemma loop_passes (fuel : nat) :
  forall libraries i pout w libs' pout' w',
    loop fuel libraries i pout w = (Ret (Some (libs', pout')), w') ->
    exists steps, passes i libraries pout w steps libs' pout' w'.
Proof.
  induction fuel as [|fuel IH]; intros libraries i pout w libs' pout' w' H;
    simpl in H; [inversion H|].
  destruct (i <? List.length libraries)%nat eqn:Elt.
  - bind_inv H. bind_inv H. bind_inv H.
    unfold lift in H0. injection H0 as Hget <-.
    unfold py_getitem in Hget.
    destruct (libraries !! i) as [lib|] eqn:El; [|discriminate].
    injection Hget as <-.
    pose proof H1 as Hr. apply rounds_run in Hr as [-> _].
    destruct (IH _ _ _ _ _ _ _ H) as [steps Hp].
    exists ((lib, a1) :: steps).
    exact (passes_pass _ _ _ _ _ _ _ _ _ _ _ _ _ _ _ _ _ _ _ _ _ _ El H1 H2 Hp).
  - apply Nat.ltb_ge in Elt. injection H as <- <- <-.
    exists []. now constructor.
Qed.

(** Conversely, the passes of the source are made by the loop of the
    model once its bound exceeds their number. *)
Lemma passes_loop (i : nat) (current : list LibrarySet) (pout : path) (w : world)
    (steps : list (LibrarySet * list LibrarySet)) (libs' : list LibrarySet)
    (pout' : path) (w' : world) :
  passes i current pout w steps libs' pout' w' ->
  forall fuel, (List.length steps < fuel)%nat ->
    loop fuel current i pout w = (Ret (Some (libs', pout')), w').
Proof.
  induction 1 as [i current pout w Hlen
                 |i current pout w lib w1 fresh w2 steps libs' pout' w' Hl Hr Hg Hp IH];
    intros fuel Hfuel; (destruct fuel as [|fuel]; [simpl in Hfuel; lia|]); simpl.
  - apply Nat.ltb_ge in Hlen. now rewrite Hlen.
  - assert (Elt : (i <? List.length current)%nat = true).
    { apply Nat.ltb_lt. now apply lookup_lt_Some in Hl. }
    rewrite Elt.
    rewrite (bind_ret _ _ w lib w) by (rewrite lift_ret; unfold py_getitem; now rewrite Hl).
    rewrite (bind_ret _ _ w _ w1 Hr).
    rewrite (bind_ret _ _ w1 _ w2 Hg).
    apply IH. simpl in Hfuel. lia.
Qed.

(** The invocations that the passes make. *)
Lemma passes_calls (i : nat) (current : list LibrarySet) (pout : path) (w : world)
    (steps : list (LibrarySet * list LibrarySet)) (libs' : list LibrarySet)
    (pout' : path) (w' : world) :
  passes i current pout w steps libs' pout' w' ->
  exists trace,
    calls w' = calls w ++ trace /\
    filter is_sspace trace = expected_rounds outdir limit iters i pout (fst <$> steps).
Proof.
  induction 1 as [i current pout w Hlen
                 |i current pout w lib w1 fresh w2 steps libs' pout' w' Hl Hr Hg Hp IH].
  - exists []. split; [now rewrite app_nil_r | reflexivity].
  - apply rounds_run in Hr as [_ Hc1].
    pose proof (get_libraries_calls ext fastq
                  (last_output outdir (S i) pout (range1 iters))
                  mapq threads limit false w1) as Hc2.
    rewrite Hg in Hc2. simpl in Hc2. destruct Hc2 as [_ Hc2].
    destruct IH as (trace & Hc3 & Hf).
    exists (expected_rounds_set outdir limit lib (S i) pout (range1 iters) ++
            [CallInsertSize fastq (last_output outdir (S i) pout (range1 iters))
               mapq threads (floor_limit limit / 100) false] ++ trace).
    split.
    + rewrite Hc3, Hc2, Hc1, <- !app_assoc. reflexivity.
    + rewrite !filter_app, filter_rounds_set. simpl. now rewrite Hf.
Qed.

(** Each pass works on the set at its own index in the classification
    that is current when it begins: the one the loop was entered with for
    the first pass, the one obtained after the pass before for the
    others.  The loop returns the last classification, whose length the
    counter has reached. *)
Lemma passes_follow (i : nat) (current : list LibrarySet) (pout : path) (w : world)
    (steps : list (LibrarySet * list LibrarySet)) (libs' : list LibrarySet)
    (pout' : path) (w' : world) :
  passes i current pout w steps libs' pout' w' ->
  (forall p lib fresh cur,
      steps !! p = Some (lib, fresh) ->
      (current :: (snd <$> steps)) !! p = Some cur ->
      cur !! (i + p)%nat = Some lib) /\
  last (current :: (snd <$> steps)) = Some libs' /\
  (List.length libs' <= i + List.length steps)%nat.
Proof.
  induction 1 as [i current pout w Hlen
                 |i current pout w lib w1 fresh w2 steps libs' pout' w' Hl Hr Hg Hp IH].
  - split; [|split].
    + intros p lib fresh cur Hp. destruct p; discriminate.
    + reflexivity.
    + simpl. lia.
  - destruct IH as (Hidx & Hlast & Hlen). split; [|split].
    + intros [|p] lib0 fresh0 cur Hs Hc; simpl in Hs, Hc.
      * injection Hs as <- <-. injection Hc as <-. now rewrite Nat.add_0_r.
      * replace (i + S p)%nat with (S i + p)%nat by lia.
        exact (Hidx p lib0 fresh0 cur Hs Hc).
    + rewrite fmap_cons. cbn [snd]. rewrite last_cons_cons. exact Hlast.
    + simpl. lia.
Qed.

(** When every classification of the run has as many sets as the first
    one, there are as many passes as sets. *)
Lemma passes_count (n : nat) (i : nat) (current : list LibrarySet) (pout : path)
    (w : world) (steps : list (LibrarySet * list LibrarySet))
    (libs' : list LibrarySet) (pout' : path) (w' : world) :
  passes i current pout w steps libs' pout' w' ->
  Forall (fun s => List.length s.2 = n) steps ->
  List.length current = n -> (i <= n)%nat ->
  (i + List.length steps)%nat = n.
Proof.
  induction 1 as [i current pout w Hlen
                 |i current pout w lib w1 fresh w2 steps libs' pout' w' Hl Hr Hg Hp IH];
    intros Hall Hcur Hi.
  - simpl. lia.
  - inversion Hall as [|? ? Hfresh Hrest]; subst. simpl in Hfresh.
    apply lookup_lt_Some in Hl. simpl.
    rewrite <- (IH Hrest Hfresh) by lia. lia.
Qed.

(** The loop of the model does not run out of fuel when the number of sets
    stays bounded. *)
Lemma loop_enough_fuel (bound : nat)
    (Hbound : forall fasta w1 libs w2,
        get_libraries ext fastq fasta mapq threads limit false w1 = (Ret libs, w2) ->
        (List.length libs <= bound)%nat)
    (fuel : nat) :
  forall libraries i pout w w',
    (List.length libraries <= bound)%nat ->
    (1 <= fuel)%nat -> (bound + 1 <= fuel + i)%nat ->
    loop fuel libraries i pout w <> (Ret None, w').
Proof.
  induction fuel as [|fuel IH]; intros libraries i pout w w' Hl H1 Hb; [lia|].
  simpl. destruct (i <? List.length libraries)%nat eqn:Elt; [|discriminate].
  apply Nat.ltb_lt in Elt. intros H.
  bind_inv H. bind_inv H. bind_inv H.
  apply (IH _ _ _ _ _ (Hbound _ _ _ _ H3)) in H; [exact H | lia | lia].
Qed.

End ScaffoldingCalls.

Lemma consumes_rounds_set (outdir : path) (limit : Z) (lib : LibrarySet) (i : nat)
    (js : list nat) (pout : path) (rest : list call) :
  consumes_previous (last_output outdir i pout js) rest ->
  consumes_previous pout (expected_rounds_set outdir limit lib i pout js ++ rest).
Proof.
  revert pout. induction js as [|j js IH]; intros pout H; simpl; [exact H|].
  split; [reflexivity|]. now apply IH.
Qed.

Lemma consumes_rounds (outdir : path) (limit iters : Z) (processed : list LibrarySet) :
  forall i pout,
    consumes_previous pout (expected_rounds outdir limit iters i pout processed).
Proof.
  induction processed as [|lib rest IH]; intros i pout; simpl; [exact I|].
  apply consumes_rounds_set, IH.
Qed.

Lemma length_rounds_set (outdir : path) (limit : Z) (lib : LibrarySet) (i : nat)
    (js : list nat) (pout : path) :
  List.length (expected_rounds_set outdir limit lib i pout js) = List.length js.
Proof.
  revert pout. induction js as [|j js IH]; intros pout; simpl; [reflexivity|].
  now rewrite IH.
Qed.

Lemma length_rounds (outdir : path) (limit iters : Z) (processed : list LibrarySet) :
  forall i pout,
    List.length (expected_rounds outdir limit iters i pout processed) =
    (List.length processed * Z.to_nat iters)%nat.
Proof.
  induction processed as [|lib rest IH]; intros i pout; simpl; [reflexivity|].
  rewrite length_app, length_rounds_set, IH. unfold range1. now rewrite length_seq.
Qed.

(** C2, as the code has it.  A run of [run_scaffolding] that returns has
    made the passes of the source loop: each pass works on the set at its
    index in the classification current when it begins, and the
    classification that [get_libraries] returns for the output of a pass
    replaces the current one, so the first pass takes the first of the
    sets the stage was given and pass [p + 1] takes the set at index [p]
    of the classification obtained after pass [p]; the loop ends when the
    number of passes has reached the length of the classification then
    current, which is the one returned.  The scaffolder has been invoked
    [iters] times in every pass, one invocation after the other, the first
    reading the stage input and each later one the link to the output of
    the round before.  The total is [n * iters] when each classification
    obtained during the run has [n] sets again, as with 2 sets and 2
    iterations, which give exactly 4 invocations.  The passes of the
    source are made by the model once its bound exceeds their number, and
    the bound is not reached as long as the number of sets stays
    bounded. *)
Theorem scaffolding_invocations :
  (forall (ext : Collaborators) (outdir : path) (fastq : list path)
          (mapq threads joins limit iters : Z) (sspacebin : string) (verbose : bool)
          (fuel : nat) (scaffolds : path) (libraries : list LibrarySet)
          (reduced : path) (w w' : world) (libs' : list LibrarySet),
     run_scaffolding ext outdir fastq mapq threads joins limit iters sspacebin verbose
                     fuel scaffolds libraries reduced w = (Ret (Some libs'), w') ->
     exists steps pout' w1 trace,
       passes ext outdir fastq mapq threads joins limit iters sspacebin verbose
              0 libraries reduced w steps libs' pout' w1 /\
       (forall p lib fresh cur,
           steps !! p = Some (lib, fresh) ->
           (libraries :: (snd <$> steps)) !! p = Some cur ->
           cur !! p = Some lib) /\
       last (libraries :: (snd <$> steps)) = Some libs' /\
       (List.length libs' <= List.length steps)%nat /\
       calls w' = calls w ++ trace /\
       filter is_sspace trace =
         expected_rounds outdir limit iters 0 reduced (fst <$> steps) /\
       consumes_previous reduced (filter is_sspace trace) /\
       List.length (filter is_sspace trace)
         = (List.length steps * Z.to_nat iters)%nat /\
       (Forall (fun s => List.length s.2 = List.length libraries) steps ->
        List.length steps = List.length libraries)) /\
  (forall (ext : Collaborators) (outdir : path) (fastq : list path)
          (mapq threads joins limit iters : Z) (sspacebin : string) (verbose : bool)
          (fuel : nat) (scaffolds : path) (libraries : list LibrarySet)
          (reduced : path) (w w1 : world)
          (steps : list (LibrarySet * list LibrarySet)) (libs' : list LibrarySet)
          (pout' : path),
     passes ext outdir fastq mapq threads joins limit iters sspacebin verbose
            0 libraries reduced w steps libs' pout' w1 ->
     (List.length steps < fuel)%nat ->
     run_scaffolding ext outdir fastq mapq threads joins limit iters sspacebin verbose
                     fuel scaffolds libraries reduced w =
       (let* _ := symlink pout' scaffolds in ret (Some libs')) w1) /\
  (forall (ext : Collaborators) (outdir : path) (fastq : list path)
          (mapq threads joins limit iters : Z) (sspacebin : string) (verbose : bool)
          (bound fuel : nat) (scaffolds : path) (libraries : list LibrarySet)
          (reduced : path) (w w' : world),
     (forall fasta w1 libs w2,
         get_libraries ext fastq fasta mapq threads limit false w1 = (Ret libs, w2) ->
         (List.length libs <= bound)%nat) ->
     (List.length libraries <= bound)%nat -> (bound < fuel)%nat ->
     run_scaffolding ext outdir fastq mapq threads joins limit iters sspacebin verbose
                     fuel scaffolds libraries reduced w <> (Ret None, w')) /\
  (exists libs' w',
     run_scaffolding Scenario.ext (rel ["out"]) Scenario.fastq 10 2 5 0 2 "sspace" false
                     3 (rel ["out"; "scaffolds.fa"])
                     [Scenario.set_short; Scenario.set_long]
                     (rel ["out"; "contigs.reduced.fa"]) Scenario.w_reduced
       = (Ret (Some libs'), w') /\
     List.length (filter is_sspace (calls w')) = 4%nat).
Proof.
  split; [|split; [|split]].
  - intros ext outdir fastq mapq threads joins limit iters sspacebin verbose fuel
           scaffolds libraries reduced w w' libs' H.
    unfold run_scaffolding in H. bind_inv H.
    destruct a as [[libs pout]|]; [|discriminate].
    bind_inv H. unfold ret in H. injection H as <- <-.
    apply (keeps_ret_inv calls_kept) in H1; [|keeps_auto].
    destruct (loop_passes ext outdir fastq mapq threads joins limit iters sspacebin
                verbose fuel _ _ _ _ _ _ _ H0) as [steps Hp].
    destruct (passes_calls ext outdir fastq mapq threads joins limit iters sspacebin
                verbose _ _ _ _ _ _ _ _ Hp) as (trace & Hc & Hf).
    destruct (passes_follow ext outdir fastq mapq threads joins limit iters sspacebin
                verbose _ _ _ _ _ _ _ _ Hp) as (Hidx & Hlast & Hlen).
    exists steps, pout, w0, trace.
    split; [exact Hp|]. split; [exact Hidx|]. split; [exact Hlast|].
    split; [exact Hlen|]. split; [|split; [|split; [|split]]].
    + unfold calls_kept in H1. congruence.
    + exact Hf.
    + rewrite Hf. apply consumes_rounds.
    + rewrite Hf, length_rounds, length_fmap. reflexivity.
    + intros Hall.
      exact (passes_count ext outdir fastq mapq threads joins limit iters sspacebin
               verbose _ _ _ _ _ _ _ _ _ Hp Hall eq_refl ltac:(lia)).
  - intros ext outdir fastq mapq threads joins limit iters sspacebin verbose fuel
           scaffolds libraries reduced w w1 steps libs' pout' Hp Hfuel.
    unfold run_scaffolding.
    rewrite (bind_ret _ _ w (Some (libs', pout')) w1); [reflexivity|].
    exact (passes_loop ext outdir fastq mapq threads joins limit iters sspacebin
             verbose _ _ _ _ _ _ _ _ Hp fuel Hfuel).
  - intros ext outdir fastq mapq threads joins limit iters sspacebin verbose bound fuel
           scaffolds libraries reduced w w' Hbound Hl Hfuel H.
    unfold run_scaffolding in H.
    destruct (scaffolding_loop ext outdir fastq mapq threads joins limit iters sspacebin
                verbose fuel libraries 0 reduced w) as [[r|e] w1] eqn:E.
    + destruct r as [[libs pout]|].
      * unfold bind in H. rewrite E in H.
        destruct (symlink pout scaffolds w1) as [[u|e] w2]; discriminate.
      * eapply (loop_enough_fuel ext outdir fastq mapq threads joins limit iters
                  sspacebin verbose bound Hbound fuel libraries 0%nat reduced w w1 Hl);
          [lia | lia | exact E].
    + unfold bind in H. rewrite E in H. discriminate.
  - eexists _, _. split; [apply run_eq; vm_compute; reflexivity|].
    vm_compute. reflexivity.
Qed.

Lemma scaffolding_invocations_witness :
  exists libs' w' steps trace,
    run_scaffolding Scenario.ext (rel ["out"]) Scenario.fastq 10 2 5 0 2 "sspace" false
                    3 (rel ["out"; "scaffolds.fa"])
                    [Scenario.set_short; Scenario.set_long]
                    (rel ["out"; "contigs.reduced.fa"]) Scenario.w_reduced
      = (Ret (Some libs'), w') /\
    (forall p lib fresh cur,
        steps !! p = Some (lib, fresh) ->
        ([Scenario.set_short; Scenario.set_long] :: (snd <$> steps)) !! p = Some cur ->
        cur !! p = Some lib) /\
    last ([Scenario.set_short; Scenario.set_long] :: (snd <$> steps)) = Some libs' /\
    calls w' = calls Scenario.w_reduced ++ trace /\
    filter is_sspace trace =
      expected_rounds (rel ["out"]) 0 2 0 (rel ["out"; "contigs.reduced.fa"])
                      (fst <$> steps) /\
    consumes_previous (rel ["out"; "contigs.reduced.fa"]) (filter is_sspace trace) /\
    List.length (filter is_sspace trace) = (List.length steps * Z.to_nat 2)%nat.
Proof.
  destruct scaffolding_invocations as [H _].
  eexists _, _.
  assert (Hrun : run_scaffolding Scenario.ext (rel ["out"]) Scenario.fastq 10 2 5 0 2
                   "sspace" false 3 (rel ["out"; "scaffolds.fa"])
                   [Scenario.set_short; Scenario.set_long]
                   (rel ["out"; "contigs.reduced.fa"]) Scenario.w_reduced
                 = (Ret (Some _), _)) by (apply run_eq; vm_compute; reflexivity).
  destruct (H _ _ _ _ _ _ _ _ _ _ _ _ _ _ _ _ _ Hrun)
    as (steps & pout' & w1 & trace & _ & Hidx & Hlast & _ & Hc & Hf & Hp & Hl & _).
  exists steps, trace.
  split; [exact Hrun|]. split; [exact Hidx|]. split; [exact Hlast|].
  split; [exact Hc|]. split; [exact Hf|]. split; [exact Hp | exact Hl].
Defined.

(** C2, as stated, fails: started with two library sets and two
    iterations per set, the iterator makes two invocations, not four, when
    the re-classification after the first set comes back with one set. *)
Lemma scaffolding_invocations_counterexample :
  exists libs' w',
    run_scaffolding Scenario.ext_drift (rel ["out"]) Scenario.fastq 10 2 5 0 2
                    "sspace" false 3 (rel ["out"; "scaffolds.fa"])
                    [Scenario.set_short; Scenario.set_long]
                    (rel ["out"; "contigs.reduced.fa"]) Scenario.w_reduced
      = (Ret (Some libs'), w') /\
    List.length (filter is_sspace (calls w')) = 2%nat /\
    (2 <> 2 * 2)%nat.
Proof.
  eexists _, _. split; [apply run_eq; vm_compute; reflexivity|].
  split; [vm_compute; reflexivity | lia].
Qed.

(** ** What every step of the pipeline keeps *)

Section KeepsAll.

Context (P : world -> world -> Prop) `{!PreOrder P}.
Hypothesis P_write_stderr : forall d, keeps P (write_stderr d).
Hypothesis P_record_call : forall c, keeps P (record_call c).
Hypothesis P_write_file : forall p text, keeps P (write_file p text).
Hypothesis P_os_symlink : forall t p, keeps P (os_symlink t p).
Hypothesis P_sspace_writes : forall out res, keeps P (sspace_writes out res).

Context (ext : Collaborators).

Local Hint Resolve P_write_stderr P_record_call P_write_file P_os_symlink
  P_sspace_writes : keeps.

Lemma all_symlink (file1 file2 : path) : keeps P (symlink file1 file2).
Proof. unfold symlink. keeps_auto. Qed.
Local Hint Resolve all_symlink : keeps.

Lemma all_get_orientation (ps : list Z) (f1 f2 : path) :
  keeps P (get_orientation ps f1 f2).
Proof. unfold get_orientation. keeps_auto. Qed.
Local Hint Resolve all_get_orientation : keeps.

Lemma all_get_libraries (fastq : list path) (fasta : path) (mapq threads limit : Z)
    (verbose : bool) :
  keeps P (get_libraries ext fastq fasta mapq threads limit verbose).
Proof.
  unfold get_libraries. keeps_auto.
  unfold get_libraries_body, open_set, add_library. keeps_auto.
Qed.
Local Hint Resolve all_get_libraries : keeps.

Lemma all_get_read_limit (fastq : list path) (fasta : path) (mapq threads : Z)
    (readLimit : Q) (verbose : bool) :
  keeps P (get_read_limit ext fastq fasta mapq threads readLimit verbose).
Proof. unfold get_read_limit. keeps_auto. Qed.
Local Hint Resolve all_get_read_limit : keeps.

Lemma all_scaffolding_loop (outdir : path) (fastq : list path)
    (mapq threads joins limit iters : Z) (sspacebin : string) (verbose : bool)
    (fuel : nat) :
  forall libraries i pout,
    keeps P (scaffolding_loop ext outdir fastq mapq threads joins limit iters
               sspacebin verbose fuel libraries i pout).
Proof.
  induction fuel as [|fuel IH]; intros libraries i pout; simpl; [keeps_auto|].
  destruct (i <? List.length libraries)%nat; [|keeps_auto].
  apply (keeps_bind P); [keeps_auto|]. intros lib.
  apply (keeps_bind P).
  { apply (keeps_for_each P). intros. unfold scaffolding_round. keeps_auto. }
  intros pout'. apply (keeps_bind P); [keeps_auto|]. intros libs. apply IH.
Qed.
Local Hint Resolve all_scaffolding_loop : keeps.

Lemma all_run_scaffolding (outdir : path) (fastq : list path)
    (mapq threads joins limit iters : Z) (sspacebin : string) (verbose : bool)
    (fuel : nat) (scaffolds : path) (libraries : list LibrarySet) (reduced : path) :
  keeps P (run_scaffolding ext outdir fastq mapq threads joins limit iters sspacebin
             verbose fuel scaffolds libraries reduced).
Proof. unfold run_scaffolding. keeps_auto. Qed.
Local Hint Resolve all_run_scaffolding : keeps.

Lemma all_prepare_gapcloser (outdir : path) (mapq : Z) (configFn : path)
    (libFs libRs : list path) (orientations : list string) (libIS : list Z)
    (libISStDev : list Q) (minlen maxlen limit : Z) (verbose : bool) :
  keeps P (prepare_gapcloser ext outdir mapq configFn libFs libRs orientations libIS
             libISStDev minlen maxlen limit verbose).
Proof.
  unfold prepare_gapcloser. keeps_auto.
  unfold prepare_gapcloser_body, filter_reads. keeps_auto.
Qed.
Local Hint Resolve all_prepare_gapcloser : keeps.

Lemma all_run_gapclosing (outdir : path) (mapq : Z) (libraries : list LibrarySet)
    (nogaps scaffolds : path) (threads limit iters : Z) (verbose : bool) :
  keeps P (run_gapclosing ext outdir mapq libraries nogaps scaffolds threads limit
             iters verbose).
Proof.
  unfold run_gapclosing. keeps_auto.
  unfold run_gapclosing_body. keeps_auto.
  unfold gapcloser_round. keeps_auto.
Qed.
Local Hint Resolve all_run_gapclosing : keeps.

Lemma all_reduction_stage (outdir : path) (identity overlap : Q) (minLength : Z)
    (reduction verbose : bool) (libraries : list LibrarySet) (limit : Z) :
  keeps P (reduction_stage ext outdir identity overlap minLength reduction verbose
             libraries limit).
Proof. unfold reduction_stage. keeps_auto. Qed.

Lemma all_scaffolding_stage (fuel : nat) (fastq : list path) (outdir : path)
    (mapq threads joins iters : Z) (sspacebin : string) (scaffolding verbose : bool)
    (libraries : list LibrarySet) (limit : Z) :
  keeps P (scaffolding_stage ext fuel fastq outdir mapq threads joins iters sspacebin
             scaffolding verbose libraries limit).
Proof. unfold scaffolding_stage, banner. keeps_auto. Qed.

Lemma all_gapclosing_stage (outdir : path) (mapq threads iters : Z)
    (gapclosing verbose : bool) (libraries : list LibrarySet) (limit : Z) :
  keeps P (gapclosing_stage ext outdir mapq threads iters gapclosing verbose
             libraries limit).
Proof. unfold gapclosing_stage, banner. keeps_auto. Qed.

Lemma all_report_stage (outdir : path) (verbose : bool) :
  keeps P (report_stage ext outdir verbose).
Proof. unfold report_stage, banner, report. keeps_auto. Qed.

Lemma all_run_stages (fuel : nat) (fastq : list path) (fasta outdir : path)
    (mapq threads : Z) (identity overlap : Q) (minLength joins : Z) (readLimit : Q)
    (iters : Z) (sspacebin : string) (reduction scaffolding gapclosing verbose : bool) :
  keeps P (run_stages ext fuel fastq fasta outdir mapq threads identity overlap
             minLength joins readLimit iters sspacebin reduction scaffolding
             gapclosing verbose).
Proof.
  unfold run_stages, reduction_stage, scaffolding_stage, gapclosing_stage,
    report_stage, banner, report.
  keeps_auto.
Qed.

End KeepsAll.

(** ** Directories stay *)

#[global] Instance dirs_kept_preorder : PreOrder dirs_kept.
Proof.
  split.
  - intros w. split; [reflexivity | auto].
  - intros w1 w2 w3 [Hc1 H1] [Hc2 H2]. split; [congruence | auto].
Qed.

Lemma dirs_write_stderr (d : diag) : keeps dirs_kept (write_stderr d).
Proof. intros w. split; [reflexivity | auto]. Qed.

Lemma dirs_record_call (c : call) : keeps dirs_kept (record_call c).
Proof. intros w. split; [reflexivity | auto]. Qed.

Lemma dirs_insert (w : world) (q : list string) (x : node) :
  fs w !! q <> Some Dir \/ x = Dir ->
  dirs_kept w (World (<[q := x]> (fs w)) (cwd w) (stderr w) (calls w)).
Proof.
  intros Hq. split; [reflexivity|]. intros p Hp. simpl.
  destruct (decide (q = p)) as [->|Hne].
  - rewrite lookup_insert_eq. destruct Hq as [Hq| ->]; [contradiction | reflexivity].
  - now rewrite lookup_insert_ne.
Qed.

Lemma dirs_write_file (p : path) (text : string) : keeps dirs_kept (write_file p text).
Proof.
  intros w. unfold write_file.
  destruct (follow _ _ _) as [q|]; [|reflexivity].
  destruct (fs w !! q) as [[c|t|]|] eqn:Eq; try reflexivity.
  - destruct (decide (q = [])); [reflexivity|].
    apply dirs_insert. left. congruence.
  - destruct (fs w !! removelast q) as [[c|t|]|]; try reflexivity.
    destruct (decide (q = [])); [reflexivity|].
    apply dirs_insert. left. congruence.
Qed.

Lemma dirs_os_symlink (t p : path) : keeps dirs_kept (os_symlink t p).
Proof.
  intros w. unfold os_symlink.
  destruct (fs w !! to_abs (cwd w) p) as [[c|t'|]|] eqn:Eq; try reflexivity.
  destruct (fs w !! removelast _) as [[c|t'|]|]; try reflexivity.
  destruct (decide (_ = [])); [reflexivity|].
  apply dirs_insert. left. congruence.
Qed.

Lemma mkdir_p_dirs (todo : list string) :
  forall f seen f',
    mkdir_p f seen todo = Some f' ->
    forall p, f !! p = Some Dir -> f' !! p = Some Dir.
Proof.
  induction todo as [|c todo IH]; intros f seen f' H p Hp; simpl in H.
  - now injection H as <-.
  - destruct (f !! (seen ++ [c])) as [[x|t|]|] eqn:E; try discriminate.
    + destruct todo; [discriminate|]. exact (IH _ _ _ H p Hp).
    + apply (IH _ _ _ H p).
      destruct (decide (seen ++ [c] = p)) as [<-|Hne]; [congruence|].
      now rewrite lookup_insert_ne.
Qed.

Lemma mkdir_p_leaf (todo : list string) :
  forall f seen f',
    mkdir_p f seen todo = Some f' -> todo <> [] ->
    f' !! (seen ++ todo) = Some Dir.
Proof.
  induction todo as [|c todo IH]; intros f seen f' H Hne; [congruence|].
  simpl in H.
  replace (seen ++ c :: todo) with ((seen ++ [c]) ++ todo)
    by now rewrite <- app_assoc.
  destruct (f !! (seen ++ [c])) as [[x|t|]|] eqn:E; try discriminate.
  - destruct todo as [|c' todo]; [discriminate|].
    apply (IH _ _ _ H). discriminate.
  - destruct todo as [|c' todo].
    + simpl in H. injection H as <-. rewrite app_nil_r. apply lookup_insert_eq.
    + apply (IH _ _ _ H). discriminate.
Qed.

Lemma dirs_os_makedirs (p : path) : keeps dirs_kept (os_makedirs p).
Proof.
  intros w. unfold os_makedirs.
  destruct (to_abs (cwd w) p) as [|c q]; [reflexivity|].
  destruct (mkdir_p (fs w) [] (c :: q)) as [f|] eqn:E; [|reflexivity].
  split; [reflexivity|]. simpl. intros k Hk. exact (mkdir_p_dirs _ _ _ _ E k Hk).
Qed.

Lemma dirs_sspace_writes (out : path) (res : option string) :
  keeps dirs_kept (sspace_writes out res).
Proof.
  intros w. unfold sspace_writes. destruct res as [text|]; [|reflexivity].
  destruct (to_abs (cwd w) out) as [|c d] eqn:Ed; [reflexivity|].
  set (k := c :: d).
  set (f := k ++ [basename out +:+ ".final.scaffolds.fasta"]).
  assert (Hkf : k <> f).
  { unfold f. intros H. apply (f_equal List.length) in H.
    rewrite length_app in H. simpl in H. lia. }
  assert (Hgo : fs w !! f <> Some Dir ->
                dirs_kept w (World (<[f := File text]> (<[k := Dir]> (fs w)))
                                   (cwd w) (stderr w) (calls w))).
  { intros Hf. split; [reflexivity|]. simpl. intros p Hp.
    destruct (decide (f = p)) as [<-|Hfp]; [contradiction|].
    rewrite lookup_insert_ne by exact Hfp.
    destruct (decide (k = p)) as [<-|Hkp]; [apply lookup_insert_eq|].
    now rewrite lookup_insert_ne. }
  destruct (fs w !! k) as [[x|t|]|]; try reflexivity;
    destruct (fs w !! f) as [[x'|t'|]|] eqn:Ef; try reflexivity;
    apply Hgo; congruence.
Qed.

Lemma lookup_dir_isdir (w : world) (p : path) :
  fs w !! to_abs (cwd w) p = Some Dir -> isdir w p = true.
Proof.
  intros H. unfold isdir, stat. change MAXSYMLINKS with (S 39).
  cbn [follow]. rewrite H. now rewrite H.
Qed.

(** Once the run directory has been made, it is a directory in whatever
    world the stages leave. *)
Lemma outdir_stays (ext : Collaborators) (fuel : nat) (fastq : list path)
    (fasta outdir : path) (mapq threads : Z) (identity overlap : Q)
    (minLength joins : Z) (readLimit : Q) (iters : Z) (sspacebin : string)
    (reduction scaffolding gapclosing verbose : bool) (w w0 : world) :
  os_makedirs outdir w = (Ret tt, w0) ->
  isdir (run_stages ext fuel fastq fasta outdir mapq threads identity overlap
           minLength joins readLimit iters sspacebin reduction scaffolding
           gapclosing verbose w0).2 outdir = true.
Proof.
  intros Hmk.
  assert (Hdir : fs w0 !! to_abs (cwd w0) outdir = Some Dir).
  { unfold os_makedirs in Hmk.
    destruct (to_abs (cwd w) outdir) as [|c q] eqn:Eo; [discriminate|].
    destruct (mkdir_p (fs w) [] (c :: q)) as [f|] eqn:E; [|discriminate].
    injection Hmk as <-. simpl. rewrite Eo.
    exact (mkdir_p_leaf _ _ _ _ E ltac:(discriminate)). }
  destruct (all_run_stages dirs_kept dirs_write_stderr dirs_record_call dirs_write_file
              dirs_os_symlink dirs_sspace_writes ext fuel fastq fasta
              outdir mapq threads identity overlap minLength joins readLimit iters
              sspacebin reduction scaffolding gapclosing verbose w0) as [Hcwd Hkeep].
  apply lookup_dir_isdir. rewrite Hcwd. now apply Hkeep.
Qed.

(** ** The run directory *)

Lemma exit_when_outdir_exists (ext : Collaborators) (fuel : nat) (fastq : list path)
    (fasta outdir : path) (mapq threads : Z) (identity overlap : Q)
    (minLength joins : Z) (readLimit : Q) (iters : Z) (sspacebin : string)
    (reduction scaffolding gapclosing verbose : bool) (w : world) :
  isdir w outdir = true ->
  redundants ext fuel fastq fasta outdir mapq threads identity overlap minLength joins
             readLimit iters sspacebin reduction scaffolding gapclosing verbose w =
    (Raise (SystemExit 1),
     World (fs w) (cwd w) (stderr w ++ [DirectoryExists outdir]) (calls w)).
Proof.
  intros Hdir. unfold redundants. apply bind_raise.
  unfold prepare_outdir. rewrite (bind_ret _ _ w w w) by reflexivity.
  rewrite Hdir. reflexivity.
Qed.

(** C9.  When the output directory exists at the start, [redundants]
    writes the diagnostic and exits with code 1; the file system is as it
    was and no collaborator has been invoked, so no stage has run.  A
    second run against the directory of a first run, which either found the
    directory or made it, therefore fails in this way. *)
Theorem existing_outdir_fails_fast :
  forall (ext : Collaborators) (fuel : nat) (fastq : list path) (fasta outdir : path)
         (mapq threads : Z) (identity overlap : Q) (minLength joins : Z)
         (readLimit : Q) (iters : Z) (sspacebin : string)
         (reduction scaffolding gapclosing verbose : bool) (w : world),
    (isdir w outdir = true ->
     redundants ext fuel fastq fasta outdir mapq threads identity overlap minLength
                joins readLimit iters sspacebin reduction scaffolding gapclosing
                verbose w =
       (Raise (SystemExit 1),
        World (fs w) (cwd w) (stderr w ++ [DirectoryExists outdir]) (calls w))) /\
    (isdir w outdir = true \/ (exists w0, os_makedirs outdir w = (Ret tt, w0)) ->
     let w1 :=
       (redundants ext fuel fastq fasta outdir mapq threads identity overlap minLength
                   joins readLimit iters sspacebin reduction scaffolding gapclosing
                   verbose w).2 in
     redundants ext fuel fastq fasta outdir mapq threads identity overlap minLength
                joins readLimit iters sspacebin reduction scaffolding gapclosing
                verbose w1 =
       (Raise (SystemExit 1),
        World (fs w1) (cwd w1) (stderr w1 ++ [DirectoryExists outdir]) (calls w1))).
Proof.
  intros ext fuel fastq fasta outdir mapq threads identity overlap minLength joins
         readLimit iters sspacebin reduction scaffolding gapclosing verbose w.
  split; [apply exit_when_outdir_exists|].
  intros Hfirst w1. apply exit_when_outdir_exists.
  destruct (isdir w outdir) eqn:Hdir.
  - unfold w1. rewrite exit_when_outdir_exists by exact Hdir. exact Hdir.
  - destruct Hfirst as [Hd|[w0 Hmk]]; [discriminate|].
    assert (Hrun : redundants ext fuel fastq fasta outdir mapq threads identity overlap
                     minLength joins readLimit iters sspacebin reduction scaffolding
                     gapclosing verbose w =
                   run_stages ext fuel fastq fasta outdir mapq threads identity overlap
                     minLength joins readLimit iters sspacebin reduction scaffolding
                     gapclosing verbose w0).
    { unfold redundants. rewrite (bind_ret _ _ w tt w0); [reflexivity|].
      unfold prepare_outdir.
      rewrite (bind_ret _ _ w w w) by reflexivity. now rewrite Hdir. }
    unfold w1. rewrite Hrun. now apply (outdir_stays ext fuel fastq fasta outdir mapq
      threads identity overlap minLength joins readLimit iters sspacebin reduction
      scaffolding gapclosing verbose w w0).
Qed.

Lemma existing_outdir_fails_fast_witness :
  let w1 :=
    (redundants Scenario.ext 3 Scenario.fastq (rel ["asm.fa"]) (rel ["out"]) 10 2
                (8 # 10) (75 # 100) 200 5 (2 # 10) 2 "sspace" true true true true
                Scenario.w0).2 in
  redundants Scenario.ext 3 Scenario.fastq (rel ["asm.fa"]) (rel ["out"]) 10 2
             (8 # 10) (75 # 100) 200 5 (2 # 10) 2 "sspace" true true true true w1 =
    (Raise (SystemExit 1),
     World (fs w1) (cwd w1) (stderr w1 ++ [DirectoryExists (rel ["out"])]) (calls w1)).
Proof.
  apply (existing_outdir_fails_fast Scenario.ext 3 Scenario.fastq (rel ["asm.fa"])
           (rel ["out"]) 10 2 (8 # 10) (75 # 100) 200 5 (2 # 10) 2 "sspace"
           true true true true Scenario.w0).
  right. eexists. apply run_eq. vm_compute. reflexivity.
Defined.

(** ** Forwarding by reference *)

Lemma follow_S (n : nat) (f : gmap (list string) node) (p : list string) :
  follow (S n) f p =
    match f !! p with
    | Some (Link t) => follow n f (to_abs (removelast p) t)
    | _ => Some p
    end.
Proof. reflexivity. Qed.

Lemma follow_mono (n : nat) (f : gmap (list string) node) (p q : list string) :
  follow n f p = Some q -> follow (S n) f p = Some q.
Proof.
  revert p. induction n as [|n IH]; intros p H; [discriminate|].
  rewrite follow_S in H. rewrite follow_S.
  destruct (f !! p) as [[c|t|]|]; try exact H. now apply IH.
Qed.

Lemma follow_insert_absent (n : nat) (f : gmap (list string) node)
    (p q k : list string) (x : node) :
  follow n f p = Some q -> f !! q <> None -> f !! k = None ->
  follow n (<[k := x]> f) p = Some q.
Proof.
  intros H Hq Hk. revert p H. induction n as [|n IH]; intros p H; [discriminate|].
  rewrite follow_S in H. rewrite follow_S.
  destruct (decide (k = p)) as [->|Hne].
  - rewrite Hk in H. injection H as <-. congruence.
  - rewrite lookup_insert_ne by exact Hne.
    destruct (f !! p) as [[c|t|]|]; try exact H. now apply IH.
Qed.

Lemma to_abs_realpath (base c : list string) (p : path) :
  to_abs base (path_join (Path true c) p) = to_abs c p.
Proof. unfold path_join, to_abs. destruct p as [[|] l]; reflexivity. Qed.

Lemma to_abs_in_dir (c : list string) (dir : path) (name : string) :
  to_abs c (path_join dir (rel [name])) = to_abs c dir ++ [name].
Proof.
  unfold path_join, to_abs, rel. simpl. destruct (absolute dir); [reflexivity|].
  now rewrite app_assoc.
Qed.

Lemma removelast_snoc {A} (l : list A) (x : A) : removelast (l ++ [x]) = l.
Proof. apply removelast_last. Qed.

(** [symlink] in a world where the link name is free, its directory
    exists and the linked artifact can be read: the link is made to the
    absolute path of the artifact, and both names lead to one content. *)
Lemma symlink_forward (w : world) (dir : path) (input : path) (name text : string) :
  fs w !! to_abs (cwd w) dir = Some Dir ->
  fs w !! (to_abs (cwd w) dir ++ [name]) = None ->
  reaches 39 w input text ->
  let output := path_join dir (rel [name]) in
  let target := path_join (Path true (cwd w)) input in
  let w' := World (<[to_abs (cwd w) dir ++ [name] := Link target]> (fs w))
                  (cwd w) (stderr w) (calls w) in
  symlink input output w = (Ret tt, w') /\
  content_of w' output = Some text /\
  content_of w' input = Some text.
Proof.
  intros Hdir Hfree (q & Hq & Hfile) output target w'.
  set (k := to_abs (cwd w) dir ++ [name]) in *.
  assert (Hk : to_abs (cwd w) output = k) by apply to_abs_in_dir.
  assert (Ht : forall base, to_abs base target = to_abs (cwd w) input)
    by (intros base; apply to_abs_realpath).
  assert (Hq' : follow 39 (fs w') (to_abs (cwd w) input) = Some q).
  { unfold w'. cbn [fs]. apply follow_insert_absent; [exact Hq | congruence | exact Hfree]. }
  assert (Hfile' : fs w' !! q = Some (File text)).
  { unfold w'. cbn [fs]. rewrite lookup_insert_ne; [exact Hfile|]. congruence. }
  assert (Hno : isfile w output = false).
  { unfold isfile, stat. rewrite Hk. change MAXSYMLINKS with (S 39).
    rewrite follow_S, Hfree. now rewrite Hfree. }
  assert (Hyes : isfile w target = true).
  { unfold isfile, stat. rewrite Ht.
    change MAXSYMLINKS with (S 39). rewrite (follow_mono _ _ _ _ Hq).
    now rewrite Hfile. }
  assert (Hos : os_symlink target output w = (Ret tt, w')).
  { unfold os_symlink. rewrite Hk, Hfree.
    unfold k at 1. rewrite removelast_snoc, Hdir.
    destruct (decide (k = [])) as [E|_]; [|reflexivity].
    unfold k in E. destruct (to_abs (cwd w) dir); discriminate. }
  split; [|split].
  - unfold symlink. rewrite (bind_ret _ _ w w w) by reflexivity.
    fold target. fold output. rewrite Hno. cbn [negb]. rewrite Hyes. exact Hos.
  - unfold content_of, stat. change (cwd w') with (cwd w). rewrite Hk.
    change MAXSYMLINKS with (S 39). rewrite follow_S.
    assert (Hl : fs w' !! k = Some (Link target)) by apply lookup_insert_eq.
    rewrite Hl, Ht, Hq'. now rewrite Hfile'.
  - unfold content_of, stat. change (cwd w') with (cwd w).
    change MAXSYMLINKS with (S 39). rewrite (follow_mono _ _ _ _ Hq').
    now rewrite Hfile'.
Qed.

(** ** Whole runs *)

#[global] Instance fs_kept_preorder : PreOrder fs_kept.
Proof.
  split.
  - intros w. now split.
  - intros w1 w2 w3 [H1 H2] [H3 H4]. split; congruence.
Qed.

Lemma fs_write_stderr (d : diag) : keeps fs_kept (write_stderr d).
Proof. intros w. now split. Qed.

Lemma fs_record_call (c : call) : keeps fs_kept (record_call c).
Proof. intros w. now split. Qed.

#[global] Instance entries_kept_preorder : PreOrder entries_kept.
Proof.
  split.
  - intros w. split; [reflexivity|]. split; eauto.
  - intros w1 w2 w3 (Hc1 & Hl1 & Hf1) (Hc2 & Hl2 & Hf2).
    split; [congruence|]. split; [eauto|].
    intros k c Hk. destruct (Hf1 k c Hk) as [c' Hk']. eauto.
Qed.

Lemma entries_same_fs (w w' : world) :
  fs w' = fs w -> cwd w' = cwd w -> entries_kept w w'.
Proof.
  intros Hf Hc. split; [exact Hc|]. rewrite Hf. split; eauto.
Qed.

Lemma entries_insert (w : world) (q : list string) (x : node) :
  (fs w !! q = None \/ exists c c', fs w !! q = Some (File c) /\ x = File c') ->
  entries_kept w (World (<[q := x]> (fs w)) (cwd w) (stderr w) (calls w)).
Proof.
  intros Hq. split; [reflexivity|]. simpl. split.
  - intros k t Hk. rewrite lookup_insert_ne; [exact Hk|].
    intros ->. destruct Hq as [Hq|(c & c' & Hq & _)]; congruence.
  - intros k c Hk. destruct (decide (q = k)) as [->|Hne].
    + rewrite lookup_insert_eq. destruct Hq as [Hq|(c0 & c' & _ & ->)]; [congruence|].
      eauto.
    + rewrite lookup_insert_ne by exact Hne. eauto.
Qed.

Lemma entries_write_stderr (d : diag) : keeps entries_kept (write_stderr d).
Proof. intros w. now apply entries_same_fs. Qed.

Lemma entries_record_call (c : call) : keeps entries_kept (record_call c).
Proof. intros w. now apply entries_same_fs. Qed.

Lemma entries_write_file (p : path) (text : string) :
  keeps entries_kept (write_file p text).
Proof.
  intros w. unfold write_file.
  destruct (follow _ _ _) as [q|]; [|reflexivity].
  destruct (fs w !! q) as [[c|t|]|] eqn:Eq; try reflexivity.
  - destruct (decide (q = [])); [reflexivity|].
    apply entries_insert. right. eauto.
  - destruct (fs w !! removelast q) as [[c|t|]|]; try reflexivity.
    destruct (decide (q = [])); [reflexivity|].
    apply entries_insert. now left.
Qed.

Lemma entries_os_symlink (t p : path) : keeps entries_kept (os_symlink t p).
Proof.
  intros w. unfold os_symlink.
  destruct (fs w !! to_abs (cwd w) p) as [[c|t'|]|] eqn:Eq; try reflexivity.
  destruct (fs w !! removelast _) as [[c|t'|]|]; try reflexivity.
  destruct (decide (_ = [])); [reflexivity|].
  apply entries_insert. now left.
Qed.

Lemma entries_sspace_writes (out : path) (res : option string) :
  keeps entries_kept (sspace_writes out res).
Proof.
  intros w. unfold sspace_writes. destruct res as [text|]; [|reflexivity].
  destruct (to_abs (cwd w) out) as [|c d] eqn:Ed; [reflexivity|].
  set (k := c :: d).
  set (f := k ++ [basename out +:+ ".final.scaffolds.fasta"]).
  assert (Hkf : k <> f).
  { unfold f. intros H. apply (f_equal List.length) in H.
    rewrite length_app in H. simpl in H. lia. }
  assert (Hgo : (fs w !! k = None \/ fs w !! k = Some Dir) ->
                (fs w !! f = None \/ exists x, fs w !! f = Some (File x)) ->
                entries_kept w (World (<[f := File text]> (<[k := Dir]> (fs w)))
                                      (cwd w) (stderr w) (calls w))).
  { intros Hk Hf. split; [reflexivity|]. simpl. split.
    - intros p t Hp.
      rewrite lookup_insert_ne by (intros ->; destruct Hf as [Hf|[x Hf]]; congruence).
      rewrite lookup_insert_ne by (intros ->; destruct Hk as [Hk|Hk]; congruence).
      exact Hp.
    - intros p x Hp. destruct (decide (f = p)) as [<-|Hfp].
      + rewrite lookup_insert_eq. eauto.
      + rewrite lookup_insert_ne by exact Hfp.
        rewrite lookup_insert_ne by (intros ->; destruct Hk as [Hk|Hk]; congruence).
        eauto. }
  destruct (fs w !! k) as [[x|t|]|] eqn:Ek; try reflexivity;
    destruct (fs w !! f) as [[x'|t'|]|] eqn:Ef; try reflexivity;
    apply Hgo; eauto.
Qed.

#[global] Instance absent_in_preorder (dir : path) (name : string) :
  PreOrder (absent_in dir name).
Proof.
  split.
  - intros w. now split.
  - intros w1 w2 w3 [Hc1 H1] [Hc2 H2]. split; [congruence|].
    intros H. rewrite Hc1 in H2. auto.
Qed.

Lemma absent_same_fs (dir : path) (name : string) (w w' : world) :
  fs w' = fs w -> cwd w' = cwd w -> absent_in dir name w w'.
Proof. intros Hf Hc. split; [exact Hc|]. now rewrite Hf. Qed.

Lemma absent_write_stderr (dir : path) (name : string) (d : diag) :
  keeps (absent_in dir name) (write_stderr d).
Proof. intros w. now apply absent_same_fs. Qed.

Lemma absent_record_call (dir : path) (name : string) (c : call) :
  keeps (absent_in dir name) (record_call c).
Proof. intros w. now apply absent_same_fs. Qed.

Lemma absent_os_symlink (dir : path) (name other : string) (t : path) :
  other <> name ->
  keeps (absent_in dir name) (os_symlink t (path_join dir (rel [other]))).
Proof.
  intros Hne w. unfold os_symlink. rewrite to_abs_in_dir.
  destruct (fs w !! (to_abs (cwd w) dir ++ [other])) as [[c|t'|]|]; try reflexivity.
  destruct (fs w !! removelast _) as [[c|t'|]|]; try reflexivity.
  destruct (decide (_ = [])); [reflexivity|].
  split; [reflexivity|]. simpl. intros H. rewrite lookup_insert_ne; [exact H|].
  intros E. apply app_inj_tail in E as [_ E]. contradiction.
Qed.

Lemma absent_symlink (dir : path) (name other : string) (file1 : path) :
  other <> name ->
  keeps (absent_in dir name) (symlink file1 (path_join dir (rel [other]))).
Proof.
  intros Hne. unfold symlink.
  apply (keeps_bind (absent_in dir name)); [apply (keeps_get_world _)|]. intros w.
  destruct (negb _); [|apply (keeps_ret _)].
  destruct (isfile _ _); now apply absent_os_symlink.
Qed.

Lemma sspace_writes_elsewhere (out : path) (res : option string) (w : world)
    (k : list string) :
  k <> to_abs (cwd w) out ->
  k <> to_abs (cwd w) out ++ [basename out +:+ ".final.scaffolds.fasta"] ->
  fs (sspace_writes out res w).2 !! k = fs w !! k /\
  cwd (sspace_writes out res w).2 = cwd w.
Proof.
  intros H1 H2. unfold sspace_writes. destruct res as [text|]; [|now split].
  remember (to_abs (cwd w) out) as d eqn:Ed.
  remember (d ++ [basename out +:+ ".final.scaffolds.fasta"]) as f eqn:Ef.
  destruct d as [|c d]; [now split|].
  destruct (fs w !! (c :: d)) as [[x|t|]|]; try (now split);
    destruct (fs w !! f) as [[x'|t'|]|]; try (now split);
    (split; [|reflexivity]); simpl;
    rewrite lookup_insert_ne by congruence; now rewrite lookup_insert_ne by congruence.
Qed.

Lemma absent_sspace_writes (dir : path) (name other : string) (res : option string) :
  other <> name ->
  keeps (absent_in dir name) (sspace_writes (path_join dir (rel [other])) res).
Proof.
  intros Hne w.
  destruct (sspace_writes_elsewhere (path_join dir (rel [other])) res w
              (to_abs (cwd w) dir ++ [name])) as [Hf Hc].
  - rewrite to_abs_in_dir. intros E. apply app_inj_tail in E as [_ E]. congruence.
  - rewrite to_abs_in_dir. intros E. apply (f_equal List.length) in E.
    rewrite !length_app in E. simpl in E. lia.
  - split; [exact Hc|]. now rewrite Hf.
Qed.

Lemma path_add_in_dir (dir : path) (name suffix : string) :
  path_add (path_join dir (rel [name])) suffix = path_join dir (rel [name +:+ suffix]).
Proof.
  unfold path_add, path_join, basename, rel. simpl.
  rewrite removelast_last, last_last.
  destruct (parts dir ++ [name]) eqn:E; [|reflexivity].
  destruct (parts dir); discriminate.
Qed.

Lemma absent_run_scaffolding (ext : Collaborators) (outdir : path) (fastq : list path)
    (mapq threads joins limit iters : Z) (sspacebin : string) (verbose : bool)
    (fuel : nat) (libraries : list LibrarySet) (reduced : path) :
  keeps (absent_in outdir "scaffolds.filled.fa")
        (run_scaffolding ext outdir fastq mapq threads joins limit iters sspacebin
           verbose fuel (scaffoldsFname outdir) libraries reduced).
Proof.
  set (P := absent_in outdir "scaffolds.filled.fa").
  assert (Hround : forall lib i pout j,
             keeps P (scaffolding_round ext outdir mapq threads joins limit sspacebin
                        verbose lib i pout j)).
  { intros lib i pout j. unfold scaffolding_round, sspace_out.
    rewrite !path_add_in_dir.
    apply (keeps_bind P).
    { destruct verbose; [apply absent_write_stderr | apply (keeps_ret P)]. }
    intros _. apply (keeps_bind P); [apply (keeps_open_r P)|]. intros h.
    apply (keeps_bind P); [apply (keeps_read P)|]. intros text.
    apply (keeps_bind P); [apply absent_record_call|]. intros _.
    apply (keeps_bind P); [apply (keeps_get_world P)|]. intros w.
    apply (keeps_bind P); [apply (keeps_lift P)|]. intros res.
    apply (keeps_bind P); [apply absent_sspace_writes; discriminate|]. intros _.
    apply (keeps_bind P); [apply absent_symlink; discriminate|]. intros _.
    apply (keeps_ret P). }
  assert (Hloop : forall n libs i pout,
             keeps P (scaffolding_loop ext outdir fastq mapq threads joins limit iters
                        sspacebin verbose n libs i pout)).
  { induction n as [|n IH]; intros libs i pout; simpl; [apply (keeps_ret P)|].
    destruct (i <? List.length libs)%nat; [|apply (keeps_ret P)].
    apply (keeps_bind P); [apply (keeps_lift P)|]. intros lib.
    apply (keeps_bind P); [apply (keeps_for_each P); intros; apply Hround|].
    intros pout'. apply (keeps_bind P).
    { apply (all_get_libraries P); [apply absent_write_stderr | apply absent_record_call]. }
    intros libs'. apply IH. }
  unfold run_scaffolding. apply (keeps_bind P); [apply Hloop|].
  intros [[libs pout]|]; [|apply (keeps_ret P)].
  apply (keeps_bind P); [|intros; apply (keeps_ret P)].
  unfold scaffoldsFname. apply absent_symlink. discriminate.
Qed.

Lemma write_file_at (p : path) (text : string) (w w' : world) :
  (fs w !! to_abs (cwd w) p = None \/
   exists c, fs w !! to_abs (cwd w) p = Some (File c)) ->
  write_file p text w = (Ret tt, w') ->
  w' = World (<[to_abs (cwd w) p := File text]> (fs w)) (cwd w) (stderr w) (calls w).
Proof.
  intros Hp. unfold write_file. change MAXSYMLINKS with (S 39). rewrite follow_S.
  destruct Hp as [Hp|[c Hp]]; rewrite Hp; rewrite Hp.
  - destruct (fs w !! removelast _) as [[c|t|]|]; try discriminate.
    destruct (decide (_ = [])); [discriminate|]. now intros [= <-].
  - destruct (decide (_ = [])); [discriminate|]. now intros [= <-].
Qed.

Lemma mkdir_p_fresh_leaf (todo : list string) :
  forall f seen f',
    mkdir_p f seen todo = Some f' -> todo <> [] -> f !! (seen ++ todo) = None.
Proof.
  induction todo as [|c todo IH]; intros f seen f' H Hne; [congruence|].
  simpl in H.
  replace (seen ++ c :: todo) with ((seen ++ [c]) ++ todo)
    by now rewrite <- app_assoc.
  destruct (f !! (seen ++ [c])) as [[x|t|]|] eqn:E; try discriminate.
  - destruct todo as [|c' todo]; [discriminate|].
    apply (IH _ _ _ H). discriminate.
  - destruct todo as [|c' todo]; [now rewrite app_nil_r|].
    specialize (IH _ _ _ H ltac:(discriminate)).
    rewrite lookup_insert_ne in IH; [exact IH|].
    intros E'. apply (f_equal List.length) in E'.
    rewrite !length_app in E'. simpl in E'. lia.
Qed.

Lemma mkdir_p_below (todo : list string) :
  forall f seen f',
    mkdir_p f seen todo = Some f' ->
    forall k, (List.length (seen ++ todo) < List.length k)%nat -> f' !! k = f !! k.
Proof.
  induction todo as [|c todo IH]; intros f seen f' H k Hk; simpl in H.
  - now injection H as <-.
  - replace (seen ++ c :: todo) with ((seen ++ [c]) ++ todo) in Hk
      by now rewrite <- app_assoc.
    destruct (f !! (seen ++ [c])) as [[x|t|]|] eqn:E; try discriminate.
    + destruct todo as [|c' todo]; [discriminate|]. exact (IH _ _ _ H k Hk).
    + rewrite (IH _ _ _ H k Hk). apply lookup_insert_ne.
      intros <-. rewrite !length_app in Hk. simpl in Hk. lia.
Qed.

Lemma report_reads (ext : Collaborators) (fn : path) (w w' : world) :
  report ext fn w = (Ret tt, w') ->
  content_of w fn <> None /\ fs_kept w w'.
Proof.
  intros H. split.
  - unfold report in H. do 2 bind_inv H.
    unfold open_r in H0. destruct (isfile w fn) eqn:E; [|discriminate].
    unfold isfile in E. unfold content_of.
    destruct (stat w fn) as [[c|t|]|]; discriminate.
  - eapply (keeps_ret_inv fs_kept); [|exact H].
    unfold report. keeps_auto; auto using fs_write_stderr, fs_record_call.
Qed.

Lemma content_same_fs (w w' : world) (p : path) :
  fs_kept w w' -> content_of w' p = content_of w p.
Proof. intros [Hf Hc]. unfold content_of. now rewrite (stat_same w w'). Qed.

Lemma report_all (ext : Collaborators) (fastas : list path) :
  forall w w',
    for_each fastas (fun _ fn => report ext fn) tt w = (Ret tt, w') ->
    fs_kept w w' /\ forall fn, fn ∈ fastas -> content_of w fn <> None.
Proof.
  induction fastas as [|fn fastas IH]; intros w w' H; simpl in H.
  - injection H as <-. split; [reflexivity|]. intros fn Hin. inversion Hin.
  - bind_inv H. destruct a. apply report_reads in H0 as [Hfn Hk].
    apply IH in H as [Hk' Hall]. split; [etransitivity; eassumption|].
    intros x Hx. apply elem_of_cons in Hx as [->|Hx]; [exact Hfn|].
    rewrite <- (content_same_fs w w0 x Hk). now apply Hall.
Qed.

Lemma report_stage_reads (ext : Collaborators) (outdir : path) (verbose : bool)
    (w w' : world) :
  report_stage ext outdir verbose w = (Ret tt, w') ->
  fs_kept w w' /\
  content_of w' (contigsFname outdir) <> None /\
  content_of w' (reducedFname outdir) <> None /\
  content_of w' (scaffoldsFname outdir) <> None /\
  content_of w' (nogapsFname outdir) <> None.
Proof.
  unfold report_stage. intros H. do 3 bind_inv H.
  assert (H0k : fs_kept w w0).
  { eapply (keeps_ret_inv fs_kept); [|exact H0].
    unfold banner. destruct verbose; [apply fs_write_stderr | apply (keeps_ret _)]. }
  unfold get_world in H1. injection H1 as <- <-.
  assert (H2k : fs_kept w0 w2).
  { eapply (keeps_ret_inv fs_kept); [apply fs_write_stderr | exact H2]. }
  apply report_all in H as [Hk Hall].
  assert (Hww' : fs_kept w w') by (etransitivity; [exact H0k|]; etransitivity; eassumption).
  split; [exact Hww'|].
  assert (Hc : forall fn, content_of w2 fn <> None -> content_of w' fn <> None).
  { intros fn. now rewrite (content_same_fs w2 w' fn Hk). }
  repeat split; apply Hc, Hall; rewrite ?elem_of_cons, ?elem_of_app, ?elem_of_cons;
    tauto.
Qed.

Lemma follow_mono_le (n m : nat) (f : gmap (list string) node) (p q : list string) :
  (n <= m)%nat -> follow n f p = Some q -> follow m f p = Some q.
Proof.
  induction 1 as [|m _ IH]; intros H; [exact H|]. apply follow_mono. now apply IH.
Qed.

Lemma reaches_content (n : nat) (w : world) (p : path) (text : string) :
  (n <= 40)%nat -> reaches n w p text -> content_of w p = Some text.
Proof.
  intros Hn (q & Hq & Hf). unfold content_of, stat.
  change MAXSYMLINKS with 40%nat. rewrite (follow_mono_le n 40 _ _ _ Hn Hq).
  now rewrite Hf.
Qed.

(** [symlink_forward] with the number of links counted. *)
Lemma symlink_forward_n (n : nat) (w : world) (dir : path) (input : path)
    (name text : string) :
  (n <= 39)%nat ->
  fs w !! to_abs (cwd w) dir = Some Dir ->
  fs w !! (to_abs (cwd w) dir ++ [name]) = None ->
  reaches n w input text ->
  let target := path_join (Path true (cwd w)) input in
  let w' := World (<[to_abs (cwd w) dir ++ [name] := Link target]> (fs w))
                  (cwd w) (stderr w) (calls w) in
  symlink input (path_join dir (rel [name])) w = (Ret tt, w') /\
  reaches (S n) w' (path_join dir (rel [name])) text /\
  reaches n w' input text.
Proof.
  intros Hn Hdir Hfree (q & Hq & Hfile) target w'.
  assert (H39 : reaches 39 w input text).
  { exists q. split; [|exact Hfile]. exact (follow_mono_le n 39 _ _ _ Hn Hq). }
  destruct (symlink_forward w dir input name text Hdir Hfree H39) as (Hrun & _ & _).
  split; [exact Hrun|].
  assert (Hq' : follow n (fs w') (to_abs (cwd w) input) = Some q).
  { unfold w'. cbn [fs]. apply follow_insert_absent; [exact Hq | congruence | exact Hfree]. }
  assert (Hfile' : fs w' !! q = Some (File text)).
  { unfold w'. cbn [fs]. rewrite lookup_insert_ne; [exact Hfile|]. congruence. }
  split.
  - exists q. split; [|exact Hfile']. change (cwd w') with (cwd w).
    rewrite to_abs_in_dir, follow_S.
    assert (Hl : fs w' !! (to_abs (cwd w) dir ++ [name]) = Some (Link target))
      by apply lookup_insert_eq.
    rewrite Hl. unfold target. now rewrite to_abs_realpath.
  - exists q. split; [exact Hq' | exact Hfile'].
Qed.

(** A link to an artifact leads to the content of the artifact. *)
Lemma link_forward_end (w : world) (out inp t : path) (text : string) :
  fs w !! to_abs (cwd w) out = Some (Link t) ->
  to_abs (removelast (to_abs (cwd w) out)) t = to_abs (cwd w) inp ->
  content_of w out = Some text ->
  content_of w inp = Some text.
Proof.
  intros Hl Ht. unfold content_of, stat. change MAXSYMLINKS with (S 39).
  rewrite follow_S, Hl, Ht.
  destruct (follow 39 (fs w) (to_abs (cwd w) inp)) as [q|] eqn:Hq; [|discriminate].
  now rewrite (follow_mono _ _ _ _ Hq).
Qed.

(** After a link has been put at a free name [k], a path either leads
    where it led before, or it leads through [k]. *)
Lemma follow_through (n : nat) (f : gmap (list string) node) (k p q : list string)
    (x : node) :
  f !! k = None ->
  follow n (<[k := x]> f) p = Some q ->
  (follow n f p = Some q /\ q <> k) \/
  (exists m, (m <= n)%nat /\ follow m (<[k := x]> f) k = Some q).
Proof.
  intros Hk. revert p. induction n as [|n IH]; intros p H; [discriminate|].
  destruct (decide (p = k)) as [->|Hne]; [right; exists (S n); split; [lia | exact H]|].
  rewrite follow_S in H. rewrite lookup_insert_ne in H by congruence.
  rewrite follow_S.
  destruct (f !! p) as [[c|t|]|] eqn:E.
  - injection H as <-. now left.
  - destruct (IH _ H) as [Hl|(m & Hm & Hr)]; [now left|].
    right. exists m. split; [lia | exact Hr].
  - injection H as <-. now left.
  - injection H as <-. now left.
Qed.

(** A [symlink] call that returned, on a free name: whichever form of
    the link it chose, the name and the artifact lead to the same content
    whenever both can be read. *)
Lemma forward_by_symlink (w w' : world) (dir inp : path) (name : string) (a b : string) :
  fs w !! (to_abs (cwd w) dir ++ [name]) = None ->
  symlink inp (path_join dir (rel [name])) w = (Ret tt, w') ->
  content_of w' (path_join dir (rel [name])) = Some a ->
  content_of w' inp = Some b ->
  a = b.
Proof.
  intros Hfree Hrun Ha Hb.
  set (k := to_abs (cwd w) dir ++ [name]) in *.
  set (out := path_join dir (rel [name])) in *.
  assert (Hk : to_abs (cwd w) out = k) by apply to_abs_in_dir.
  assert (Hno : isfile w out = false).
  { unfold isfile, stat. rewrite Hk. change MAXSYMLINKS with (S 39).
    rewrite follow_S, Hfree. now rewrite Hfree. }
  assert (Hmade : forall t, os_symlink t out w = (Ret tt, w') ->
            w' = World (<[k := Link t]> (fs w)) (cwd w) (stderr w) (calls w)).
  { intros t. unfold os_symlink. rewrite Hk, Hfree.
    destruct (fs w !! removelast k) as [[c|t'|]|]; try discriminate.
    destruct (decide (k = [])); [discriminate|]. now intros [= <-]. }
  unfold symlink in Hrun. rewrite (bind_ret _ _ w w w) in Hrun by reflexivity.
  rewrite Hno in Hrun. cbn [negb] in Hrun.
  destruct (isfile w (path_join (Path true (cwd w)) inp)) eqn:Hin.
  - apply Hmade in Hrun. subst w'.
    assert (Hb' : content_of
               (World (<[k := Link (path_join (Path true (cwd w)) inp)]> (fs w))
                      (cwd w) (stderr w) (calls w)) inp = Some a).
    { eapply (link_forward_end _ out); [| |exact Ha]; cbn [cwd fs].
      - rewrite Hk. apply lookup_insert_eq.
      - apply to_abs_realpath. }
    congruence.
  - apply Hmade in Hrun. subst w'.
    unfold content_of, stat in Ha, Hb. cbn [cwd fs] in Ha, Hb. rewrite Hk in Ha.
    destruct (follow MAXSYMLINKS (<[k := Link inp]> (fs w)) (to_abs (cwd w) inp))
      as [q|] eqn:Hq; [|discriminate].
    destruct (follow_through _ _ _ _ _ _ Hfree Hq) as [[Hold Hqk]|(m & Hm & Hthr)].
    + exfalso. rewrite lookup_insert_ne in Hb by congruence.
      unfold isfile, stat in Hin. rewrite to_abs_realpath, Hold in Hin.
      destruct (fs w !! q) as [[c|t|]|]; discriminate.
    + rewrite (follow_mono_le m MAXSYMLINKS _ _ _ Hm Hthr) in Ha.
      destruct (<[k := Link inp]> (fs w) !! q) as [[c|t|]|]; congruence.
Qed.

(** A [symlink] call that returned, on a free name, has put a link there. *)
Lemma symlink_makes_link (w w' : world) (dir inp : path) (name : string) :
  fs w !! (to_abs (cwd w) dir ++ [name]) = None ->
  symlink inp (path_join dir (rel [name])) w = (Ret tt, w') ->
  cwd w' = cwd w /\
  exists t, fs w' !! (to_abs (cwd w) dir ++ [name]) = Some (Link t).
Proof.
  intros Hfree Hrun.
  set (k := to_abs (cwd w) dir ++ [name]) in *.
  set (out := path_join dir (rel [name])) in *.
  assert (Hk : to_abs (cwd w) out = k) by apply to_abs_in_dir.
  assert (Hno : isfile w out = false).
  { unfold isfile, stat. rewrite Hk. change MAXSYMLINKS with (S 39).
    rewrite follow_S, Hfree. now rewrite Hfree. }
  assert (Hmade : forall t, os_symlink t out w = (Ret tt, w') ->
            w' = World (<[k := Link t]> (fs w)) (cwd w) (stderr w) (calls w)).
  { intros t. unfold os_symlink. rewrite Hk, Hfree.
    destruct (fs w !! removelast k) as [[c|t'|]|]; try discriminate.
    destruct (decide (k = [])); [discriminate|]. now intros [= <-]. }
  unfold symlink in Hrun. rewrite (bind_ret _ _ w w w) in Hrun by reflexivity.
  rewrite Hno in Hrun. cbn [negb] in Hrun.
  destruct (isfile w (path_join (Path true (cwd w)) inp));
    apply Hmade in Hrun; subst w'; cbn [cwd fs];
    (split; [reflexivity|]); eexists; apply lookup_insert_eq.
Qed.

Lemma mkdir_p_keeps (todo : list string) :
  forall f seen f',
    mkdir_p f seen todo = Some f' ->
    forall k x, f !! k = Some x -> f' !! k = Some x.
Proof.
  induction todo as [|c todo IH]; intros f seen f' H k x Hk; simpl in H.
  - now injection H as <-.
  - destruct (f !! (seen ++ [c])) as [[y|t|]|] eqn:E; try discriminate.
    + destruct todo; [discriminate|]. exact (IH _ _ _ H k x Hk).
    + apply (IH _ _ _ H k x).
      rewrite lookup_insert_ne; [exact Hk|]. congruence.
Qed.

Lemma follow_extends (n : nat) (f f' : gmap (list string) node) (p q : list string) :
  (forall k x, f !! k = Some x -> f' !! k = Some x) ->
  follow n f p = Some q -> f !! q <> None ->
  follow n f' p = Some q.
Proof.
  intros Hext. revert p. induction n as [|n IH]; intros p H Hq; [discriminate|].
  rewrite follow_S in H. rewrite follow_S.
  destruct (f !! p) as [[c|t|]|] eqn:E.
  - now rewrite (Hext _ _ E).
  - rewrite (Hext _ _ E). now apply IH.
  - now rewrite (Hext _ _ E).
  - injection H as <-. congruence.
Qed.

Lemma get_libraries_empty (ext : Collaborators) (fastq : list path) (fasta : path)
    (mapq threads limit : Z) (verbose : bool) (w : world) :
  (forall w1 fa cap v, fastq2insert_size ext w1 fastq fa mapq threads cap v = Ret []) ->
  (get_libraries ext fastq fasta mapq threads limit verbose w).1 = Ret [].
Proof.
  intros Hnone. unfold get_libraries.
  rewrite (bind_ret _ _ w w w) by reflexivity.
  erewrite bind_ret by reflexivity.
  erewrite bind_ret by (rewrite lift_ret, Hnone; reflexivity).
  reflexivity.
Qed.

Lemma reaches_same_fs (n : nat) (w w' : world) (p : path) (text : string) :
  fs_kept w w' -> reaches n w p text -> reaches n w' p text.
Proof. intros [Hf Hc] (q & Hq & Hfile). exists q. now rewrite Hf, Hc. Qed.

Section WholeRun.

Context (ext : Collaborators) (fuel : nat) (fastq : list path) (fasta outdir : path)
        (mapq threads : Z) (identity overlap : Q) (minLength joins : Z)
        (readLimit : Q) (iters : Z) (sspacebin : string)
        (reduction scaffolding gapclosing verbose : bool).

Lemma prepare_outdir_inv (w w0 : world) :
  prepare_outdir outdir w = (Ret tt, w0) -> os_makedirs outdir w = (Ret tt, w0).
Proof.
  unfold prepare_outdir. rewrite (bind_ret _ _ w w w) by reflexivity.
  destruct (isdir w outdir); [|now intros].
  intros H. bind_inv H. discriminate.
Qed.

Lemma makedirs_fresh (w w0 : world) :
  tree w -> os_makedirs outdir w = (Ret tt, w0) ->
  cwd w0 = cwd w /\
  fs w0 !! to_abs (cwd w) outdir = Some Dir /\
  (forall x, fs w0 !! (to_abs (cwd w) outdir ++ [x]) = None) /\
  (forall k n, fs w !! k = Some n -> fs w0 !! k = Some n).
Proof.
  intros Htree Hmk. unfold os_makedirs in Hmk.
  destruct (to_abs (cwd w) outdir) as [|c q] eqn:Eo; [discriminate|].
  destruct (mkdir_p (fs w) [] (c :: q)) as [f|] eqn:E; [|discriminate].
  injection Hmk as <-. cbn [cwd fs]. split; [reflexivity|].
  split; [exact (mkdir_p_leaf _ _ _ _ E ltac:(discriminate))|].
  split; [|exact (mkdir_p_keeps _ _ _ _ E)].
  intros x. rewrite (mkdir_p_below _ _ _ _ E) by (simpl; rewrite length_app; simpl; lia).
  destruct (fs w !! ((c :: q) ++ [x])) as [n|] eqn:En; [|reflexivity].
  exfalso. apply (map_Forall_lookup_1 _ _ _ _ Htree) in En.
  rewrite removelast_last in En. destruct En as [En|En].
  - destruct q; discriminate.
  - pose proof (mkdir_p_fresh_leaf _ _ _ _ E ltac:(discriminate)) as Hnone.
    simpl in Hnone. congruence.
Qed.

(** What holds when the reduction stage has returned. *)
Lemma reduction_stage_post (libraries : list LibrarySet) (limit : Z)
    (w w' : world) (text : string) :
  fs w !! to_abs (cwd w) outdir = Some Dir ->
  (forall x, x <> "contigs.fa" -> fs w !! (to_abs (cwd w) outdir ++ [x]) = None) ->
  reaches 37 w (contigsFname outdir) text ->
  reduction_stage ext outdir identity overlap minLength reduction verbose
                  libraries limit w = (Ret tt, w') ->
  cwd w' = cwd w /\
  fs w' !! to_abs (cwd w) outdir = Some Dir /\
  (forall x, x <> "contigs.fa" -> x <> "contigs.reduced.fa" ->
             fs w' !! (to_abs (cwd w) outdir ++ [x]) = None) /\
  (exists text', reaches 38 w' (reducedFname outdir) text') /\
  (reduction = false ->
   fs w' !! (to_abs (cwd w) outdir ++ ["contigs.reduced.fa"]) =
     Some (Link (path_join (Path true (cwd w)) (contigsFname outdir)))).
Proof.
  intros Hdir Hfree Hin Hrun.
  set (D := to_abs (cwd w) outdir) in *.
  assert (HD : forall x, D <> D ++ [x]).
  { intros x E. apply (f_equal List.length) in E. rewrite length_app in E.
    simpl in E. lia. }
  assert (Hins : forall n,
            let v := World (<[D ++ ["contigs.reduced.fa"] := n]> (fs w))
                           (cwd w) (stderr w) (calls w) in
            fs v !! D = Some Dir /\
            forall x, x <> "contigs.fa" -> x <> "contigs.reduced.fa" ->
                      fs v !! (D ++ [x]) = None).
  { intros n v. unfold v. cbn [fs]. split.
    - rewrite lookup_insert_ne by (intros E; symmetry in E; exact (HD _ E)). exact Hdir.
    - intros x Hc Hr. rewrite lookup_insert_ne; [now apply Hfree|].
      intros E. apply app_inj_tail in E as [_ E]. congruence. }
  unfold reduction_stage in Hrun. destruct reduction.
  - do 6 bind_inv Hrun.
    assert (Hk0 : fs_kept w w0).
    { eapply (keeps_ret_inv fs_kept); [|exact H]. destruct verbose.
      - apply (keeps_bind fs_kept); [apply fs_write_stderr|].
        intros _. apply fs_write_stderr.
      - apply (keeps_ret fs_kept). }
    destruct Hk0 as [Hf0 Hc0]. destruct a0.
    apply write_file_at in H0.
    2:{ left. rewrite Hf0, Hc0. unfold reducedFname. rewrite to_abs_in_dir.
        apply Hfree. discriminate. }
    rewrite Hf0, Hc0 in H0. unfold reducedFname in H0. rewrite to_abs_in_dir in H0.
    fold D in H0.
    assert (Hk4 : fs_kept w1 w5).
    { transitivity w2; [eapply (keeps_ret_inv fs_kept); [apply (keeps_open_r _)|exact H1]|].
      transitivity w3; [eapply (keeps_ret_inv fs_kept); [apply (keeps_read _)|exact H2]|].
      transitivity w4; [eapply (keeps_ret_inv fs_kept); [apply fs_record_call|exact H3]|].
      eapply (keeps_ret_inv fs_kept); [apply (keeps_lift _)|exact H4]. }
    destruct Hk4 as [Hf4 Hc4].
    apply write_file_at in Hrun.
    2:{ right. rewrite Hf4, Hc4, H0. cbn [fs cwd]. unfold reducedFname.
        rewrite to_abs_in_dir. fold D. rewrite lookup_insert_eq. eauto. }
    rewrite Hf4, Hc4, H0 in Hrun. cbn [fs cwd] in Hrun.
    unfold reducedFname in Hrun. rewrite to_abs_in_dir in Hrun. fold D in Hrun.
    rewrite insert_insert_eq in Hrun.
    destruct (Hins (File a4)) as [Hd' Hfree'].
    subst w'. cbn [cwd fs]. split; [reflexivity|]. split; [exact Hd'|].
    split; [exact Hfree'|]. split; [|discriminate].
    exists a4, (D ++ ["contigs.reduced.fa"]). cbn [cwd fs].
    unfold reducedFname. rewrite to_abs_in_dir. fold D.
    rewrite follow_S, !lookup_insert_eq. split; reflexivity.
  - assert (H37 : (37 <= 39)%nat) by lia.
    destruct (symlink_forward_n 37 w outdir (contigsFname outdir) "contigs.reduced.fa"
                text H37 Hdir (Hfree "contigs.reduced.fa" ltac:(discriminate)) Hin) as (Hs & Hout & _).
    unfold reducedFname in Hrun. rewrite Hs in Hrun. injection Hrun as <-.
    destruct (Hins (Link (path_join (Path true (cwd w)) (contigsFname outdir))))
      as [Hd' Hfree'].
    cbn [cwd fs]. split; [reflexivity|]. split; [exact Hd'|]. split; [exact Hfree'|].
    split; [exists text; exact Hout|]. intros _. apply lookup_insert_eq.
Qed.

(** What holds when the scaffolding stage has returned. *)
Lemma scaffolding_stage_post (libraries libs : list LibrarySet) (limit : Z)
    (w w' : world) (text : string) :
  fs w !! to_abs (cwd w) outdir = Some Dir ->
  (forall x, x <> "contigs.fa" -> x <> "contigs.reduced.fa" ->
             fs w !! (to_abs (cwd w) outdir ++ [x]) = None) ->
  reaches 38 w (reducedFname outdir) text ->
  scaffolding_stage ext fuel fastq outdir mapq threads joins iters sspacebin
                    scaffolding verbose libraries limit w = (Ret (Some libs), w') ->
  cwd w' = cwd w /\
  fs w' !! (to_abs (cwd w) outdir ++ ["scaffolds.filled.fa"]) = None /\
  (libraries = [] -> libs = []) /\
  (scaffolding = false ->
   fs w' !! (to_abs (cwd w) outdir ++ ["scaffolds.fa"]) =
     Some (Link (path_join (Path true (cwd w)) (reducedFname outdir)))).
Proof.
  intros Hdir Hfree Hin Hrun.
  unfold scaffolding_stage in Hrun. destruct scaffolding.
  - assert (Habs : absent_in outdir "scaffolds.filled.fa" w w').
    { eapply (keeps_ret_inv (absent_in outdir "scaffolds.filled.fa")); [|exact Hrun].
      apply (keeps_bind _).
      - unfold banner. destruct verbose; [apply absent_write_stderr | apply (keeps_ret _)].
      - intros _. apply absent_run_scaffolding. }
    destruct Habs as [Hc Hn]. split; [exact Hc|].
    split; [apply Hn, Hfree; discriminate|]. split; [|discriminate].
    intros ->. bind_inv Hrun. unfold run_scaffolding in Hrun. bind_inv Hrun.
    destruct fuel as [|n]; simpl in H0.
    + injection H0 as <- <-. discriminate.
    + injection H0 as <- <-. bind_inv Hrun. now injection Hrun as <- <-.
  - bind_inv Hrun. destruct a. injection Hrun as <- <-.
    assert (H38 : (38 <= 39)%nat) by lia.
    destruct (symlink_forward_n 38 w outdir (reducedFname outdir) "scaffolds.fa"
                text H38 Hdir
                (Hfree "scaffolds.fa" ltac:(discriminate) ltac:(discriminate)) Hin)
      as (Hs & _ & _).
    unfold scaffoldsFname in H. rewrite Hs in H. injection H as <-.
    cbn [cwd fs]. split; [reflexivity|]. split.
    + rewrite lookup_insert_ne; [apply Hfree; discriminate|].
      intros E. apply app_inj_tail in E as [_ E]. discriminate.
    + split; [now intros|]. intros _. apply lookup_insert_eq.
Qed.

Lemma get_read_limit_empty (limit : Z) (libraries : list LibrarySet) (w w' : world) :
  (forall w1 fa cap v, fastq2insert_size ext w1 fastq fa mapq threads cap v = Ret []) ->
  get_read_limit ext fastq (contigsFname outdir) mapq threads readLimit verbose w
    = (Ret (limit, libraries), w') ->
  libraries = [].
Proof.
  intros Hnone H. unfold get_read_limit in H. do 2 bind_inv H.
  injection H as <- <- <-.
  pose proof (get_libraries_empty ext fastq (contigsFname outdir) mapq threads a
                verbose w0 Hnone) as He.
  rewrite H1 in He. simpl in He. now injection He.
Qed.

(** The four artifacts of a run that returned: each can be read, and a
    stage that did not run left its output equal to its input. *)
Lemma whole_run_forwards (w w' : world) (text : string) :
  tree w ->
  reaches 36 w fasta text ->
  redundants ext fuel fastq fasta outdir mapq threads identity overlap minLength
             joins readLimit iters sspacebin reduction scaffolding gapclosing
             verbose w = (Ret (Some tt), w') ->
  (reduction = false ->
   is_link w' (reducedFname outdir) /\
   content_of w' (reducedFname outdir) = content_of w' (contigsFname outdir)) /\
  (scaffolding = false ->
   is_link w' (scaffoldsFname outdir) /\
   content_of w' (scaffoldsFname outdir) = content_of w' (reducedFname outdir)) /\
  (gapclosing = false \/
   (forall w1 fa cap v, fastq2insert_size ext w1 fastq fa mapq threads cap v = Ret []) ->
   is_link w' (nogapsFname outdir) /\
   content_of w' (nogapsFname outdir) = content_of w' (scaffoldsFname outdir)) /\
  content_of w' (contigsFname outdir) <> None /\
  content_of w' (reducedFname outdir) <> None /\
  content_of w' (scaffoldsFname outdir) <> None /\
  content_of w' (nogapsFname outdir) <> None.
Proof.
  intros Htree Hin Hrun. unfold redundants in Hrun. bind_inv Hrun. destruct a.
  apply prepare_outdir_inv in H.
  destruct (makedirs_fresh _ _ Htree H) as (Hc0 & Hdir0 & Hfree0 & Hext0).
  set (D := to_abs (cwd w) outdir) in *.
  assert (Hin0 : reaches 36 w0 fasta text).
  { destruct Hin as (q & Hq & Hf). exists q. rewrite Hc0.
    split; [|exact (Hext0 _ _ Hf)].
    apply (follow_extends _ _ _ _ _ Hext0 Hq). congruence. }
  unfold run_stages in Hrun.
  (* the contigs link *)
  bind_inv Hrun. destruct a.
  assert (H36 : (36 <= 39)%nat) by lia.
  assert (Hdir0' : fs w0 !! to_abs (cwd w0) outdir = Some Dir) by now rewrite Hc0.
  assert (Hfree0' : fs w0 !! (to_abs (cwd w0) outdir ++ ["contigs.fa"]) = None)
    by (rewrite Hc0; apply Hfree0).
  destruct (symlink_forward_n 36 w0 outdir fasta "contigs.fa" text H36 Hdir0' Hfree0'
              Hin0) as (Hs & Hout & _).
  unfold contigsFname in H0. rewrite Hs in H0. injection H0 as Hw1.
  fold (contigsFname outdir) in Hout.
  assert (Hc1 : cwd w1 = cwd w) by (now rewrite <- Hw1).
  assert (Hdir1 : fs w1 !! D = Some Dir).
  { rewrite <- Hw1. cbn [fs]. rewrite Hc0. fold D. rewrite lookup_insert_ne; [exact Hdir0|].
    intros E. apply (f_equal List.length) in E. rewrite length_app in E.
    simpl in E. lia. }
  assert (Hfree1 : forall x, x <> "contigs.fa" -> fs w1 !! (D ++ [x]) = None).
  { intros x Hx. rewrite <- Hw1. cbn [fs]. rewrite Hc0. fold D.
    rewrite lookup_insert_ne; [apply Hfree0|].
    intros E. apply app_inj_tail in E as [_ E]. congruence. }
  rewrite Hw1 in Hout. clear Hs Hw1 Hdir0' Hfree0' Hin0.
  (* the read limit and the classification *)
  bind_inv Hrun. destruct a as [limit libraries].
  assert (Hk2 : fs_kept w1 w2).
  { eapply (keeps_ret_inv fs_kept); [|exact H0].
    apply (all_get_read_limit fs_kept fs_write_stderr fs_record_call). }
  pose proof (reaches_same_fs _ _ _ _ _ Hk2 Hout) as Hout2.
  destruct Hk2 as [Hf2 Hc2].
  assert (Hc2' : cwd w2 = cwd w) by congruence.
  (* reduction *)
  bind_inv Hrun. destruct a.
  destruct (reduction_stage_post libraries limit w2 w3 text) as
    (Hc3 & Hdir3 & Hfree3 & (text3 & Hred3) & Hlink3);
    [rewrite Hc2', Hf2; exact Hdir1
    |intros x Hx; rewrite Hc2', Hf2; now apply Hfree1
    |exact Hout2 | exact H1 |].
  rewrite Hc2' in Hc3, Hdir3, Hfree3, Hlink3. fold D in Hdir3, Hfree3, Hlink3.
  (* scaffolding *)
  bind_inv Hrun. destruct a as [libs|]; [|discriminate].
  assert (Hk4 : entries_kept w3 w4).
  { eapply (keeps_ret_inv entries_kept); [|exact H2].
    apply (all_scaffolding_stage entries_kept entries_write_stderr entries_record_call
             entries_os_symlink entries_sspace_writes). }
  destruct (scaffolding_stage_post libraries libs limit w3 w4 text3) as
    (Hc4 & Hfree4 & Hlibs & Hlink4);
    [rewrite Hc3; exact Hdir3
    |intros x Hx Hy; rewrite Hc3; now apply Hfree3
    |exact Hred3 | exact H2 |].
  rewrite Hc3 in Hc4, Hfree4, Hlink4. fold D in Hfree4, Hlink4.
  (* gap closing *)
  bind_inv Hrun. destruct a.
  assert (Hk5 : entries_kept w4 w5).
  { eapply (keeps_ret_inv entries_kept); [|exact H3].
    apply (all_gapclosing_stage entries_kept entries_write_stderr entries_record_call
             entries_write_file entries_os_symlink). }
  (* the report *)
  bind_inv Hrun. destruct a. injection Hrun as <-.
  destruct (report_stage_reads _ _ _ _ _ H4) as (Hk6 & Rc & Rr & Rs & Rn).
  assert (Hc5 : cwd w5 = cwd w) by (destruct Hk5 as [E _]; congruence).
  assert (Hc6 : cwd w6 = cwd w) by (destruct Hk6 as [_ E]; congruence).
  assert (Hl6 : forall k t, fs w4 !! k = Some (Link t) -> fs w6 !! k = Some (Link t)).
  { intros k t Hk. destruct Hk5 as (_ & Hl & _). destruct Hk6 as [E _].
    rewrite E. now apply Hl. }
  split; [|split; [|split; [|now repeat split]]].
  - intros Hoff. specialize (Hlink3 Hoff).
    destruct Hk4 as (_ & Hl4 & _). apply Hl4, Hl6 in Hlink3.
    assert (Hl : fs w6 !! to_abs (cwd w6) (reducedFname outdir) =
                 Some (Link (path_join (Path true (cwd w)) (contigsFname outdir)))).
    { unfold reducedFname. rewrite to_abs_in_dir, Hc6. exact Hlink3. }
    split; [eexists; exact Hl|].
    destruct (content_of w6 (reducedFname outdir)) as [t|] eqn:Et; [|contradiction].
    symmetry. eapply link_forward_end; [exact Hl| |exact Et].
    rewrite to_abs_realpath. now rewrite Hc6.
  - intros Hoff. specialize (Hlink4 Hoff). apply Hl6 in Hlink4.
    assert (Hl : fs w6 !! to_abs (cwd w6) (scaffoldsFname outdir) =
                 Some (Link (path_join (Path true (cwd w)) (reducedFname outdir)))).
    { unfold scaffoldsFname. rewrite to_abs_in_dir, Hc6. exact Hlink4. }
    split; [eexists; exact Hl|].
    destruct (content_of w6 (scaffoldsFname outdir)) as [t|] eqn:Et; [|contradiction].
    symmetry. eapply link_forward_end; [exact Hl| |exact Et].
    rewrite to_abs_realpath. now rewrite Hc6.
  - intros Hoff.
    assert (Hcond : gapclosing && bool_decide (libs <> []) = false).
    { destruct Hoff as [-> | Hnone]; [reflexivity|].
      rewrite (Hlibs (get_read_limit_empty _ _ _ _ Hnone H0)).
      rewrite bool_decide_eq_false_2 by congruence. apply andb_false_r. }
    unfold gapclosing_stage in H3. rewrite Hcond in H3.
    assert (Hfree4' : fs w4 !! (to_abs (cwd w4) outdir ++ ["scaffolds.filled.fa"]) = None)
      by (rewrite Hc4; exact Hfree4).
    split.
    { destruct (symlink_makes_link _ _ _ _ _ Hfree4' H3) as (_ & t & Ht).
      exists t. unfold nogapsFname. rewrite to_abs_in_dir, Hc6, <- Hc4.
      destruct Hk6 as [E _]. now rewrite E. }
    rewrite (content_same_fs _ _ (nogapsFname outdir) Hk6) in Rn.
    rewrite (content_same_fs _ _ (scaffoldsFname outdir) Hk6) in Rs.
    rewrite !(content_same_fs _ _ _ Hk6).
    destruct (content_of w5 (nogapsFname outdir)) as [a|] eqn:Ea; [|contradiction].
    destruct (content_of w5 (scaffoldsFname outdir)) as [b|] eqn:Eb; [|contradiction].
    f_equal. apply (forward_by_symlink w4 w5 outdir (scaffoldsFname outdir)
                      "scaffolds.filled.fa" a b); [exact Hfree4'|exact H3|exact Ea|exact Eb].
Qed.

End WholeRun.

(** ** Disabled stages *)

(** C6.  A disabled stage forwards its input by reference.  In a world
    where the run directory exists, the canonical output name is still
    free and the input artifact can be read, the disabled reduction stage,
    the disabled scaffolding stage, and the gap-closing stage that is
    disabled or has an empty classification each return normally after
    making the output name a symbolic link to the input artifact; no
    collaborator is invoked, and afterwards output and input lead to the
    same content.  For a whole run of [redundants] that returned, started
    in a well-formed file system where the input assembly can be read: the
    four artifacts can all be read; when reduction is off, the reduced
    contigs are a link and lead to the content of the contigs; when
    scaffolding is off, the scaffolds are a link and lead to the content of
    the reduced contigs; when gap closing is off, or the statistics
    collaborator never yields a usable read pair, the gap-filled scaffolds
    are a link and lead to the content of the scaffolds.  Whole runs with
    one stage switched off, and a run whose classification is empty,
    return and end with the forwarded artifacts equal. *)
Theorem disabled_stage_forwards :
  (forall (ext : Collaborators) (outdir : path) (identity overlap : Q)
          (minLength : Z) (verbose : bool) (libraries : list LibrarySet) (limit : Z)
          (w : world) (text : string),
     fs w !! to_abs (cwd w) outdir = Some Dir ->
     fs w !! to_abs (cwd w) (reducedFname outdir) = None ->
     reaches 39 w (contigsFname outdir) text ->
     exists w',
       reduction_stage ext outdir identity overlap minLength false verbose
                       libraries limit w = (Ret tt, w') /\
       content_of w' (reducedFname outdir) = Some text /\
       content_of w' (contigsFname outdir) = Some text /\
       fs w' !! to_abs (cwd w') (reducedFname outdir) =
         Some (Link (path_join (Path true (cwd w)) (contigsFname outdir))) /\
       calls w' = calls w) /\
  (forall (ext : Collaborators) (fuel : nat) (fastq : list path) (outdir : path)
          (mapq threads joins iters : Z) (sspacebin : string) (verbose : bool)
          (libraries : list LibrarySet) (limit : Z) (w : world) (text : string),
     fs w !! to_abs (cwd w) outdir = Some Dir ->
     fs w !! to_abs (cwd w) (scaffoldsFname outdir) = None ->
     reaches 39 w (reducedFname outdir) text ->
     exists w',
       scaffolding_stage ext fuel fastq outdir mapq threads joins iters sspacebin
                         false verbose libraries limit w = (Ret (Some libraries), w') /\
       content_of w' (scaffoldsFname outdir) = Some text /\
       content_of w' (reducedFname outdir) = Some text /\
       fs w' !! to_abs (cwd w') (scaffoldsFname outdir) =
         Some (Link (path_join (Path true (cwd w)) (reducedFname outdir))) /\
       calls w' = calls w) /\
  (forall (ext : Collaborators) (outdir : path) (mapq threads iters : Z)
          (gapclosing verbose : bool) (libraries : list LibrarySet) (limit : Z)
          (w : world) (text : string),
     gapclosing = false \/ libraries = [] ->
     fs w !! to_abs (cwd w) outdir = Some Dir ->
     fs w !! to_abs (cwd w) (nogapsFname outdir) = None ->
     reaches 39 w (scaffoldsFname outdir) text ->
     exists w',
       gapclosing_stage ext outdir mapq threads iters gapclosing verbose
                        libraries limit w = (Ret tt, w') /\
       content_of w' (nogapsFname outdir) = Some text /\
       content_of w' (scaffoldsFname outdir) = Some text /\
       fs w' !! to_abs (cwd w') (nogapsFname outdir) =
         Some (Link (path_join (Path true (cwd w)) (scaffoldsFname outdir))) /\
       calls w' = calls w) /\
  (forall (ext : Collaborators) (fuel : nat) (fastq : list path) (fasta outdir : path)
          (mapq threads : Z) (identity overlap : Q) (minLength joins : Z)
          (readLimit : Q) (iters : Z) (sspacebin : string)
          (reduction scaffolding gapclosing verbose : bool)
          (w w' : world) (text : string),
     tree w ->
     reaches 36 w fasta text ->
     redundants ext fuel fastq fasta outdir mapq threads identity overlap minLength
                joins readLimit iters sspacebin reduction scaffolding gapclosing
                verbose w = (Ret (Some tt), w') ->
     (reduction = false ->
      is_link w' (reducedFname outdir) /\
      content_of w' (reducedFname outdir) = content_of w' (contigsFname outdir)) /\
     (scaffolding = false ->
      is_link w' (scaffoldsFname outdir) /\
      content_of w' (scaffoldsFname outdir) = content_of w' (reducedFname outdir)) /\
     (gapclosing = false \/
      (forall w1 fa cap v,
         fastq2insert_size ext w1 fastq fa mapq threads cap v = Ret []) ->
      is_link w' (nogapsFname outdir) /\
      content_of w' (nogapsFname outdir) = content_of w' (scaffoldsFname outdir)) /\
     content_of w' (contigsFname outdir) <> None /\
     content_of w' (reducedFname outdir) <> None /\
     content_of w' (scaffoldsFname outdir) <> None /\
     content_of w' (nogapsFname outdir) <> None) /\
  (let r := Scenario.run Scenario.ext false true true in
   r.1 = Ret (Some tt) /\
   content_of r.2 (reducedFname (rel ["out"])) = Some "ACGT" /\
   content_of r.2 (contigsFname (rel ["out"])) = Some "ACGT") /\
  (let r := Scenario.run Scenario.ext true false true in
   r.1 = Ret (Some tt) /\
   content_of r.2 (scaffoldsFname (rel ["out"])) = Some "ACGT-reduced" /\
   content_of r.2 (reducedFname (rel ["out"])) = Some "ACGT-reduced") /\
  (let r := Scenario.run Scenario.ext true true false in
   r.1 = Ret (Some tt) /\
   content_of r.2 (nogapsFname (rel ["out"])) =
     content_of r.2 (scaffoldsFname (rel ["out"])) /\
   content_of r.2 (scaffoldsFname (rel ["out"])) <> None) /\
  (let r := Scenario.run Scenario.ext_none true true true in
   r.1 = Ret (Some tt) /\
   content_of r.2 (nogapsFname (rel ["out"])) = Some "ACGT-reduced" /\
   content_of r.2 (scaffoldsFname (rel ["out"])) = Some "ACGT-reduced").
Proof.
  split; [|split; [|split; [|split]]].
  - intros ext outdir identity overlap minLength verbose libraries limit w text
           Hdir Hfree Hin.
    unfold reducedFname in Hfree. rewrite to_abs_in_dir in Hfree.
    destruct (symlink_forward w outdir (contigsFname outdir) "contigs.reduced.fa" text
                Hdir Hfree Hin) as (Hrun & Hout & Hinp).
    eexists. split; [exact Hrun|]. split; [exact Hout|]. split; [exact Hinp|].
    split; [|reflexivity].
    cbn [cwd fs]. unfold reducedFname. rewrite to_abs_in_dir. apply lookup_insert_eq.
  - intros ext fuel fastq outdir mapq threads joins iters sspacebin verbose libraries
           limit w text Hdir Hfree Hin.
    unfold scaffoldsFname in Hfree. rewrite to_abs_in_dir in Hfree.
    destruct (symlink_forward w outdir (reducedFname outdir) "scaffolds.fa" text
                Hdir Hfree Hin) as (Hrun & Hout & Hinp).
    eexists. split.
    { unfold scaffolding_stage. rewrite (bind_ret _ _ w tt _ Hrun). reflexivity. }
    split; [exact Hout|]. split; [exact Hinp|]. split; [|reflexivity].
    cbn [cwd fs]. unfold scaffoldsFname. rewrite to_abs_in_dir. apply lookup_insert_eq.
  - intros ext outdir mapq threads iters gapclosing verbose libraries limit w text
           Hoff Hdir Hfree Hin.
    unfold nogapsFname in Hfree. rewrite to_abs_in_dir in Hfree.
    destruct (symlink_forward w outdir (scaffoldsFname outdir) "scaffolds.filled.fa" text
                Hdir Hfree Hin) as (Hrun & Hout & Hinp).
    assert (Hcond : gapclosing && bool_decide (libraries <> []) = false).
    { destruct Hoff as [-> | ->]; [reflexivity|].
      rewrite bool_decide_eq_false_2 by congruence. apply andb_false_r. }
    eexists. split.
    { unfold gapclosing_stage. rewrite Hcond. exact Hrun. }
    split; [exact Hout|]. split; [exact Hinp|]. split; [|reflexivity].
    cbn [cwd fs]. unfold nogapsFname. rewrite to_abs_in_dir. apply lookup_insert_eq.
  - intros ext fuel fastq fasta outdir mapq threads identity overlap minLength joins
           readLimit iters sspacebin reduction scaffolding gapclosing verbose w w' text.
    apply whole_run_forwards.
  - split; [|split; [|split]]; cbv zeta.
    + split; [|split]; vm_compute; reflexivity.
    + split; [|split]; vm_compute; reflexivity.
    + split; [|split]; vm_compute; [reflexivity | reflexivity | discriminate].
    + split; [|split]; vm_compute; reflexivity.
Qed.

Lemma disabled_stage_forwards_witness :
  (exists w',
     reduction_stage Scenario.ext (rel ["out"]) (8 # 10) (75 # 100) 200 false true
                     [] 0 Scenario.w_contigs = (Ret tt, w') /\
     content_of w' (reducedFname (rel ["out"])) = Some "ACGT" /\
     content_of w' (contigsFname (rel ["out"])) = Some "ACGT" /\
     fs w' !! to_abs (cwd w') (reducedFname (rel ["out"])) =
       Some (Link (path_join (Path true (cwd Scenario.w_contigs))
                             (contigsFname (rel ["out"])))) /\
     calls w' = calls Scenario.w_contigs) /\
  (exists w',
     scaffolding_stage Scenario.ext 3 Scenario.fastq (rel ["out"]) 10 2 5 2 "sspace"
                       false true [Scenario.set_short] 0 Scenario.w_reduced
       = (Ret (Some [Scenario.set_short]), w') /\
     content_of w' (scaffoldsFname (rel ["out"])) = Some "ACGT-reduced" /\
     content_of w' (reducedFname (rel ["out"])) = Some "ACGT-reduced" /\
     fs w' !! to_abs (cwd w') (scaffoldsFname (rel ["out"])) =
       Some (Link (path_join (Path true (cwd Scenario.w_reduced))
                             (reducedFname (rel ["out"])))) /\
     calls w' = calls Scenario.w_reduced) /\
  (exists w',
     gapclosing_stage Scenario.ext (rel ["out"]) 10 2 2 true true [] 0
                      Scenario.w_scaffolds = (Ret tt, w') /\
     content_of w' (nogapsFname (rel ["out"])) = Some "ACGT-scaffolded" /\
     content_of w' (scaffoldsFname (rel ["out"])) = Some "ACGT-scaffolded" /\
     fs w' !! to_abs (cwd w') (nogapsFname (rel ["out"])) =
       Some (Link (path_join (Path true (cwd Scenario.w_scaffolds))
                             (scaffoldsFname (rel ["out"])))) /\
     calls w' = calls Scenario.w_scaffolds) /\
  (let w' := (Scenario.run Scenario.ext_none false false true).2 in
   tree Scenario.w0 /\
   reaches 36 Scenario.w0 (rel ["asm.fa"]) "ACGT" /\
   (is_link w' (reducedFname (rel ["out"])) /\
    content_of w' (reducedFname (rel ["out"])) =
      content_of w' (contigsFname (rel ["out"]))) /\
   (is_link w' (scaffoldsFname (rel ["out"])) /\
    content_of w' (scaffoldsFname (rel ["out"])) =
      content_of w' (reducedFname (rel ["out"]))) /\
   (is_link w' (nogapsFname (rel ["out"])) /\
    content_of w' (nogapsFname (rel ["out"])) =
      content_of w' (scaffoldsFname (rel ["out"]))) /\
   content_of w' (contigsFname (rel ["out"])) <> None).
Proof.
  destruct disabled_stage_forwards as (Hred & Hscaf & Hgap & Hwhole & _).
  split; [|split; [|split]].
  - apply Hred; [reflexivity | reflexivity |].
    exists ["data"; "asm.fa"]. split; reflexivity.
  - apply Hscaf; [reflexivity | reflexivity |].
    exists ["data"; "out"; "contigs.reduced.fa"]. split; reflexivity.
  - apply Hgap; [now right | reflexivity | reflexivity |].
    exists ["data"; "out"; "scaffolds.fa"]. split; reflexivity.
  - cbv zeta.
    assert (Htree : tree Scenario.w0).
    { apply map_Forall_to_list. vm_compute.
      repeat (constructor; [first [left; reflexivity | right; reflexivity]|]).
      constructor. }
    assert (Hin : reaches 36 Scenario.w0 (rel ["asm.fa"]) "ACGT").
    { exists ["data"; "asm.fa"]. split; reflexivity. }
    assert (Hrun : redundants Scenario.ext_none 3 Scenario.fastq (rel ["asm.fa"])
                     (rel ["out"]) 10 2 (8 # 10) (75 # 100) 200 5 (2 # 10) 2 "sspace"
                     false false true false Scenario.w0
                   = (Ret (Some tt),
                      (Scenario.run Scenario.ext_none false false true).2)).
    { unfold Scenario.run. apply run_eq. vm_compute. reflexivity. }
    destruct (Hwhole _ _ _ _ _ _ _ _ _ _ _ _ _ _ _ _ _ _ _ _ _ Htree Hin Hrun)
      as (Hr & Hs & Hg & Hc & _).
    split; [exact Htree|]. split; [exact Hin|].
    split; [exact (Hr eq_refl)|]. split; [exact (Hs eq_refl)|].
    split; [|exact Hc]. apply Hg. right. reflexivity.
Defined.

(** * Further properties of the code *)

(** ** [get_orientation] outside its intended inputs *)

Lemma first_argmax_unique (l : list Z) (i j : nat) (m n : Z) :
  first_argmax l i m -> first_argmax l j n -> i = j /\ m = n.
Proof.
  intros (Hi & Hmax & Hfirst) (Hj & Hmax' & Hfirst').
  assert (m = n) as ->.
  { pose proof (Hmax _ _ Hj). pose proof (Hmax' _ _ Hi). lia. }
  split; [|reflexivity].
  destruct (Nat.lt_total i j) as [H|[H|H]]; [|exact H|].
  - specialize (Hfirst' _ _ H Hi). lia.
  - specialize (Hfirst _ _ H Hj). lia.
Qed.

(** [get_orientation] has no guard of its own.  On an empty vector of
    counts [max] raises [ValueError]; when the first largest count stands
    at the fifth position or later, the look-up in the four orientations
    raises [IndexError]; otherwise, when the counts sum to zero, the
    percentage raises [ZeroDivisionError].  Nothing is written in any of
    these cases. *)
Theorem get_orientation_errors (ps : list Z) (f1 f2 : path) (w : world) :
  (ps = [] -> get_orientation ps f1 f2 w = (Raise ValueError, w)) /\
  (forall i m, first_argmax ps i m -> (4 <= i)%nat ->
     get_orientation ps f1 f2 w = (Raise IndexError, w)) /\
  (forall i m, first_argmax ps i m -> (i < 4)%nat -> py_sum ps = 0%Z ->
     get_orientation ps f1 f2 w = (Raise ZeroDivisionError, w)).
Proof.
  split; [intros ->; reflexivity|].
  assert (Hstart : forall i m, first_argmax ps i m ->
            py_max ps = Ret m /\ py_index ps m = Ret i).
  { intros i m Harg.
    assert (Hne : ps <> []) by (intros ->; destruct Harg as [H _]; discriminate).
    destruct (max_index_argmax ps Hne) as (i0 & m0 & Hmax & Hidx & Harg0).
    destruct (first_argmax_unique _ _ _ _ _ Harg Harg0) as [-> ->]. now split. }
  split.
  - intros i m Harg Hi. destruct (Hstart i m Harg) as [Hmax Hidx].
    unfold get_orientation.
    rewrite (bind_ret _ _ w m w) by now rewrite lift_ret, Hmax.
    rewrite (bind_ret _ _ w i w) by now rewrite lift_ret, Hidx.
    apply bind_raise. rewrite lift_ret. unfold py_getitem.
    rewrite (proj2 (lookup_ge_None orientations i)); [reflexivity | simpl; lia].
  - intros i m Harg Hi Hsum. destruct (Hstart i m Harg) as [Hmax Hidx].
    destruct (orientations !! i) as [o|] eqn:Ho.
    2:{ apply lookup_ge_None in Ho. simpl in Ho. lia. }
    unfold get_orientation.
    rewrite (bind_ret _ _ w m w) by now rewrite lift_ret, Hmax.
    rewrite (bind_ret _ _ w i w) by now rewrite lift_ret, Hidx.
    rewrite (bind_ret _ _ w o w) by (rewrite lift_ret; unfold py_getitem; now rewrite Ho).
    apply bind_raise. rewrite lift_ret, Hsum. reflexivity.
Qed.

Lemma get_orientation_errors_witness :
  (forall f1 f2 w, get_orientation [] f1 f2 w = (Raise ValueError, w)) /\
  (forall f1 f2 w,
     get_orientation [1; 2; 3; 4; 9]%Z f1 f2 w = (Raise IndexError, w)) /\
  (forall f1 f2 w,
     get_orientation [0; 0; 0; 0]%Z f1 f2 w = (Raise ZeroDivisionError, w)).
Proof.
  split; [|split]; intros f1 f2 w.
  - exact (proj1 (get_orientation_errors [] f1 f2 w) eq_refl).
  - apply (proj1 (proj2 (get_orientation_errors [1; 2; 3; 4; 9]%Z f1 f2 w)) 4%nat 9%Z);
      [|lia].
    split; [reflexivity|]. split.
    + intros j y. do 5 (destruct j as [|j]; [intros [= <-]; lia|]). discriminate.
    + intros j y Hj. do 4 (destruct j as [|j]; [intros [= <-]; lia|]). lia.
  - apply (proj2 (proj2 (get_orientation_errors [0; 0; 0; 0]%Z f1 f2 w)) 0%nat 0%Z);
      [|lia|reflexivity].
    split; [reflexivity|]. split.
    + intros j y. do 4 (destruct j as [|j]; [intros [= <-]; lia|]). discriminate.
    + intros j y Hj. lia.
Defined.

(** ** [symlink] on a name that is taken *)

(** [symlink] never replaces an entry.  When [file2] names an existing
    entry, the world is left as it is: the call returns if the entry leads
    to a regular file, and raises [OSError] otherwise (a directory, a
    dangling link).  So once [symlink] has made a link to a readable
    artifact, a second call for the same name, whatever its source, changes
    nothing: the name still leads to the content of the first. *)
Theorem symlink_never_replaces :
  (forall (file1 file2 : path) (w : world),
     fs w !! to_abs (cwd w) file2 <> None ->
     symlink file1 file2 w = (if isfile w file2 then Ret tt else Raise OSError, w)) /\
  (forall (w : world) (dir input other : path) (name text : string),
     fs w !! to_abs (cwd w) dir = Some Dir ->
     fs w !! (to_abs (cwd w) dir ++ [name]) = None ->
     reaches 39 w input text ->
     exists w',
       symlink input (path_join dir (rel [name])) w = (Ret tt, w') /\
       symlink other (path_join dir (rel [name])) w' = (Ret tt, w') /\
       content_of w' (path_join dir (rel [name])) = Some text).
Proof.
  assert (Htaken : forall file1 file2 w,
            fs w !! to_abs (cwd w) file2 <> None ->
            symlink file1 file2 w = (if isfile w file2 then Ret tt else Raise OSError, w)).
  { intros file1 file2 w Hex. unfold symlink.
    rewrite (bind_ret _ _ w w w) by reflexivity.
    destruct (isfile w file2); [reflexivity|]. cbn [negb].
    assert (Hos : forall t, os_symlink t file2 w = (Raise OSError, w)).
    { intros t. unfold os_symlink.
      destruct (fs w !! to_abs (cwd w) file2) as [[c|t'|]|]; [reflexivity.. | congruence]. }
    destruct (isfile w _); apply Hos. }
  split; [exact Htaken|].
  intros w dir input other name text Hdir Hfree Hin.
  destruct (symlink_forward w dir input name text Hdir Hfree Hin) as (Hrun & Hout & _).
  eexists. split; [exact Hrun|]. split; [|exact Hout].
  rewrite Htaken.
  - now rewrite (content_isfile _ _ _ Hout).
  - cbn [cwd fs]. rewrite to_abs_in_dir, lookup_insert_eq. discriminate.
Qed.

Lemma symlink_never_replaces_witness :
  (symlink (rel ["asm.fa"]) (rel ["out"]) Scenario.w_out
     = (Raise OSError, Scenario.w_out)) /\
  (exists w',
     symlink (rel ["asm.fa"]) (rel ["out"; "contigs.fa"]) Scenario.w_out = (Ret tt, w') /\
     symlink (rel ["a_1.fq"]) (rel ["out"; "contigs.fa"]) w' = (Ret tt, w') /\
     content_of w' (rel ["out"; "contigs.fa"]) = Some "ACGT").
Proof.
  destruct symlink_never_replaces as [Htaken Htwice]. split.
  - apply (Htaken (rel ["asm.fa"]) (rel ["out"]) Scenario.w_out). discriminate.
  - apply (Htwice Scenario.w_out (rel ["out"]) (rel ["asm.fa"]) (rel ["a_1.fq"])
             "contigs.fa" "ACGT"); [reflexivity | reflexivity |].
    exists ["data"; "asm.fa"]. split; reflexivity.
Defined.

(** ** [get_read_limit] when the assembly statistics cannot be used *)

Lemma content_none_isfile (w : world) (p : path) :
  content_of w p = None -> isfile w p = false.
Proof.
  unfold content_of, isfile. destruct (stat w p) as [[c|t|]|]; now intros.
Qed.

Lemma holds_foreign_lstrip (s : string) :
  holds foreign s = true -> holds foreign (lstrip s) = true.
Proof.
  induction s as [|c s IH]; [discriminate|]. simpl.
  destruct (is_space c) eqn:E; [|now intros].
  unfold foreign at 1. rewrite E. simpl. exact IH.
Qed.

Lemma holds_foreign_digits (s : string) :
  forall acc, holds foreign s = true ->
              holds foreign (read_digits acc s).2 = true.
Proof.
  induction s as [|c s IH]; intros acc; [discriminate|]. simpl.
  destruct (digit_of c) as [d|] eqn:E; [|now intros].
  unfold foreign at 1. simpl. rewrite E. rewrite andb_false_r. simpl. apply IH.
Qed.

(** [int] refuses a string that holds a character other than decimal
    digits, blanks and signs. *)
Lemma int_of_str_foreign (s : string) :
  holds foreign s = true -> int_of_str s = Raise ValueError.
Proof.
  intros H. apply holds_foreign_lstrip in H. unfold int_of_str.
  set (s1 := lstrip s) in *.
  assert (Hsign : holds foreign
            (match s1 with
             | String "-" s' => ((-1)%Z, s')
             | String "+" s' => (1%Z, s')
             | _ => (1%Z, s1)
             end).2 = true).
  { destruct s1 as [|c s']; [discriminate|].
    destruct (Ascii.eqb c "-") eqn:Em.
    - apply Ascii.eqb_eq in Em. subst c. exact H.
    - destruct (Ascii.eqb c "+") eqn:Ep.
      + apply Ascii.eqb_eq in Ep. subst c. exact H.
      + apply Ascii.eqb_neq in Em, Ep.
        destruct c as [[] [] [] [] [] [] [] []]; try exact H; congruence. }
  destruct (match s1 with
            | String "-" s' => ((-1)%Z, s')
            | String "+" s' => (1%Z, s')
            | _ => (1%Z, s1)
            end) as [sign s2].
  cbn [snd] in Hsign. apply holds_foreign_lstrip in Hsign.
  destruct (starts_with_digit (lstrip s2)); [|reflexivity].
  pose proof (holds_foreign_digits (lstrip s2) 0 Hsign) as Hrest.
  destruct (read_digits 0 (lstrip s2)) as [n rest]. cbn [snd] in Hrest.
  apply holds_foreign_lstrip in Hrest.
  destruct (lstrip rest); [discriminate | reflexivity].
Qed.

(** What [int] reads: blanks around the numeral and a sign are accepted,
    a sign alone, an exponent, a suffix or a second numeral are not. *)
Lemma int_of_str_reads :
  int_of_str "20000000" = Ret 20000000%Z /\
  int_of_str " 20000000" = Ret 20000000%Z /\
  int_of_str "+20000000" = Ret 20000000%Z /\
  int_of_str ("20000000 " +:+ nl) = Ret 20000000%Z /\
  int_of_str "-5" = Ret (-5)%Z /\
  int_of_str "007" = Ret 7%Z /\
  int_of_str "" = Raise ValueError /\
  int_of_str "-" = Raise ValueError /\
  int_of_str "+-5" = Raise ValueError /\
  int_of_str "2e7" = Raise ValueError /\
  int_of_str "20.5" = Raise ValueError /\
  int_of_str "5L" = Raise ValueError /\
  int_of_str "12 3" = Raise ValueError.
Proof. repeat split; vm_compute; reflexivity. Qed.

(** With a read fraction configured, [get_read_limit] fails before the
    classifier is reached when the assembly cannot be opened ([IOError],
    nothing invoked), when the statistics collaborator raises (its
    exception is passed on), when its line has fewer than three
    tab-separated fields ([IndexError]), when [int] refuses the third
    field ([ValueError]), as it does whenever the field holds a character
    other than decimal digits, blanks and signs, and when the size read
    from it is too large for a float or makes the product with the read
    fraction an infinity ([OverflowError]); in the last four cases the
    statistics collaborator is the only one that has been invoked. *)
Theorem read_limit_failures (ext : Collaborators) (fastq : list path) (fasta : path)
    (mapq threads : Z) (readLimit : Q) (verbose : bool) (w : world) :
  ~ (readLimit == 0)%Q ->
  let w1 := World (fs w) (cwd w) (stderr w) (calls w ++ [CallFastaStats fasta]) in
  (content_of w fasta = None ->
   get_read_limit ext fastq fasta mapq threads readLimit verbose w = (Raise IOError, w)) /\
  (forall text e,
     content_of w fasta = Some text -> fasta_stats ext text = Raise e ->
     get_read_limit ext fastq fasta mapq threads readLimit verbose w = (Raise e, w1)) /\
  (forall text stats,
     content_of w fasta = Some text -> fasta_stats ext text = Ret stats ->
     (List.length (split_on tab stats) <= 2)%nat ->
     get_read_limit ext fastq fasta mapq threads readLimit verbose w
       = (Raise IndexError, w1)) /\
  (forall text stats field,
     content_of w fasta = Some text -> fasta_stats ext text = Ret stats ->
     split_on tab stats !! 2%nat = Some field ->
     int_of_str field = Raise ValueError \/ holds foreign field = true ->
     get_read_limit ext fastq fasta mapq threads readLimit verbose w
       = (Raise ValueError, w1)) /\
  (forall text stats field size,
     content_of w fasta = Some text -> fasta_stats ext text = Ret stats ->
     split_on tab stats !! 2%nat = Some field ->
     int_of_str field = Ret size ->
     infinite (round_double (inject_Z size)) = true \/
     infinite (round_double (readLimit * round_double (inject_Z size))) = true ->
     get_read_limit ext fastq fasta mapq threads readLimit verbose w
       = (Raise OverflowError, w1)).
Proof.
  intros Hnz w1.
  assert (Hb : Qeqb readLimit 0 = false).
  { destruct (Qeqb readLimit 0) eqn:E; [|reflexivity].
    apply Qeqb_eq in E. contradiction. }
  assert (Hopen : forall text, content_of w fasta = Some text ->
            forall B (k : string -> M B),
              bind (open_r fasta) (fun h => bind (read h) (fun text =>
                bind (record_call (CallFastaStats fasta)) (fun _ => k text))) w
              = k text w1).
  { intros text Htext B k.
    rewrite (bind_ret _ _ w fasta w)
      by (unfold open_r; now rewrite (content_isfile w fasta text)).
    rewrite (bind_ret _ _ w text w) by (unfold read; now rewrite Htext).
    now rewrite (bind_ret _ _ w tt w1). }
  unfold get_read_limit. rewrite Hb. cbn [negb].
  split; [|split; [|split; [|split]]].
  - intros Hno. apply bind_raise. apply bind_raise.
    unfold open_r. now rewrite (content_none_isfile _ _ Hno).
  - intros text e Htext Hstats. apply bind_raise. rewrite (Hopen text Htext).
    apply bind_raise. now rewrite lift_ret, Hstats.
  - intros text stats Htext Hstats Hlen. apply bind_raise. rewrite (Hopen text Htext).
    rewrite (bind_ret _ _ w1 stats w1) by now rewrite lift_ret, Hstats.
    apply bind_raise. rewrite lift_ret. unfold py_getitem.
    now rewrite (proj2 (lookup_ge_None (split_on tab stats) 2)).
  - intros text stats field Htext Hstats Hfield Hint.
    assert (Hint' : int_of_str field = Raise ValueError).
    { destruct Hint as [H|H]; [exact H | now apply int_of_str_foreign]. }
    apply bind_raise.
    rewrite (Hopen text Htext).
    rewrite (bind_ret _ _ w1 stats w1) by now rewrite lift_ret, Hstats.
    rewrite (bind_ret _ _ w1 field w1)
      by (rewrite lift_ret; unfold py_getitem; now rewrite Hfield).
    apply bind_raise. now rewrite lift_ret, Hint'.
  - intros text stats field size Htext Hstats Hfield Hsize Hinf.
    apply bind_raise.
    rewrite (Hopen text Htext).
    rewrite (bind_ret _ _ w1 stats w1) by now rewrite lift_ret, Hstats.
    rewrite (bind_ret _ _ w1 field w1)
      by (rewrite lift_ret; unfold py_getitem; now rewrite Hfield).
    rewrite (bind_ret _ _ w1 size w1) by now rewrite lift_ret, Hsize.
    destruct (infinite (round_double (inject_Z size))) eqn:E1.
    + apply bind_raise. rewrite lift_ret. unfold float_of_int. now rewrite E1.
    + destruct Hinf as [Hinf|Hinf]; [discriminate|].
      rewrite (bind_ret _ _ w1 (round_double (inject_Z size)) w1)
        by (rewrite lift_ret; unfold float_of_int; now rewrite E1).
      apply bind_raise. rewrite lift_ret. unfold float_mul. now rewrite Hinf.
Qed.

Lemma read_limit_failures_witness :
  let w1 := World (fs Scenario.w0) (cwd Scenario.w0) (stderr Scenario.w0)
                  (calls Scenario.w0 ++ [CallFastaStats (rel ["asm.fa"])]) in
  get_read_limit Scenario.ext Scenario.fastq (rel ["nope.fa"]) 10 2 (float_lit (2 # 10))
    true Scenario.w0 = (Raise IOError, Scenario.w0) /\
  get_read_limit Cases.ext_short_stats Scenario.fastq (rel ["asm.fa"]) 10 2
    (float_lit (2 # 10)) true Scenario.w0 = (Raise IndexError, w1) /\
  get_read_limit Cases.ext_odd_stats Scenario.fastq (rel ["asm.fa"]) 10 2
    (float_lit (2 # 10)) true Scenario.w0 = (Raise ValueError, w1) /\
  get_read_limit Cases.ext_sign_stats Scenario.fastq (rel ["asm.fa"]) 10 2
    (float_lit (2 # 10)) true Scenario.w0 = (Raise ValueError, w1) /\
  get_read_limit Cases.ext_huge_stats Scenario.fastq (rel ["asm.fa"]) 10 2
    (float_lit (2 # 10)) true Scenario.w0 = (Raise OverflowError, w1).
Proof.
  intros w1.
  assert (Hnz : ~ (float_lit (2 # 10) == 0)%Q) by discriminate.
  split; [|split; [|split; [|split]]].
  - apply (read_limit_failures Scenario.ext Scenario.fastq (rel ["nope.fa"]) 10 2
             (float_lit (2 # 10)) true Scenario.w0); [exact Hnz | reflexivity].
  - apply (proj1 (proj2 (proj2
             (read_limit_failures Cases.ext_short_stats Scenario.fastq (rel ["asm.fa"])
                10 2 (float_lit (2 # 10)) true Scenario.w0 Hnz)))
             "ACGT" (Scenario.tabbed ["asm"; "12"]));
      [reflexivity | reflexivity | vm_compute; lia].
  - apply (proj1 (proj2 (proj2 (proj2
             (read_limit_failures Cases.ext_odd_stats Scenario.fastq (rel ["asm.fa"])
                10 2 (float_lit (2 # 10)) true Scenario.w0 Hnz))))
             "ACGT" (Scenario.tabbed ["asm"; "12"; "2e7"; "41.0"]) "2e7");
      [reflexivity | reflexivity | reflexivity | right; reflexivity].
  - apply (proj1 (proj2 (proj2 (proj2
             (read_limit_failures Cases.ext_sign_stats Scenario.fastq (rel ["asm.fa"])
                10 2 (float_lit (2 # 10)) true Scenario.w0 Hnz))))
             "ACGT" (Scenario.tabbed ["asm"; "12"; "-"; "41.0"]) "-");
      [reflexivity | reflexivity | reflexivity | left; reflexivity].
  - apply (proj2 (proj2 (proj2 (proj2
             (read_limit_failures Cases.ext_huge_stats Scenario.fastq (rel ["asm.fa"])
                10 2 (float_lit (2 # 10)) true Scenario.w0 Hnz))))
             "ACGT" (Scenario.tabbed ["asm"; "12"; "1" +:+ Cases.zeros 309; "41.0"])
             ("1" +:+ Cases.zeros 309) (10 ^ 309)%Z);
      [reflexivity | reflexivity | reflexivity | vm_compute; reflexivity
      | left; vm_compute; reflexivity].
Defined.

(** ** One round of the scaffolding iterator *)

Lemma append_inj_l (a b c : string) : a +:+ b = a +:+ c -> b = c.
Proof. induction a as [|x a IH]; simpl; [now intros | intros [= H]; auto]. Qed.

Lemma append_neq_l (a b : string) : b <> "" -> a +:+ b <> a.
Proof.
  intros Hb E. apply Hb. apply (append_inj_l a).
  rewrite E. clear. induction a as [|x a IH]; [reflexivity|].
  change (String x a = String x (a +:+ "")). now f_equal.
Qed.

(** [symlink] on a free name in an existing directory: the link is made,
    to the absolute path of [file1] when that is a regular file, else to
    [file1] as it was given. *)
Lemma symlink_free (w : world) (dir file1 : path) (name : string) :
  fs w !! to_abs (cwd w) dir = Some Dir ->
  fs w !! (to_abs (cwd w) dir ++ [name]) = None ->
  let file1abs := path_join (Path true (cwd w)) file1 in
  symlink file1 (path_join dir (rel [name])) w =
    (Ret tt,
     World (<[to_abs (cwd w) dir ++ [name] :=
               Link (if isfile w file1abs then file1abs else file1)]> (fs w))
           (cwd w) (stderr w) (calls w)).
Proof.
  intros Hdir Hfree file1abs.
  set (k := to_abs (cwd w) dir ++ [name]) in *.
  set (out := path_join dir (rel [name])).
  assert (Hk : to_abs (cwd w) out = k) by apply to_abs_in_dir.
  assert (Hno : isfile w out = false).
  { unfold isfile, stat. rewrite Hk. change MAXSYMLINKS with (S 39).
    rewrite follow_S, Hfree. now rewrite Hfree. }
  assert (Hos : forall t, os_symlink t out w =
            (Ret tt, World (<[k := Link t]> (fs w)) (cwd w) (stderr w) (calls w))).
  { intros t. unfold os_symlink. rewrite Hk, Hfree.
    unfold k at 1. rewrite removelast_snoc, Hdir.
    destruct (decide (k = [])) as [E|_]; [|reflexivity].
    unfold k in E. destruct (to_abs (cwd w) dir); discriminate. }
  unfold symlink. rewrite (bind_ret _ _ w w w) by reflexivity.
  fold out. rewrite Hno. cbn [negb]. fold file1abs.
  destruct (isfile w file1abs); apply Hos.
Qed.

Lemma sspace_writes_fresh (out : path) (t : string) (w : world) :
  to_abs (cwd w) out <> [] ->
  fs w !! to_abs (cwd w) out = None ->
  fs w !! (to_abs (cwd w) out ++ [basename out +:+ ".final.scaffolds.fasta"]) = None ->
  sspace_writes out (Some t) w =
    (Ret tt,
     World (<[to_abs (cwd w) out ++ [basename out +:+ ".final.scaffolds.fasta"] := File t]>
              (<[to_abs (cwd w) out := Dir]> (fs w)))
           (cwd w) (stderr w) (calls w)).
Proof.
  intros Hne Hd Hf. unfold sspace_writes. cbv zeta.
  remember (to_abs (cwd w) out) as d eqn:Ed.
  destruct d as [|c d]; [congruence|]. now rewrite Hd, Hf.
Qed.

Section Round.

Context (ext : Collaborators) (outdir : path) (mapq threads joins limit : Z)
        (sspacebin : string) (verbose : bool).

(** The link that a round leaves leads to what the scaffolder left.  In a
    run directory where the names of round [i.j] are still free, and with
    no entry [_sspace.i.j/_sspace.i.j.final.scaffolds.fasta] below the
    working directory, a round whose input can be read returns
    [<outdir>/_sspace.i.j.fa], a symbolic link; it leads to the scaffolds
    when the scaffolder completed and to nothing when it did not, since
    the outcome of the scaffolder is not examined.  In the latter case the
    failure shows only when the link is opened: the round after it raises
    [IOError]. *)
Theorem round_output (lib : LibrarySet) (i j : nat) (pout : path) (text : string)
    (res : option string) (w : world) :
  let b := "_sspace." +:+ str_of_nat i +:+ "." +:+ str_of_nat j in
  let bf := b +:+ ".final.scaffolds.fasta" in
  let D := to_abs (cwd w) outdir in
  let pout' := path_add (sspace_out outdir i j) ".fa" in
  fs w !! D = Some Dir ->
  fs w !! (D ++ [b]) = None ->
  fs w !! (D ++ [b; bf]) = None ->
  fs w !! (D ++ [b +:+ ".fa"]) = None ->
  fs w !! (cwd w ++ [b; bf]) = None ->
  content_of w pout = Some text ->
  (forall w1, fastq2sspace ext w1 (sspace_out outdir i j) text lib threads mapq limit
                joins sspacebin = Ret res) ->
  exists w',
    scaffolding_round ext outdir mapq threads joins limit sspacebin verbose lib i pout j w
      = (Ret pout', w') /\
    is_link w' pout' /\
    content_of w' pout' = res /\
    (res = None ->
     forall lib' i' j',
       (scaffolding_round ext outdir mapq threads joins limit sspacebin verbose
                          lib' i' pout' j' w').1 = Raise IOError).
Proof.
  intros b bf D pout' Hdir Hb Hf Hfa Hstale Hin Hext.
  set (out := sspace_out outdir i j).
  set (d := D ++ [b]). set (f := D ++ [b; bf]). set (kfa := D ++ [b +:+ ".fa"]).
  assert (Eout : out = path_join outdir (rel [b])) by reflexivity.
  assert (Epout : pout' = path_join outdir (rel [b +:+ ".fa"])).
  { unfold pout'. fold out. rewrite Eout. apply path_add_in_dir. }
  assert (Ebase : basename out = b).
  { rewrite Eout. unfold basename, path_join, rel. simpl. apply last_last. }
  assert (Ebf : basename (path_add out ".final.scaffolds.fasta") = bf).
  { rewrite Eout, path_add_in_dir. unfold basename, path_join, rel. simpl.
    apply last_last. }
  assert (Ed : to_abs (cwd w) out = d) by (rewrite Eout; apply to_abs_in_dir).
  assert (Hbfa : b +:+ ".fa" <> b) by (apply append_neq_l; discriminate).
  assert (Hbbf : bf <> b) by (apply append_neq_l; discriminate).
  assert (Hfabf : b +:+ ".fa" <> bf) by (intros E; apply append_inj_l in E; discriminate).
  assert (Hkd : kfa <> d) by (intros E; apply app_inj_tail in E as [_ E]; contradiction).
  assert (Hkf : kfa <> f).
  { intros E. apply (f_equal List.length) in E. unfold kfa, f in E.
    rewrite !length_app in E. simpl in E. lia. }
  assert (HDd : D <> d).
  { intros E. apply (f_equal List.length) in E. unfold d in E.
    rewrite length_app in E. simpl in E. lia. }
  assert (HDf : D <> f).
  { intros E. apply (f_equal List.length) in E. unfold f in E.
    rewrite length_app in E. simpl in E. lia. }
  assert (Hfd : f <> d).
  { intros E. apply (f_equal List.length) in E. unfold d, f in E.
    rewrite !length_app in E. simpl in E. lia. }
  set (s := cwd w ++ [b; bf]) in *.
  assert (Hsd : s <> d).
  { unfold s, d. change [b; bf] with ([b] ++ [bf]). rewrite app_assoc.
    intros E. apply app_inj_tail in E as [_ E]. contradiction. }
  assert (Hsk : s <> kfa).
  { unfold s, kfa. change [b; bf] with ([b] ++ [bf]). rewrite app_assoc.
    intros E. apply app_inj_tail in E as [_ E]. now apply Hfabf. }
  (* the worlds passed through *)
  set (w1 := if verbose
             then World (fs w) (cwd w) (stderr w ++ [IterationInfo i j]) (calls w)
             else w).
  assert (Hw1 : fs w1 = fs w /\ cwd w1 = cwd w) by (unfold w1; now destruct verbose).
  destruct Hw1 as [Hf1 Hc1].
  set (w2 := World (fs w) (cwd w) (stderr w1) (calls w1 ++ [CallSspace out pout lib limit])).
  set (fs3 := match res with
              | Some t => <[f := File t]> (<[d := Dir]> (fs w))
              | None => fs w
              end).
  set (w3 := World fs3 (cwd w) (stderr w2) (calls w2)).
  assert (Hwrites : sspace_writes out res w2 = (Ret tt, w3)).
  { unfold w3, fs3. destruct res as [t0|]; [|reflexivity].
    rewrite (sspace_writes_fresh out t0 w2); change (cwd w2) with (cwd w);
      change (fs w2) with (fs w); rewrite Ed.
    - rewrite Ebase. fold bf.
      replace (d ++ [bf]) with f by (unfold d, f; now rewrite <- app_assoc).
      reflexivity.
    - unfold d. destruct D; discriminate.
    - exact Hb.
    - rewrite Ebase. fold bf.
      replace (d ++ [bf]) with f by (unfold d, f; now rewrite <- app_assoc).
      exact Hf. }
  assert (H3D : fs3 !! D = Some Dir).
  { unfold fs3. destruct res; [|exact Hdir].
    rewrite lookup_insert_ne by (intros E; now apply HDf).
    rewrite lookup_insert_ne by (intros E; now apply HDd). exact Hdir. }
  assert (H3k : fs3 !! kfa = None).
  { unfold fs3. destruct res; [|exact Hfa].
    rewrite lookup_insert_ne by congruence.
    rewrite lookup_insert_ne by congruence. exact Hfa. }
  assert (H3f : fs3 !! f = File <$> res).
  { unfold fs3. destruct res; [apply lookup_insert_eq | exact Hf]. }
  assert (H3s : s <> f -> fs3 !! s = None).
  { intros Hsf. unfold fs3. destruct res; [|exact Hstale].
    rewrite lookup_insert_ne by congruence.
    rewrite lookup_insert_ne by congruence. exact Hstale. }
  set (tgt := path_join (rel [b]) (rel [bf])).
  set (tabs := path_join (Path true (cwd w)) tgt).
  assert (Etabs : forall base, to_abs base tabs = s) by (intros; reflexivity).
  assert (Etgt : to_abs D tgt = f) by reflexivity.
  set (t := if isfile w3 tabs then tabs else tgt).
  set (w4 := World (<[kfa := Link t]> fs3) (cwd w) (stderr w3) (calls w3)).
  assert (Hlink : symlink tgt pout' w3 = (Ret tt, w4)).
  { rewrite Epout. apply (symlink_free w3 outdir tgt (b +:+ ".fa")); cbn [cwd fs];
      [exact H3D | exact H3k]. }
  assert (Hrun : scaffolding_round ext outdir mapq threads joins limit sspacebin verbose
                   lib i pout j w = (Ret pout', w4)).
  { unfold scaffolding_round. fold out pout'.
    rewrite (bind_ret _ _ w tt w1) by (unfold w1; now destruct verbose).
    rewrite (bind_ret _ _ w1 pout w1).
    2:{ unfold open_r, isfile. rewrite (stat_same w w1) by assumption.
        fold (isfile w pout). now rewrite (content_isfile _ _ _ Hin). }
    rewrite (bind_ret _ _ w1 text w1).
    2:{ unfold read, content_of. rewrite (stat_same w w1) by assumption.
        fold (content_of w pout). now rewrite Hin. }
    rewrite (bind_ret _ _ w1 tt w2).
    2:{ unfold record_call, w2. now rewrite Hf1, Hc1. }
    rewrite (bind_ret _ _ w2 w2 w2) by reflexivity.
    rewrite (bind_ret _ _ w2 res w2) by now rewrite lift_ret, Hext.
    rewrite (bind_ret _ _ w2 tt w3 Hwrites).
    rewrite Ebase, Ebf. fold tgt.
    now rewrite (bind_ret _ _ w3 tt w4 Hlink). }
  assert (Hend : forall q, q <> kfa -> (forall t', fs3 !! q <> Some (Link t')) ->
            match follow (S 38) (<[kfa := Link t]> fs3) q with
            | Some q' => <[kfa := Link t]> fs3 !! q'
            | None => None
            end = fs3 !! q).
  { intros q Hq Hnl. rewrite follow_S. rewrite lookup_insert_ne by congruence.
    destruct (fs3 !! q) as [[c|t'|]|] eqn:E;
      try (rewrite lookup_insert_ne by congruence; exact E).
    exfalso. now apply (Hnl t'). }
  assert (Hcontent : content_of w4 pout' = res).
  { unfold content_of, stat. change (cwd w4) with (cwd w).
    change (fs w4) with (<[kfa := Link t]> fs3).
    rewrite Epout, to_abs_in_dir. fold D kfa.
    change MAXSYMLINKS with (S (S 38)). rewrite follow_S, lookup_insert_eq.
    replace (removelast kfa) with D by (unfold kfa; now rewrite removelast_snoc).
    unfold t. destruct (isfile w3 tabs) eqn:Eabs.
    - rewrite Etabs.
      destruct (decide (s = f)) as [Esf|Esf].
      + rewrite Esf, Hend, H3f; [now destruct res | congruence |].
        intros t'. rewrite H3f. destruct res; discriminate.
      + exfalso. unfold isfile, stat in Eabs. change (cwd w3) with (cwd w) in Eabs.
        change (fs w3) with fs3 in Eabs.
        rewrite Etabs in Eabs. change MAXSYMLINKS with (S 39) in Eabs.
        rewrite follow_S, (H3s Esf) in Eabs. rewrite (H3s Esf) in Eabs. discriminate.
    - rewrite Etgt, Hend, H3f; [now destruct res | congruence |].
      intros t'. rewrite H3f. destruct res; discriminate. }
  exists w4. split; [exact Hrun|]. split.
  { exists t. cbn [cwd fs]. rewrite Epout, to_abs_in_dir. apply lookup_insert_eq. }
  split; [exact Hcontent|].
  intros -> lib' i' j'. unfold scaffolding_round.
  set (w5 := if verbose
             then World (fs w4) (cwd w4) (stderr w4 ++ [IterationInfo i' j']) (calls w4)
             else w4).
  assert (Hw5 : fs w5 = fs w4 /\ cwd w5 = cwd w4) by (unfold w5; now destruct verbose).
  rewrite (bind_ret _ _ w4 tt w5) by (unfold w5; now destruct verbose).
  rewrite (bind_raise _ _ w5 IOError w5); [reflexivity|].
  unfold open_r, isfile. rewrite (stat_same w4 w5) by apply Hw5.
  fold (isfile w4 pout'). now rewrite (content_none_isfile _ _ Hcontent).
Qed.

End Round.

Lemma round_output_witness :
  (exists w',
     scaffolding_round Scenario.ext (rel ["out"]) 10 2 5 0 "sspace" false
       Scenario.set_short 1 (rel ["out"; "contigs.reduced.fa"]) 1 Scenario.w_reduced
       = (Ret (rel ["out"; "_sspace.1.1.fa"]), w') /\
     content_of w' (rel ["out"; "_sspace.1.1.fa"]) = Some "ACGT-reduced-scaffolded") /\
  (exists w',
     scaffolding_round Cases.ext_no_scaffolds (rel ["out"]) 10 2 5 0 "sspace" false
       Scenario.set_short 1 (rel ["out"; "contigs.reduced.fa"]) 1 Scenario.w_reduced
       = (Ret (rel ["out"; "_sspace.1.1.fa"]), w') /\
     content_of w' (rel ["out"; "_sspace.1.1.fa"]) = None /\
     (scaffolding_round Cases.ext_no_scaffolds (rel ["out"]) 10 2 5 0 "sspace" false
        Scenario.set_short 1 (rel ["out"; "_sspace.1.1.fa"]) 2 w').1 = Raise IOError).
Proof.
  split.
  - destruct (round_output Scenario.ext (rel ["out"]) 10 2 5 0 "sspace" false
                Scenario.set_short 1 1 (rel ["out"; "contigs.reduced.fa"])
                "ACGT-reduced" (Some "ACGT-reduced-scaffolded") Scenario.w_reduced)
      as (w' & Hrun & _ & Hc & _); try reflexivity.
    exists w'. split; [exact Hrun | exact Hc].
  - destruct (round_output Cases.ext_no_scaffolds (rel ["out"]) 10 2 5 0 "sspace" false
                Scenario.set_short 1 1 (rel ["out"; "contigs.reduced.fa"])
                "ACGT-reduced" None Scenario.w_reduced)
      as (w' & Hrun & _ & Hc & Hnext); try reflexivity.
    exists w'. split; [exact Hrun|]. split; [exact Hc|].
    exact (Hnext eq_refl Scenario.set_short 1%nat 2%nat).
Defined.

(** ** Gap closing: sets without a usable library, and the unbound filter *)

Lemma enumerate1_skip {A} (f : A -> bool) (l : list A) :
  existsb f l = false -> Forall (fun x : nat * A => f x.2 = false) (enumerate1 l).
Proof.
  unfold enumerate1. generalize 1%nat.
  induction l as [|a l IH]; intros n H; simpl in *; [constructor|].
  apply orb_false_iff in H as [Ha Hl]. constructor; [exact Ha | now apply IH].
Qed.

Lemma enumerate1_hit {A} (f : A -> bool) (l : list A) :
  existsb f l = true -> exists x : nat * A, x ∈ enumerate1 l /\ f x.2 = true.
Proof.
  unfold enumerate1. generalize 1%nat.
  induction l as [|a l IH]; intros n H; simpl in *; [discriminate|].
  apply orb_true_iff in H as [Ha|Hl].
  - exists (n, a). split; [apply list_elem_of_here | exact Ha].
  - destruct (IH (S n) Hl) as (x & Hx & Hf). exists x.
    split; [now apply list_elem_of_further | exact Hf].
Qed.

Lemma Forall_enumerate1 {A} (P : A -> Prop) (l : list A) :
  Forall P l -> Forall (fun x : nat * A => P x.2) (enumerate1 l).
Proof.
  intros H. unfold enumerate1. generalize 1%nat.
  induction H as [|a l Ha _ IH]; intros n; simpl; constructor; [exact Ha | apply IH].
Qed.

Lemma Exists_enumerate1 {A} (P : A -> Prop) (l : list A) :
  Exists P l -> Exists (fun x : nat * A => P x.2) (enumerate1 l).
Proof.
  intros H. unfold enumerate1. generalize 1%nat.
  induction H as [a l Ha|a l _ IH]; intros n; simpl;
    [now apply Exists_cons_hd | apply Exists_cons_tl, IH].
Qed.

(** A loop that returned has returned from the body at every element. *)
Lemma for_each_ret_each {A S} (l : list A) (body : S -> A -> M S) :
  forall st w st' w',
    for_each l body st w = (Ret st', w') ->
    forall x, x ∈ l -> exists st0 w0 st1 w1, body st0 x w0 = (Ret st1, w1).
Proof.
  induction l as [|a l IH]; intros st w st' w' H x Hx; [inversion Hx|].
  simpl in H. bind_inv H. apply elem_of_cons in Hx as [->|Hx].
  - now exists st, w, a0, w0.
  - exact (IH _ _ _ _ H x Hx).
Qed.

Section GapClosing.

Context (ext : Collaborators) (outdir : path) (mapq threads limit iters : Z)
        (verbose : bool).

Lemma prepare_gapcloser_skip (configFn : path) (lib : LibrarySet)
    (minlen maxlen : Z) (w : world) :
  has_eligible lib = false ->
  exists w',
    prepare_gapcloser ext outdir mapq configFn (libFs lib) (libRs lib) (orients lib)
                      (libIS lib) (libISStDev lib) minlen maxlen limit verbose w
      = (Ret None, w') /\
    same_but_stderr w w'.
Proof.
  intros Hno. apply enumerate1_skip in Hno. eexists. split.
  - unfold prepare_gapcloser.
    rewrite (bind_ret _ _ w _ _
               (config_loop_skip ext outdir mapq minlen maxlen limit verbose _
                  ["max_rd_len=" +:+ str_of_Z maxlen] w Hno)).
    reflexivity.
  - now repeat split.
Qed.

Lemma gapclosing_loop_skip (overlap maxReadLen minReadLen : Z)
    (xs : list (nat * LibrarySet)) :
  forall pout w,
    Forall (fun x => has_eligible x.2 = false) xs ->
    exists w',
      for_each xs (run_gapclosing_body ext outdir mapq threads limit iters verbose
                     overlap maxReadLen minReadLen) pout w = (Ret pout, w') /\
      same_but_stderr w w'.
Proof.
  induction xs as [|[i lib] xs IH]; intros pout w Hall.
  - exists w. split; [reflexivity | apply same_but_stderr_refl].
  - inversion Hall as [|? ? Hx Hxs]; subst. simpl in Hx.
    destruct (prepare_gapcloser_skip
                (path_join outdir (rel ["_gapcloser." +:+ str_of_nat i +:+ ".conf"]))
                lib minReadLen maxReadLen w Hx) as (w1 & Hprep & Hs1).
    destruct (IH pout w1 Hxs) as (w2 & Hrest & Hs2).
    exists w2. split; [|exact (same_but_stderr_trans _ _ _ Hs1 Hs2)].
    simpl. rewrite (bind_ret _ _ w pout w1); [exact Hrest|].
    unfold run_gapclosing_body. now rewrite (bind_ret _ _ w None w1 Hprep).
Qed.

(** With gap closing switched on but no library of orientation FR or RF
    in any set, [run_gapclosing] neither filters reads nor starts the gap
    filler: it writes no file, invokes nothing, and makes the gap-filled
    name a symbolic link to the scaffolds, whose content it then leads
    to. *)
Theorem gap_closing_without_eligible (libraries : list LibrarySet) (w : world)
    (text : string) :
  Forall (fun lib => has_eligible lib = false) libraries ->
  fs w !! to_abs (cwd w) outdir = Some Dir ->
  fs w !! to_abs (cwd w) (nogapsFname outdir) = None ->
  reaches 39 w (scaffoldsFname outdir) text ->
  exists w',
    run_gapclosing ext outdir mapq libraries (nogapsFname outdir) (scaffoldsFname outdir)
                   threads limit iters verbose w = (Ret tt, w') /\
    fs w' = <[to_abs (cwd w) (nogapsFname outdir) :=
               Link (path_join (Path true (cwd w)) (scaffoldsFname outdir))]> (fs w) /\
    calls w' = calls w /\
    content_of w' (nogapsFname outdir) = Some text.
Proof.
  intros Hall Hdir Hfree Hin.
  destruct (gapclosing_loop_skip 25 150 40 (enumerate1 libraries) (scaffoldsFname outdir) w)
    as (w1 & Hloop & Hf & Hc & Hcalls).
  { now apply (Forall_enumerate1 (fun lib => has_eligible lib = false)). }
  unfold nogapsFname in Hfree. rewrite to_abs_in_dir in Hfree.
  destruct (symlink_forward w1 outdir (scaffoldsFname outdir) "scaffolds.filled.fa" text)
    as (Hrun & Hout & _).
  { now rewrite Hf, Hc. }
  { now rewrite Hf, Hc. }
  { apply (reaches_same_fs 39 w w1); [now split | exact Hin]. }
  rewrite Hf, Hc in Hrun, Hout.
  eexists. split.
  { unfold run_gapclosing. rewrite (bind_ret _ _ w _ w1 Hloop). exact Hrun. }
  cbn [fs calls]. unfold nogapsFname at 1. rewrite to_abs_in_dir.
  split; [reflexivity|]. split; [exact Hcalls | exact Hout].
Qed.

End GapClosing.

Lemma gap_closing_without_eligible_witness :
  exists w',
    run_gapclosing Scenario.ext (rel ["out"]) 10 [Scenario.set_long]
                   (nogapsFname (rel ["out"])) (scaffoldsFname (rel ["out"]))
                   2 0 2 true Scenario.w_scaffolds = (Ret tt, w') /\
    fs w' = <[to_abs (cwd Scenario.w_scaffolds) (nogapsFname (rel ["out"])) :=
               Link (path_join (Path true (cwd Scenario.w_scaffolds))
                               (scaffoldsFname (rel ["out"])))]>
              (fs Scenario.w_scaffolds) /\
    calls w' = calls Scenario.w_scaffolds /\
    content_of w' (nogapsFname (rel ["out"])) = Some "ACGT-scaffolded".
Proof.
  apply (gap_closing_without_eligible Scenario.ext (rel ["out"]) 10 2 0 2 true
           [Scenario.set_long] Scenario.w_scaffolds "ACGT-scaffolded").
  - repeat constructor.
  - reflexivity.
  - reflexivity.
  - exists ["data"; "out"; "scaffolds.fa"]. split; reflexivity.
Defined.

(** ** The read filter is not bound *)

Section UnboundFilter.

Context (ext : Collaborators) (Hunbound : unbound_filter ext).

Lemma filter_reads_stops (i : nat) (outdir fq1 fq2 : path)
    (minlen maxlen limit minqual : Z) (w w' : world) (r : path * path) :
  filter_reads ext i outdir fq1 fq2 minlen maxlen limit minqual w <> (Ret r, w').
Proof.
  intros H. unfold filter_reads in H. do 5 bind_inv H.
  unfold lift in H4. rewrite Hunbound in H4. discriminate.
Qed.

Lemma prepare_body_stops (outdir : path) (mapq minlen maxlen limit : Z) (verbose : bool)
    (config config' : list string) (x : nat * (path * path * string * Z * Q))
    (w w' : world) :
  eligible (orient_of x.2) = true ->
  prepare_gapcloser_body ext outdir mapq minlen maxlen limit verbose config x w
    <> (Ret config', w').
Proof.
  destruct x as [i [[[[f1 f2] o] iSize] iFrac]]. unfold orient_of, eligible. simpl.
  intros Ho H. unfold prepare_gapcloser_body in H. rewrite Ho in H.
  bind_inv H. now apply filter_reads_stops in H0.
Qed.

Lemma prepare_stops (outdir : path) (mapq : Z) (configFn : path) (lib : LibrarySet)
    (minlen maxlen limit : Z) (verbose : bool) (w w' : world) (r : option bool) :
  has_eligible lib = true ->
  prepare_gapcloser ext outdir mapq configFn (libFs lib) (libRs lib) (orients lib)
                    (libIS lib) (libISStDev lib) minlen maxlen limit verbose w
    <> (Ret r, w').
Proof.
  intros Hel H. unfold prepare_gapcloser in H. bind_inv H.
  destruct (enumerate1_hit _ _ Hel) as (x & Hx & Hf).
  destruct (for_each_ret_each _ _ _ _ _ _ H0 x Hx) as (c0 & w1 & c1 & w2 & Hb).
  now apply prepare_body_stops in Hb.
Qed.

(** As the file stands, gap closing cannot get past a library it could
    use.  [filter_reads] calls [filter_paired], a name the file neither
    defines nor imports, so: in a run directory where the two filtered
    names are free, [filter_reads] leaves both output files empty and
    raises [NameError]; [run_gapclosing] does not return when any set holds
    a library of orientation FR or RF; and the gap-closing stage returns
    only when gap closing is switched off or no set holds such a
    library. *)
Theorem unbound_filter_stops_gap_closing :
  (forall (i : nat) (outdir fq1 fq2 : path) (minlen maxlen limit minqual : Z) (w : world),
     fs w !! to_abs (cwd w) outdir = Some Dir ->
     fs w !! to_abs (cwd w) (filtered_name outdir i fq1) = None ->
     fs w !! to_abs (cwd w) (filtered_name outdir i fq2) = None ->
     exists w',
       filter_reads ext i outdir fq1 fq2 minlen maxlen limit minqual w
         = (Raise NameError, w') /\
       content_of w' (filtered_name outdir i fq1) = Some "" /\
       content_of w' (filtered_name outdir i fq2) = Some "") /\
  (forall (outdir : path) (mapq : Z) (libraries : list LibrarySet)
          (nogaps scaffolds : path) (threads limit iters : Z) (verbose : bool)
          (w w' : world) (r : unit),
     Exists (fun lib => has_eligible lib = true) libraries ->
     run_gapclosing ext outdir mapq libraries nogaps scaffolds threads limit iters
                    verbose w <> (Ret r, w')) /\
  (forall (outdir : path) (mapq threads iters : Z) (gapclosing verbose : bool)
          (libraries : list LibrarySet) (limit : Z) (w w' : world) (r : unit),
     gapclosing_stage ext outdir mapq threads iters gapclosing verbose libraries limit w
       = (Ret r, w') ->
     gapclosing = false \/ Forall (fun lib => has_eligible lib = false) libraries).
Proof.
  assert (Hrun : forall outdir mapq libraries nogaps scaffolds threads limit iters
                        verbose w w' r,
             Exists (fun lib => has_eligible lib = true) libraries ->
             run_gapclosing ext outdir mapq libraries nogaps scaffolds threads limit
                            iters verbose w <> (Ret r, w')).
  { intros outdir mapq libraries nogaps scaffolds threads limit iters verbose w w' r
           Hex H.
    apply (Exists_enumerate1 (fun lib => has_eligible lib = true)) in Hex.
    apply Exists_exists in Hex as ([i lib] & Hx & Hel). simpl in Hel.
    unfold run_gapclosing in H. bind_inv H.
    destruct (for_each_ret_each _ _ _ _ _ _ H0 _ Hx) as (p0 & w1 & p1 & w2 & Hb).
    unfold run_gapclosing_body in Hb. bind_inv Hb.
    now apply prepare_stops in H1. }
  split; [|split; [exact Hrun|]].
  - intros i outdir fq1 fq2 minlen maxlen limit minqual w Hdir H1 H2.
    set (fn1 := filtered_name outdir i fq1) in *.
    set (fn2 := filtered_name outdir i fq2) in *.
    set (k1 := to_abs (cwd w) fn1) in *. set (k2 := to_abs (cwd w) fn2) in *.
    assert (Hparent : forall fq, removelast (to_abs (cwd w) (filtered_name outdir i fq))
                                 = to_abs (cwd w) outdir).
    { intros fq. unfold filtered_name. now rewrite to_abs_in_dir, removelast_snoc. }
    assert (Hne : forall fq, to_abs (cwd w) (filtered_name outdir i fq) <> []).
    { intros fq. unfold filtered_name. rewrite to_abs_in_dir.
      destruct (to_abs (cwd w) outdir); discriminate. }
    assert (Hp1 : removelast k1 = to_abs (cwd w) outdir) by apply Hparent.
    assert (Hp2 : removelast k2 = to_abs (cwd w) outdir) by apply Hparent.
    assert (Hn1 : k1 <> []) by apply Hne.
    assert (Hn2 : k2 <> []) by apply Hne.
    assert (HD1 : to_abs (cwd w) outdir <> k1).
    { intros E. rewrite <- Hp1 in E. unfold k1, fn1, filtered_name in E.
      rewrite to_abs_in_dir, removelast_snoc in E.
      apply (f_equal List.length) in E. rewrite length_app in E. simpl in E. lia. }
    set (w1 := World (<[k1 := File ""]> (fs w)) (cwd w) (stderr w) (calls w)).
    assert (Hw1 : write_file fn1 "" w = (Ret tt, w1)).
    { unfold write_file. change MAXSYMLINKS with (S 39). rewrite follow_S.
      fold k1. rewrite H1, H1, Hp1, Hdir.
      destruct (decide _) as [E|_]; [contradiction | reflexivity]. }
    set (w2 := World (<[k2 := File ""]> (fs w1)) (cwd w) (stderr w) (calls w)).
    assert (Hw2 : write_file fn2 "" w1 = (Ret tt, w2)).
    { unfold write_file. change MAXSYMLINKS with (S 39). rewrite follow_S.
      change (cwd w1) with (cwd w). change (fs w1) with (<[k1 := File ""]> (fs w)).
      fold k2. destruct (decide (k2 = k1)) as [E|E].
      - assert (Hl : <[k1 := File ""]> (fs w) !! k2 = Some (File ""))
          by (rewrite E; apply lookup_insert_eq).
        rewrite Hl, Hl.
        destruct (decide _) as [E'|_]; [contradiction | reflexivity].
      - rewrite lookup_insert_ne by congruence. rewrite H2.
        rewrite lookup_insert_ne by congruence. rewrite H2.
        rewrite Hp2. rewrite lookup_insert_ne by congruence. rewrite Hdir.
        destruct (decide _) as [E'|_]; [contradiction | reflexivity]. }
    set (w3 := World (fs w2) (cwd w) (stderr w)
                     (calls w ++ [CallFilterPaired fq1 fq2 fn1 fn2])).
    exists w3. split; [|split].
    + unfold filter_reads. fold fn1 fn2.
      rewrite (bind_ret _ _ w tt w1 Hw1), (bind_ret _ _ w1 tt w2 Hw2).
      rewrite (bind_ret _ _ w2 w2 w2) by reflexivity.
      rewrite (bind_ret _ _ w2 tt w3) by reflexivity.
      apply bind_raise. unfold lift. now rewrite Hunbound.
    + unfold content_of, stat. change (cwd w3) with (cwd w).
      change (fs w3) with (<[k2 := File ""]> (<[k1 := File ""]> (fs w))). fold k1.
      change MAXSYMLINKS with (S 39). rewrite follow_S.
      destruct (decide (k1 = k2)) as [E|E].
      * rewrite E, lookup_insert_eq. now rewrite lookup_insert_eq.
      * rewrite lookup_insert_ne by congruence. rewrite lookup_insert_eq.
        rewrite lookup_insert_ne by congruence. now rewrite lookup_insert_eq.
    + unfold content_of, stat. change (cwd w3) with (cwd w).
      change (fs w3) with (<[k2 := File ""]> (<[k1 := File ""]> (fs w))). fold k2.
      change MAXSYMLINKS with (S 39). rewrite follow_S, lookup_insert_eq.
      now rewrite lookup_insert_eq.
  - intros outdir mapq threads iters gapclosing verbose libraries limit w w' r H.
    destruct gapclosing; [|now left]. right.
    destruct (Forall_Exists_dec (fun lib => has_eligible lib = false)
                (fun lib => has_eligible lib = true)
                (fun lib => match has_eligible lib as b
                                  return {b = false} + {b = true} with
                            | true => right eq_refl
                            | false => left eq_refl
                            end) libraries) as [Hall|Hex]; [exact Hall|].
    exfalso. unfold gapclosing_stage in H.
    assert (Hne : bool_decide (libraries <> []) = true).
    { apply bool_decide_eq_true. intros ->. inversion Hex. }
    rewrite Hne in H. cbn [andb] in H. bind_inv H.
    now apply Hrun in H.
Qed.

End UnboundFilter.

Lemma unbound_filter_stops_gap_closing_witness :
  (exists w',
     filter_reads Scenario.ext_unbound 1 (rel ["out"]) (rel ["a_1.fq"]) (rel ["a_2.fq"])
                  40 150 0 10 Scenario.w_out = (Raise NameError, w') /\
     content_of w' (filtered_name (rel ["out"]) 1 (rel ["a_1.fq"])) = Some "" /\
     content_of w' (filtered_name (rel ["out"]) 1 (rel ["a_2.fq"])) = Some "") /\
  (forall w' r,
     run_gapclosing Scenario.ext_unbound (rel ["out"]) 10
                    [Scenario.set_long; Scenario.set_short]
                    (nogapsFname (rel ["out"])) (scaffoldsFname (rel ["out"]))
                    2 0 2 true Scenario.w_scaffolds <> (Ret r, w')).
Proof.
  assert (Hunbound : unbound_filter Scenario.ext_unbound) by (intros ? ? ? ? ? ?; reflexivity).
  destruct (unbound_filter_stops_gap_closing Scenario.ext_unbound Hunbound)
    as (Hfilter & Hrun & _).
  split.
  - apply Hfilter; reflexivity.
  - intros w' r. apply Hrun. apply Exists_cons_tl, Exists_cons_hd. reflexivity.
Defined.

(** ** The run stays in its directory *)

Lemma keeps_weaken {A} (P Q : world -> world -> Prop) (m : M A) :
  (forall w w', Q w w' -> P w w') -> keeps Q m -> keeps P m.
Proof. intros H Hk w. apply H, Hk. Qed.

Lemma scenario_tree : tree Scenario.w0.
Proof.
  apply map_Forall_to_list. vm_compute.
  repeat (constructor; [first [left; reflexivity | right; reflexivity]|]).
  constructor.
Qed.

Lemma tree_nothing_below (w : world) (d : list string) :
  tree w -> fs w !! d = None -> forall k, d `prefix_of` k -> fs w !! k = None.
Proof.
  intros Htree Hd k [s ->]. induction s as [|x s IH] using rev_ind.
  - now rewrite app_nil_r.
  - destruct (fs w !! (d ++ s ++ [x])) as [n|] eqn:E; [|reflexivity].
    exfalso. apply (map_Forall_lookup_1 _ _ _ _ Htree) in E.
    rewrite app_assoc, removelast_snoc in E. destruct E as [E|E].
    + destruct (d ++ s); discriminate.
    + congruence.
Qed.

Lemma mkdir_p_new (todo : list string) :
  forall f seen f',
    mkdir_p f seen todo = Some f' ->
    forall k, f !! k = None -> f' !! k <> None -> k `prefix_of` (seen ++ todo).
Proof.
  induction todo as [|c todo IH]; intros f seen f' H k Hk Hk'; simpl in H.
  - injection H as <-. contradiction.
  - replace (seen ++ c :: todo) with ((seen ++ [c]) ++ todo)
      by now rewrite <- app_assoc.
    destruct (f !! (seen ++ [c])) as [[x|t|]|] eqn:E; try discriminate.
    + destruct todo as [|c' todo]; [discriminate|]. exact (IH _ _ _ H k Hk Hk').
    + destruct (decide (k = seen ++ [c])) as [->|Hne].
      * now apply prefix_app_r.
      * apply (IH _ _ _ H k); [|exact Hk']. now rewrite lookup_insert_ne.
Qed.

Lemma append_assoc_r (a b c : string) : (a +:+ b) +:+ c = a +:+ (b +:+ c).
Proof.
  induction a as [|x a IH]; [reflexivity|].
  change (String x ((a +:+ b) +:+ c) = String x (a +:+ (b +:+ c))). now f_equal.
Qed.

Lemma written_gap (reduction : bool) (r : string) :
  written_name reduction ("_gapcloser." +:+ r) = true.
Proof.
  unfold written_name.
  replace (String.prefix "_gapcloser." ("_gapcloser." +:+ r)) with true; [reflexivity|].
  destruct r; reflexivity.
Qed.

Lemma written_gap_suffix (reduction : bool) (r s : string) :
  written_name reduction (("_gapcloser." +:+ r) +:+ s) = true.
Proof. rewrite append_assoc_r. apply written_gap. Qed.

Ltac written := first [reflexivity | apply written_gap | apply written_gap_suffix].

#[global] Instance confined_preorder (reduction : bool) (outdir : path) :
  PreOrder (confined reduction outdir).
Proof.
  split.
  - intros w HJ. split; [reflexivity|]. split; [reflexivity | exact HJ].
  - intros w1 w2 w3 H12 H23 HJ. destruct (H12 HJ) as (Hc & Hfr & HJ2).
    unfold confined in H23. rewrite Hc in H23.
    destruct (H23 HJ2) as (Hc' & Hfr' & HJ3).
    split; [congruence|]. split; [|exact HJ3].
    intros k Hk. now rewrite Hfr', Hfr.
Qed.

Section Confined.

Context (reduction : bool) (outdir : path).

Let P := confined reduction outdir.

Lemma conf_fs_kept (w w' : world) : fs_kept w w' -> P w w'.
Proof.
  intros [Hf Hc] HJ. split; [exact Hc|]. rewrite Hf. split; [reflexivity | exact HJ].
Qed.

Lemma conf_write_stderr (d : diag) : keeps P (write_stderr d).
Proof. apply (keeps_weaken P fs_kept); [apply conf_fs_kept | apply fs_write_stderr]. Qed.

Lemma conf_record_call (c : call) : keeps P (record_call c).
Proof. apply (keeps_weaken P fs_kept); [apply conf_fs_kept | apply fs_record_call]. Qed.

Lemma conf_get_libraries (ext : Collaborators) (fastq : list path) (fasta : path)
    (mapq threads limit : Z) (verbose : bool) :
  keeps P (get_libraries ext fastq fasta mapq threads limit verbose).
Proof. apply (all_get_libraries P); [apply conf_write_stderr | apply conf_record_call]. Qed.

Lemma conf_insert (w : world) (s : list string) (n : node) :
  (forall x t, written_name reduction x = true -> s = [x] -> n <> Link t) ->
  P w (World (<[to_abs (cwd w) outdir ++ s := n]> (fs w)) (cwd w) (stderr w) (calls w)).
Proof.
  intros Hn HJ. cbn [cwd fs]. split; [reflexivity|]. split.
  - intros k Hk. apply lookup_insert_ne. intros <-. apply Hk. now exists s.
  - intros x t Hx. destruct (decide (s = [x])) as [->|Hne].
    + rewrite lookup_insert_eq. intros [= ->]. now apply (Hn x t).
    + rewrite lookup_insert_ne; [now apply HJ|].
      intros E. apply app_inv_head in E. contradiction.
Qed.

Lemma conf_os_symlink (x : string) (t : path) :
  written_name reduction x = false ->
  keeps P (os_symlink t (path_join outdir (rel [x]))).
Proof.
  intros Hx w. unfold os_symlink. rewrite to_abs_in_dir.
  destruct (fs w !! (to_abs (cwd w) outdir ++ [x])) as [[c|t'|]|]; try reflexivity.
  destruct (fs w !! removelast _) as [[c|t'|]|]; try reflexivity.
  destruct (decide (_ = [])); [reflexivity|].
  apply conf_insert. intros x' t' Hx' [= <-]. congruence.
Qed.

Lemma conf_symlink (x : string) (file1 : path) :
  written_name reduction x = false ->
  keeps P (symlink file1 (path_join outdir (rel [x]))).
Proof.
  intros Hx. unfold symlink.
  apply (keeps_bind P); [apply (keeps_get_world P)|]. intros w.
  destruct (negb _); [|apply (keeps_ret P)].
  destruct (isfile _ _); now apply conf_os_symlink.
Qed.

Lemma conf_write_file (x text : string) :
  written_name reduction x = true ->
  keeps P (write_file (path_join outdir (rel [x])) text).
Proof.
  intros Hx w HJ.
  assert (Hgo : P w (write_file (path_join outdir (rel [x])) text w).2); [|exact (Hgo HJ)].
  unfold write_file. rewrite to_abs_in_dir.
  assert (Hfol : follow MAXSYMLINKS (fs w) (to_abs (cwd w) outdir ++ [x])
                 = Some (to_abs (cwd w) outdir ++ [x])).
  { change MAXSYMLINKS with (S 39). rewrite follow_S.
    destruct (fs w !! (to_abs (cwd w) outdir ++ [x])) as [[c|t|]|] eqn:E;
      try reflexivity.
    exfalso. now apply (HJ x t). }
  rewrite Hfol.
  destruct (fs w !! (to_abs (cwd w) outdir ++ [x])) as [[c|t|]|]; try reflexivity.
  - destruct (decide (_ = [])); [reflexivity|].
    apply conf_insert. intros; discriminate.
  - destruct (fs w !! removelast _) as [[c|t|]|]; try reflexivity.
    destruct (decide (_ = [])); [reflexivity|].
    apply conf_insert. intros; discriminate.
Qed.

Lemma conf_sspace_writes (b : string) (res : option string) :
  keeps P (sspace_writes (path_join outdir (rel [b])) res).
Proof.
  intros w. unfold sspace_writes. destruct res as [text|]; [|reflexivity].
  rewrite to_abs_in_dir.
  set (D := to_abs (cwd w) outdir).
  set (bf := basename (path_join outdir (rel [b])) +:+ ".final.scaffolds.fasta").
  assert (Hgo : P w (World (<[(D ++ [b]) ++ [bf] := File text]> (<[D ++ [b] := Dir]> (fs w)))
                           (cwd w) (stderr w) (calls w))).
  { transitivity (World (<[D ++ [b] := Dir]> (fs w)) (cwd w) (stderr w) (calls w)).
    - apply conf_insert. intros; discriminate.
    - rewrite <- app_assoc.
      exact (conf_insert (World (<[D ++ [b] := Dir]> (fs w)) (cwd w) (stderr w) (calls w))
               ([b] ++ [bf]) (File text) ltac:(intros; discriminate)). }
  destruct (D ++ [b]) as [|c0 d] eqn:Ed; [reflexivity|].
  destruct (fs w !! (c0 :: d)) as [[c|t|]|]; try reflexivity;
    destruct (fs w !! ((c0 :: d) ++ [bf])) as [[c'|t'|]|]; try reflexivity; exact Hgo.
Qed.

Section Stages.

Context (ext : Collaborators) (fuel : nat) (fastq : list path) (fasta : path)
        (mapq threads : Z) (identity overlap : Q) (minLength joins : Z)
        (readLimit : Q) (iters : Z) (sspacebin : string)
        (scaffolding gapclosing verbose : bool).

Lemma conf_banner (stage : string) : keeps P (banner verbose stage).
Proof. unfold banner. destruct verbose; [apply conf_write_stderr | apply (keeps_ret P)]. Qed.

Lemma conf_run_scaffolding (limit : Z) (libraries : list LibrarySet) (reduced : path) :
  keeps P (run_scaffolding ext outdir fastq mapq threads joins limit iters sspacebin
             verbose fuel (scaffoldsFname outdir) libraries reduced).
Proof.
  assert (Hround : forall lib i pout j,
             keeps P (scaffolding_round ext outdir mapq threads joins limit sspacebin
                        verbose lib i pout j)).
  { intros lib i pout j. unfold scaffolding_round, sspace_out.
    rewrite !path_add_in_dir.
    apply (keeps_bind P).
    { destruct verbose; [apply conf_write_stderr | apply (keeps_ret P)]. }
    intros _. apply (keeps_bind P); [apply (keeps_open_r P)|]. intros h.
    apply (keeps_bind P); [apply (keeps_read P)|]. intros text.
    apply (keeps_bind P); [apply conf_record_call|]. intros _.
    apply (keeps_bind P); [apply (keeps_get_world P)|]. intros w.
    apply (keeps_bind P); [apply (keeps_lift P)|]. intros res.
    apply (keeps_bind P); [apply conf_sspace_writes|]. intros _.
    apply (keeps_bind P); [apply conf_symlink; reflexivity|]. intros _.
    apply (keeps_ret P). }
  assert (Hloop : forall n libs i pout,
             keeps P (scaffolding_loop ext outdir fastq mapq threads joins limit iters
                        sspacebin verbose n libs i pout)).
  { induction n as [|n IH]; intros libs i pout; simpl; [apply (keeps_ret P)|].
    destruct (i <? List.length libs)%nat; [|apply (keeps_ret P)].
    apply (keeps_bind P); [apply (keeps_lift P)|]. intros lib.
    apply (keeps_bind P); [apply (keeps_for_each P); intros; apply Hround|].
    intros pout'. apply (keeps_bind P); [apply conf_get_libraries|].
    intros libs'. apply IH. }
  unfold run_scaffolding. apply (keeps_bind P); [apply Hloop|].
  intros [[libs pout]|]; [|apply (keeps_ret P)].
  apply (keeps_bind P); [|intros; apply (keeps_ret P)].
  unfold scaffoldsFname. apply conf_symlink. reflexivity.
Qed.

Lemma conf_filter_reads (i : nat) (fq1 fq2 : path) (minlen maxlen limit minqual : Z) :
  keeps P (filter_reads ext i outdir fq1 fq2 minlen maxlen limit minqual).
Proof.
  unfold filter_reads, filtered_name.
  apply (keeps_bind P); [apply conf_write_file; written|]. intros _.
  apply (keeps_bind P); [apply conf_write_file; written|]. intros _.
  apply (keeps_bind P); [apply (keeps_get_world P)|]. intros w.
  apply (keeps_bind P); [apply conf_record_call|]. intros _.
  apply (keeps_bind P); [apply (keeps_lift P)|]. intros [out1 out2].
  apply (keeps_bind P); [apply conf_write_file; written|]. intros _.
  apply (keeps_bind P); [apply conf_write_file; written|]. intros _.
  apply (keeps_ret P).
Qed.

Lemma conf_prepare_gapcloser (i : nat) (lib : LibrarySet) (minlen maxlen limit : Z) :
  keeps P (prepare_gapcloser ext outdir mapq
             (path_join outdir (rel ["_gapcloser." +:+ str_of_nat i +:+ ".conf"]))
             (libFs lib) (libRs lib) (orients lib) (libIS lib) (libISStDev lib)
             minlen maxlen limit verbose).
Proof.
  unfold prepare_gapcloser. apply (keeps_bind P).
  - apply (keeps_for_each P). intros config [k [[[[f1 f2] o] iSize] iFrac]].
    unfold prepare_gapcloser_body. destruct (_ || _).
    + apply (keeps_bind P); [apply conf_filter_reads|]. intros [fn1 fn2].
      apply (keeps_ret P).
    + apply (keeps_bind P); [|intros; apply (keeps_ret P)].
      destruct verbose; [apply conf_write_stderr | apply (keeps_ret P)].
  - intros config. destruct (_ <? _)%nat; [|apply (keeps_ret P)].
    apply (keeps_bind P); [apply conf_write_file; written|]. intros _.
    apply (keeps_ret P).
Qed.

Lemma conf_run_gapclosing (limit : Z) (libraries : list LibrarySet) (scaffolds : path) :
  keeps P (run_gapclosing ext outdir mapq libraries (nogapsFname outdir) scaffolds
             threads limit iters verbose).
Proof.
  unfold run_gapclosing. apply (keeps_bind P).
  - apply (keeps_for_each P). intros pout [i lib]. unfold run_gapclosing_body.
    apply (keeps_bind P); [apply conf_prepare_gapcloser|]. intros ok.
    destruct (negb _); [apply (keeps_ret P)|].
    apply (keeps_for_each P). intros pout' j. unfold gapcloser_round.
    rewrite !path_add_in_dir.
    apply (keeps_bind P).
    { destruct verbose; [apply conf_write_stderr | apply (keeps_ret P)]. }
    intros _. apply (keeps_bind P); [apply conf_write_file; written|]. intros _.
    apply (keeps_bind P); [apply conf_record_call|]. intros _.
    apply (keeps_bind P); [apply (keeps_get_world P)|]. intros w.
    apply (keeps_bind P); [apply (keeps_lift P)|]. intros [res log].
    apply (keeps_bind P); [apply conf_write_file; written|]. intros _.
    apply (keeps_bind P); [|intros; apply (keeps_ret P)].
    destruct res; [apply conf_write_file; written | apply (keeps_ret P)].
  - intros pout. unfold nogapsFname. apply conf_symlink. reflexivity.
Qed.

End Stages.

End Confined.

Lemma conf_reduction_stage (ext : Collaborators) (outdir : path) (identity overlap : Q)
    (minLength : Z) (reduction verbose : bool) (libraries : list LibrarySet) (limit : Z) :
  keeps (confined reduction outdir)
        (reduction_stage ext outdir identity overlap minLength reduction verbose
           libraries limit).
Proof.
  unfold reduction_stage, reducedFname, contigsFname.
  destruct reduction; [|apply conf_symlink; reflexivity].
  set (P := confined true outdir).
  apply (keeps_bind P).
  { destruct verbose; [|apply (keeps_ret P)].
    apply (keeps_bind P); [apply conf_write_stderr|]. intros _.
    apply conf_write_stderr. }
  intros _. apply (keeps_bind P); [apply conf_write_file; reflexivity|]. intros _.
  apply (keeps_bind P); [apply (keeps_open_r P)|]. intros h.
  apply (keeps_bind P); [apply (keeps_read P)|]. intros text.
  apply (keeps_bind P); [apply conf_record_call|]. intros _.
  apply (keeps_bind P); [apply (keeps_lift P)|]. intros reduced.
  apply conf_write_file; reflexivity.
Qed.

Lemma conf_run_stages (ext : Collaborators) (fuel : nat) (fastq : list path)
    (fasta outdir : path) (mapq threads : Z) (identity overlap : Q)
    (minLength joins : Z) (readLimit : Q) (iters : Z) (sspacebin : string)
    (reduction scaffolding gapclosing verbose : bool) :
  keeps (confined reduction outdir)
        (run_stages ext fuel fastq fasta outdir mapq threads identity overlap
           minLength joins readLimit iters sspacebin reduction scaffolding
           gapclosing verbose).
Proof.
  set (P := confined reduction outdir).
  unfold run_stages.
  apply (keeps_bind P); [unfold contigsFname; apply conf_symlink; reflexivity|].
  intros _. apply (keeps_bind P).
  { apply (all_get_read_limit P); [apply conf_write_stderr | apply conf_record_call]. }
  intros [limit libraries].
  apply (keeps_bind P); [apply conf_reduction_stage|].
  intros _. apply (keeps_bind P).
  { unfold scaffolding_stage. destruct scaffolding.
    - apply (keeps_bind P); [apply conf_banner|]. intros _. apply conf_run_scaffolding.
    - apply (keeps_bind P); [|intros; apply (keeps_ret P)].
      unfold scaffoldsFname. apply conf_symlink. reflexivity. }
  intros [libs|]; [|apply (keeps_ret P)].
  apply (keeps_bind P).
  { unfold gapclosing_stage. destruct (_ && _).
    - apply (keeps_bind P); [apply conf_banner|]. intros _. apply conf_run_gapclosing.
    - unfold nogapsFname. apply conf_symlink. reflexivity. }
  intros _. apply (keeps_bind P); [|intros; apply (keeps_ret P)].
  apply (keeps_weaken P fs_kept); [apply conf_fs_kept|].
  apply (all_report_stage fs_kept); [apply fs_write_stderr | apply fs_record_call].
Qed.

(** Apart from what the collaborators themselves may leave behind,
    [redundants] only adds to the file system, and only in its place.
    Started in a well-formed file system, and whatever the outcome of the
    run: the working directory is the same, every entry that existed
    before the run is still there unchanged, and every new entry is the
    run directory, one of its ancestors, or lies below the run
    directory. *)
Theorem run_stays_in_outdir (ext : Collaborators) (fuel : nat) (fastq : list path)
    (fasta outdir : path) (mapq threads : Z) (identity overlap : Q)
    (minLength joins : Z) (readLimit : Q) (iters : Z) (sspacebin : string)
    (reduction scaffolding gapclosing verbose : bool) (w : world) :
  tree w ->
  let w' := (redundants ext fuel fastq fasta outdir mapq threads identity overlap
               minLength joins readLimit iters sspacebin reduction scaffolding
               gapclosing verbose w).2 in
  let D := to_abs (cwd w) outdir in
  cwd w' = cwd w /\
  (forall k n, fs w !! k = Some n -> fs w' !! k = Some n) /\
  (forall k, fs w !! k = None -> fs w' !! k <> None ->
             D `prefix_of` k \/ k `prefix_of` D).
Proof.
  intros Htree w' D.
  assert (Hsame : fs w' = fs w -> cwd w' = cwd w ->
            cwd w' = cwd w /\
            (forall k n, fs w !! k = Some n -> fs w' !! k = Some n) /\
            (forall k, fs w !! k = None -> fs w' !! k <> None ->
                       D `prefix_of` k \/ k `prefix_of` D)).
  { intros Hf Hc. rewrite Hf. split; [exact Hc|]. split; [auto|].
    intros k H1 H2. contradiction. }
  destruct (isdir w outdir) eqn:Hisdir.
  { apply Hsame; unfold w';
      now rewrite (exit_when_outdir_exists ext fuel fastq fasta outdir mapq threads
                     identity overlap minLength joins readLimit iters sspacebin
                     reduction scaffolding gapclosing verbose w Hisdir). }
  assert (Hprep : prepare_outdir outdir w = os_makedirs outdir w).
  { unfold prepare_outdir. rewrite (bind_ret _ _ w w w) by reflexivity.
    now rewrite Hisdir. }
  destruct (os_makedirs outdir w) as [[[]|e] w0] eqn:Hmk.
  2:{ assert (w0 = w) as ->.
      { unfold os_makedirs in Hmk.
        destruct (to_abs (cwd w) outdir) as [|c q]; [now injection Hmk|].
        destruct (mkdir_p (fs w) [] (c :: q)); [discriminate | now injection Hmk]. }
      apply Hsame; unfold w', redundants;
        now rewrite (bind_raise _ _ w e w) by now rewrite Hprep. }
  assert (Hred : w' = (run_stages ext fuel fastq fasta outdir mapq threads identity
                         overlap minLength joins readLimit iters sspacebin reduction
                         scaffolding gapclosing verbose w0).2).
  { unfold w', redundants. now rewrite (bind_ret _ _ w tt w0) by now rewrite Hprep. }
  destruct (makedirs_fresh outdir w w0 Htree Hmk) as (Hc0 & HD0 & Hfree0 & Hext0).
  fold D in HD0, Hfree0.
  assert (Hmade : fs w !! D = None /\
            forall k, fs w !! k = None -> fs w0 !! k <> None -> k `prefix_of` D).
  { unfold os_makedirs in Hmk. fold D in Hmk.
    destruct D as [|c q] eqn:ED; [discriminate|].
    destruct (mkdir_p (fs w) [] (c :: q)) as [f|] eqn:E; [|discriminate].
    injection Hmk as <-. cbn [fs]. split.
    - exact (mkdir_p_fresh_leaf _ _ _ _ E ltac:(discriminate)).
    - intros k H1 H2. exact (mkdir_p_new _ _ _ _ E k H1 H2). }
  destruct Hmade as [HDw Hnew].
  destruct (conf_run_stages ext fuel fastq fasta outdir mapq threads identity overlap
              minLength joins readLimit iters sspacebin reduction scaffolding
              gapclosing verbose w0) as (Hc & Hfr & _).
  { intros x t _. rewrite Hc0. fold D. rewrite Hfree0. discriminate. }
  rewrite <- Hred in Hc, Hfr. rewrite Hc0 in Hfr. fold D in Hfr.
  split; [congruence|]. split.
  - intros k n Hk. rewrite Hfr; [now apply Hext0|].
    intros Hpre. rewrite (tree_nothing_below w D Htree HDw k Hpre) in Hk. discriminate.
  - intros k H1 H2. destruct (decide (D `prefix_of` k)) as [Hpre|Hpre]; [now left|].
    right. apply Hnew; [exact H1|]. now rewrite <- Hfr.
Qed.

Lemma run_stays_in_outdir_witness :
  let w' := (Scenario.run Scenario.ext true true true).2 in
  cwd w' = cwd Scenario.w0 /\
  (forall k n, fs Scenario.w0 !! k = Some n -> fs w' !! k = Some n) /\
  (forall k, fs Scenario.w0 !! k = None -> fs w' !! k <> None ->
             to_abs (cwd Scenario.w0) (rel ["out"]) `prefix_of` k \/
             k `prefix_of` to_abs (cwd Scenario.w0) (rel ["out"])).
Proof.
  exact (run_stays_in_outdir Scenario.ext 3 Scenario.fastq (rel ["asm.fa"]) (rel ["out"])
           10 2 (8 # 10) (75 # 100) 200 5 (2 # 10) 2 "sspace" true true true false
           Scenario.w0 scenario_tree).
Defined.

(** ** The front end *)

Lemma fbind_ret {A B} (m : F A) (k : A -> F B) t a t' :
  m t = (Ret a, t') -> fbind m k t = k a t'.
Proof. intros H. unfold fbind. now rewrite H. Qed.

Lemma fbind_raise {A B} (m : F A) (k : A -> F B) t e t' :
  m t = (Raise e, t') -> fbind m k t = (Raise e, t').
Proof. intros H. unfold fbind. now rewrite H. Qed.

(** A checking loop stops at the first element that fails its test. *)
Lemma ffor_find {A} (bad : top -> A -> bool) (msg : A -> front_diag) (l : list A)
    (t : top) :
  ffor l (fun x => let+ t0 := get_top in
                   if bad t0 x then fwrite (msg x) >>+ fraise (SystemExit 1)
                   else fret tt) t =
    match List.find (bad t) l with
    | Some x => (Raise (SystemExit 1), Top (core t) (front t ++ [msg x]))
    | None => (Ret tt, t)
    end.
Proof.
  induction l as [|x l IH]; [reflexivity|]. simpl.
  destruct (bad t x) eqn:E.
  - apply fbind_raise. rewrite (fbind_ret _ _ t t t) by reflexivity. now rewrite E.
  - rewrite (fbind_ret _ _ t tt t); [exact IH|].
    rewrite (fbind_ret _ _ t t t) by reflexivity. now rewrite E.
Qed.

Lemma check_executables (shell_stdout : string -> string) (cmds : list string)
    (t : top) :
  ffor cmds
       (fun cmd =>
          let info := _check_executable shell_stdout cmd in
          if contains "not found" info
          then fwrite (ExecutableError info) >>+ fraise (SystemExit 1)
          else fret tt) t =
    match List.find (fun cmd => contains "not found" (shell_stdout ("type " +:+ cmd)))
                    cmds with
    | Some cmd =>
        (Raise (SystemExit 1),
         Top (core t) (front t ++ [ExecutableError (shell_stdout ("type " +:+ cmd))]))
    | None => (Ret tt, t)
    end.
Proof.
  induction cmds as [|c l IH]; [reflexivity|].
  cbn [ffor List.find]. cbv zeta. unfold _check_executable at 1 2.
  destruct (contains "not found" (shell_stdout ("type " +:+ c))) eqn:E.
  - apply fbind_raise. reflexivity.
  - rewrite (fbind_ret _ _ t tt t) by reflexivity. exact IH.
Qed.

Section FrontEndChecks.

Context (ext : Collaborators) (fuel : nat) (shell_stdout : string -> string).

(** [main] validates before it runs anything.  The assembly and the read
    files are examined in the order given, the assembly first, and the
    first one that is not a regular file is reported; only then are the
    four executables examined, in the order blat, bwa, the scaffolder and
    Gap2Seq, and the first whose [type] output contains "not found" is
    reported.  In both cases [main] exits with code 1 and the pipeline has
    not been started: no directory is made, nothing is invoked.  Otherwise
    [main] is the pipeline run on the given options. *)
Theorem main_checks (o : Options) (t : top) :
  let inputs := o_fasta o :: o_fastq o in
  let cmds := ["blat"; "bwa"; o_sspacebin o; "Gap2Seq"] in
  let missing := List.find (fun fn => negb (isfile (core t) fn)) inputs in
  let flagged :=
    List.find (fun cmd => contains "not found" (shell_stdout ("type " +:+ cmd))) cmds in
  let t0 := if o_verbose o then Top (core t) (front t ++ [OptionsLine o]) else t in
  main ext fuel shell_stdout o t =
    match missing, flagged with
    | Some fn, _ =>
        (Raise (SystemExit 1), Top (core t) (front t0 ++ [NoSuchFile fn]))
    | None, Some cmd =>
        (Raise (SystemExit 1),
         Top (core t) (front t0 ++ [ExecutableError (shell_stdout ("type " +:+ cmd))]))
    | None, None =>
        in_core (redundants ext fuel (o_fastq o) (o_fasta o) (o_outdir o) (o_mapq o)
                   (o_threads o) (o_identity o) (o_overlap o) (o_minLength o)
                   (o_joins o) (o_limit o) (o_iters o) (o_sspacebin o)
                   (o_noreduction o) (o_noscaffolding o) (o_nogapclosing o)
                   (o_verbose o)) t0
    end.
Proof.
  intros inputs cmds missing flagged t0.
  assert (Ht0 : core t0 = core t) by (unfold t0; now destruct (o_verbose o)).
  unfold main.
  rewrite (fbind_ret _ _ t tt t0) by (unfold t0; now destruct (o_verbose o)).
  pose proof (ffor_find (fun t1 fn => negb (isfile (core t1) fn)) NoSuchFile inputs t0)
    as Hin.
  cbv beta in Hin. rewrite Ht0 in Hin. fold missing in Hin.
  pose proof (check_executables shell_stdout cmds t0) as Hex.
  fold flagged in Hex. rewrite Ht0 in Hex.
  destruct missing as [fn|].
  - now apply fbind_raise.
  - rewrite (fbind_ret _ _ t0 tt t0 Hin).
    destruct flagged as [cmd|].
    + now apply fbind_raise.
    + now rewrite (fbind_ret _ _ t0 tt t0 Hex).
Qed.

End FrontEndChecks.

Lemma mkdir_p_taken (todo : list string) :
  forall f seen,
    todo <> [] -> f !! (seen ++ todo) <> None -> mkdir_p f seen todo = None.
Proof.
  induction todo as [|c todo IH]; intros f seen Hne Hex; [congruence|].
  simpl. destruct todo as [|c' todo].
  - destruct (f !! (seen ++ [c])) as [[x|t|]|]; [reflexivity.. | congruence].
  - assert (Hrest : forall f', f' !! ((seen ++ [c]) ++ c' :: todo) <> None ->
                               mkdir_p f' (seen ++ [c]) (c' :: todo) = None).
    { intros f' H. apply IH; [discriminate | exact H]. }
    rewrite <- app_assoc in Hrest. simpl in Hrest.
    destruct (f !! (seen ++ [c])) as [[x|t|]|] eqn:E; try reflexivity.
    + now apply Hrest.
    + apply Hrest. rewrite lookup_insert_ne; [exact Hex|].
      intros E'. apply (f_equal List.length) in E'.
      rewrite !length_app in E'. simpl in E'. lia.
Qed.

Lemma makedirs_taken (p : path) (w : world) :
  fs w !! to_abs (cwd w) p <> None -> os_makedirs p w = (Raise OSError, w).
Proof.
  intros Hex. unfold os_makedirs.
  destruct (to_abs (cwd w) p) as [|c q] eqn:E; [reflexivity|].
  now rewrite (mkdir_p_taken (c :: q) (fs w) []).
Qed.

Lemma follow_insert_file (n : nat) (f : gmap (list string) node) (q x : list string)
    (c : string) :
  (forall t, f !! q <> Some (Link t)) ->
  follow n (<[q := File c]> f) x = follow n f x.
Proof.
  intros Hq. revert x. induction n as [|n IH]; intros x; [reflexivity|].
  simpl. destruct (decide (q = x)) as [->|Hne].
  - rewrite lookup_insert_eq. destruct (f !! x) as [[c0|t|]|] eqn:E; try reflexivity.
    exfalso. exact (Hq t eq_refl).
  - rewrite lookup_insert_ne by exact Hne.
    destruct (f !! x) as [[c0|t|]|]; try reflexivity. apply IH.
Qed.

(** [open(p, "w")] changes one entry: the file the path leads to, which it
    creates or empties. *)
Lemma write_file_inv (p : path) (c : string) (w w1 : world) :
  write_file p c w = (Ret tt, w1) ->
  exists q,
    w1 = World (<[q := File c]> (fs w)) (cwd w) (stderr w) (calls w) /\
    (fs w !! q = None \/ exists c0, fs w !! q = Some (File c0)).
Proof.
  unfold write_file.
  destruct (follow MAXSYMLINKS (fs w) (to_abs (cwd w) p)) as [q|]; [|discriminate].
  destruct (fs w !! q) as [[c0|t|]|] eqn:E; try discriminate.
  - destruct (decide (q = [])); [discriminate|]. intros [= <-].
    exists q. split; [reflexivity|]. right. now exists c0.
  - destruct (fs w !! removelast q) as [[c0|t|]|]; try discriminate.
    destruct (decide (q = [])); [discriminate|]. intros [= <-].
    exists q. split; [reflexivity|]. now left.
Qed.

Lemma stat_write_file (p : path) (c : string) (w w1 : world) (x : path) :
  write_file p c w = (Ret tt, w1) ->
  stat w1 x = stat w x \/
  (stat w1 x = Some (File c) /\
   (stat w x = None \/ exists c0, stat w x = Some (File c0))).
Proof.
  intros H. apply write_file_inv in H as (q & -> & Hq).
  unfold stat. cbn [fs cwd].
  rewrite follow_insert_file
    by (intros t; destruct Hq as [Hq|[c0 Hq]]; rewrite Hq; discriminate).
  destruct (follow MAXSYMLINKS (fs w) (to_abs (cwd w) x)) as [r|]; [|now left].
  destruct (decide (q = r)) as [->|Hne].
  - right. rewrite lookup_insert_eq. split; [reflexivity|]. exact Hq.
  - left. now rewrite lookup_insert_ne.
Qed.

Lemma isfile_write_file (p : path) (c : string) (w w1 : world) (x : path) :
  write_file p c w = (Ret tt, w1) -> isfile w x = true -> isfile w1 x = true.
Proof.
  intros H. unfold isfile.
  destruct (stat_write_file p c w w1 x H) as [->|[-> _]]; [now intros | reflexivity].
Qed.

Lemma isdir_write_file (p : path) (c : string) (w w1 : world) (x : path) :
  write_file p c w = (Ret tt, w1) -> isdir w1 x = isdir w x.
Proof.
  intros H. unfold isdir.
  destruct (stat_write_file p c w w1 x H) as [->|[-> [->|[c0 ->]]]]; reflexivity.
Qed.

Lemma find_none_impl {A} (f g : A -> bool) (l : list A) :
  (forall x, f x = false -> g x = false) ->
  List.find f l = None -> List.find g l = None.
Proof.
  intros Hfg. induction l as [|x l IH]; [reflexivity|]. simpl.
  destruct (f x) eqn:E; [discriminate|]. rewrite (Hfg x E). exact IH.
Qed.

(** What [parse_args] leaves: the world with the log opened, or the exit
    with status 2 from the world as it was. *)
Lemma parse_args_run (o : Options) (t : top) :
  (exists w1, parse_args o t = (Ret o, Top w1 (front t)) /\
              log_opened (o_log o) (core t) w1) \/
  (exists p, o_log o = Some p /\
             parse_args o t =
               (Raise (SystemExit 2), Top (core t) (front t ++ [CannotOpen p]))).
Proof.
  unfold parse_args, log_opened. destruct t as [w fr]. cbn [core front].
  destruct (o_log o) as [p|]; [|left; now exists w].
  destruct (bool_decide (p = rel ["-"])); [left; now exists w|].
  cbn [core front].
  destruct (write_file p "" w) as [[[]|e] w1] eqn:E.
  - left. exists w1. split; reflexivity.
  - right. exists p. split; [reflexivity|].
    assert (Hw : w1 = w).
    { revert E. unfold write_file.
      destruct (follow MAXSYMLINKS (fs w) (to_abs (cwd w) p)) as [q|];
        [|now intros [= <-]].
      destruct (fs w !! q) as [[c0|t0|]|]; try (now intros [= <-]).
      - destruct (decide (q = [])); [now intros [= <-] | discriminate].
      - destruct (fs w !! removelast q) as [[c0|t0|]|]; try (now intros [= <-]).
        destruct (decide (q = [])); [now intros [= <-] | discriminate]. }
    now rewrite Hw.
Qed.

Section Script.

Context (ext : Collaborators) (fuel : nat) (shell_stdout : string -> string).

(** What the script does when the output path is taken.  With all input
    files in place and no executable reported missing, on a command line
    that is well formed: reading the command line opens the file named by
    [--log] for writing, which creates or empties that file and changes
    nothing else; when it cannot be opened the script exits with status 2
    and has changed nothing.  After that, when the output path is a
    directory, the script writes the diagnostic of [redundants] and exits
    with code 1, without the elapsed-time line; when it is any other
    existing entry, [os.makedirs] raises [OSError], which the top-level
    handler reports, and the script then writes the elapsed-time line and
    ends normally, with exit status 0.  In both cases the file system is
    the one that the reading of the command line left, and no collaborator
    has been invoked. *)
Theorem script_outdir_taken (o : Options) (t : top) :
  List.find (fun fn => negb (isfile (core t) fn)) (o_fasta o :: o_fastq o) = None ->
  List.find (fun cmd => contains "not found" (shell_stdout ("type " +:+ cmd)))
            ["blat"; "bwa"; o_sspacebin o; "Gap2Seq"] = None ->
  let w := core t in
  let t0 := if o_verbose o then front t ++ [OptionsLine o] else front t in
  (forall e t1, parse_args o t = (Raise e, t1) ->
     e = SystemExit 2 /\ core t1 = w /\
     script ext fuel shell_stdout o t = (Raise (SystemExit 2), t1)) /\
  (forall o' t1, parse_args o t = (Ret o', t1) ->
     let w1 := core t1 in
     log_opened (o_log o) w w1 /\
     cwd w1 = cwd w /\ stderr w1 = stderr w /\ calls w1 = calls w /\
     (forall k, fs w1 !! k = fs w !! k \/
                (fs w1 !! k = Some (File "") /\
                 (fs w !! k = None \/ exists c, fs w !! k = Some (File c)))) /\
     (isdir w (o_outdir o) = true ->
      script ext fuel shell_stdout o t =
        (Raise (SystemExit 1),
         Top (World (fs w1) (cwd w1) (stderr w1 ++ [DirectoryExists (o_outdir o)])
                    (calls w1)) t0) /\
      exit_status (script ext fuel shell_stdout o t).1 = 1%Z) /\
     (fs w !! to_abs (cwd w) (o_outdir o) <> None -> isdir w (o_outdir o) = false ->
      script ext fuel shell_stdout o t =
        (Ret tt, Top w1 (t0 ++ [OSErrorLine; TimeElapsed])) /\
      exit_status (script ext fuel shell_stdout o t).1 = 0%Z)).
Proof.
  intros Hin Hex w t0.
  destruct (parse_args_run o t) as [(w1 & Hparse & Hlog)|(p & Hp & Hparse)].
  2:{ split.
      - intros e t1 H. rewrite Hparse in H. injection H as <- <-.
        split; [reflexivity|]. split; [reflexivity|].
        unfold script. now rewrite (fbind_raise _ _ _ _ _ Hparse).
      - intros o' t1 H. rewrite Hparse in H. discriminate. }
  split; [intros e t1 H; rewrite Hparse in H; discriminate|].
  intros o' t1 H. rewrite Hparse in H. injection H as <- <-. cbn [core].
  assert (Hsame : w1 = w \/ exists p, write_file p "" w = (Ret tt, w1)).
  { unfold log_opened in Hlog. destruct (o_log o) as [p|]; [|now left].
    destruct (bool_decide (p = rel ["-"])); [now left | right; now exists p]. }
  assert (Hfile : forall x, isfile w x = true -> isfile w1 x = true).
  { destruct Hsame as [->|[p Hw]]; [now intros|].
    intros x. exact (isfile_write_file p "" w w1 x Hw). }
  assert (Hdir : forall x, isdir w1 x = isdir w x).
  { destruct Hsame as [->|[p Hw]]; [now intros|].
    intros x. exact (isdir_write_file p "" w w1 x Hw). }
  assert (Hkeys : cwd w1 = cwd w /\ stderr w1 = stderr w /\ calls w1 = calls w /\
            forall k, fs w1 !! k = fs w !! k \/
                      (fs w1 !! k = Some (File "") /\
                       (fs w !! k = None \/ exists c, fs w !! k = Some (File c)))).
  { destruct Hsame as [->|[p Hw]]; [repeat split; now left|].
    apply write_file_inv in Hw as (q & -> & Hq). cbn [fs cwd stderr calls].
    repeat split. intros k. destruct (decide (q = k)) as [->|Hne].
    - right. now rewrite lookup_insert_eq.
    - left. now rewrite lookup_insert_ne. }
  destruct Hkeys as (Hcwd & Herr & Hcalls & Hkeys).
  split; [exact Hlog|]. split; [exact Hcwd|]. split; [exact Herr|].
  split; [exact Hcalls|]. split; [exact Hkeys|].
  set (t1 := Top w1 (front t)) in *.
  set (t2 := if o_verbose o then Top w1 (front t ++ [OptionsLine o]) else t1).
  assert (Hcore : core t2 = w1) by (unfold t2, t1; now destruct (o_verbose o)).
  assert (Hfront : front t2 = t0) by (unfold t2, t1, t0; now destruct (o_verbose o)).
  assert (Hmain : main ext fuel shell_stdout o t1 =
            in_core (redundants ext fuel (o_fastq o) (o_fasta o) (o_outdir o) (o_mapq o)
                       (o_threads o) (o_identity o) (o_overlap o) (o_minLength o)
                       (o_joins o) (o_limit o) (o_iters o) (o_sspacebin o)
                       (o_noreduction o) (o_noscaffolding o) (o_nogapclosing o)
                       (o_verbose o)) t2).
  { unfold main.
    rewrite (fbind_ret _ _ t1 tt t2) by (unfold t2, t1; now destruct (o_verbose o)).
    rewrite (fbind_ret _ _ t2 tt t2).
    2:{ rewrite (ffor_find (fun t3 fn => negb (isfile (core t3) fn)) NoSuchFile).
        cbv beta. rewrite Hcore.
        rewrite (find_none_impl (fun fn => negb (isfile w fn))
                   (fun fn => negb (isfile w1 fn)) _); [reflexivity | | exact Hin].
        intros x Hx. apply negb_false_iff in Hx. apply negb_false_iff.
        now apply Hfile. }
    rewrite (fbind_ret _ _ t2 tt t2); [reflexivity|].
    rewrite check_executables. now rewrite Hex. }
  unfold in_core in Hmain. rewrite Hcore, Hfront in Hmain.
  split.
  - intros Hd. rewrite <- Hdir in Hd.
    rewrite (exit_when_outdir_exists ext fuel (o_fastq o) (o_fasta o) (o_outdir o)
               (o_mapq o) (o_threads o) (o_identity o) (o_overlap o) (o_minLength o)
               (o_joins o) (o_limit o) (o_iters o) (o_sspacebin o) (o_noreduction o)
               (o_noscaffolding o) (o_nogapclosing o) (o_verbose o) w1 Hd) in Hmain.
    unfold script. rewrite (fbind_ret _ _ t o t1 Hparse), Hmain. split; reflexivity.
  - intros Htaken Hd. rewrite <- Hdir in Hd.
    assert (Htaken1 : fs w1 !! to_abs (cwd w1) (o_outdir o) <> None).
    { rewrite Hcwd. destruct (Hkeys (to_abs (cwd w) (o_outdir o))) as [->|[-> _]];
        [exact Htaken | discriminate]. }
    assert (Hred : redundants ext fuel (o_fastq o) (o_fasta o) (o_outdir o) (o_mapq o)
                     (o_threads o) (o_identity o) (o_overlap o) (o_minLength o)
                     (o_joins o) (o_limit o) (o_iters o) (o_sspacebin o)
                     (o_noreduction o) (o_noscaffolding o) (o_nogapclosing o)
                     (o_verbose o) w1 = (Raise OSError, w1)).
    { unfold redundants. apply bind_raise. unfold prepare_outdir.
      rewrite (bind_ret _ _ w1 w1 w1) by reflexivity. rewrite Hd.
      now apply makedirs_taken. }
    rewrite Hred in Hmain. unfold script.
    rewrite (fbind_ret _ _ t o t1 Hparse), Hmain.
    split; [|reflexivity]. unfold fbind, fwrite. cbn [core front].
    now rewrite <- app_assoc.
Qed.

End Script.

Lemma script_outdir_taken_witness :
  let t := Top Scenario.w_out [] in
  let quiet := fun _ : string => "" in
  let logged :=
    World (<[ ["data"; "run.log"] := File "" ]> (fs Scenario.w_out))
          (cwd Scenario.w_out) (stderr Scenario.w_out) (calls Scenario.w_out) in
  script Scenario.ext 3 quiet Cases.options_out t =
    (Raise (SystemExit 1),
     Top (World (fs Scenario.w_out) (cwd Scenario.w_out)
                (stderr Scenario.w_out ++ [DirectoryExists (rel ["out"])])
                (calls Scenario.w_out)) []) /\
  script Scenario.ext 3 quiet Cases.options_asm t =
    (Ret tt, Top Scenario.w_out [OSErrorLine; TimeElapsed]) /\
  script Scenario.ext 3 quiet Cases.options_log t =
    (Raise (SystemExit 1),
     Top (World (fs logged) (cwd logged)
                (stderr logged ++ [DirectoryExists (rel ["out"])]) (calls logged)) []) /\
  script Scenario.ext 3 quiet Cases.options_nolog t =
    (Raise (SystemExit 2), Top Scenario.w_out [CannotOpen (rel ["logs"; "run.log"])]).
Proof.
  intros t quiet logged.
  split; [|split; [|split]].
  - apply (proj2 (script_outdir_taken Scenario.ext 3 quiet Cases.options_out t
                    eq_refl eq_refl) Cases.options_out t eq_refl); reflexivity.
  - apply (proj2 (script_outdir_taken Scenario.ext 3 quiet Cases.options_asm t
                    eq_refl eq_refl) Cases.options_asm t eq_refl);
      [discriminate | reflexivity].
  - assert (Hp : parse_args Cases.options_log t = (Ret Cases.options_log, Top logged []))
      by (vm_compute; reflexivity).
    apply (proj2 (script_outdir_taken Scenario.ext 3 quiet Cases.options_log t
                    eq_refl eq_refl) Cases.options_log (Top logged []) Hp); reflexivity.
  - assert (Hp : parse_args Cases.options_nolog t =
                   (Raise (SystemExit 2),
                    Top Scenario.w_out [CannotOpen (rel ["logs"; "run.log"])]))
      by (vm_compute; reflexivity).
    apply (proj1 (script_outdir_taken Scenario.ext 3 quiet Cases.options_nolog t
                    eq_refl eq_refl) (SystemExit 2) _ Hp).
Defined.

(** ** Classification when a read file is missing *)

Lemma add_library_missing (cur : LibrarySet) (i : nat) (d : dataset) (w : world) :
  isfile w (fq1 d) = false \/ isfile w (fq2 d) = false ->
  add_library cur i d w = (Raise IOError, w).
Proof.
  intros Hmiss. unfold add_library.
  destruct (isfile w (fq1 d)) eqn:E1.
  - rewrite (bind_ret _ _ w (fq1 d) w) by (unfold open_r; now rewrite E1).
    apply bind_raise. unfold open_r.
    destruct Hmiss as [H|H]; [discriminate | now rewrite H].
  - apply bind_raise. unfold open_r. now rewrite E1.
Qed.

Lemma loop_missing (ds : list dataset) :
  forall libraries i groups w,
    loop_inv libraries i groups ->
    Forall (fun d => (List.length (pairs d) <= 4)%nat /\ py_sum (pairs d) <> 0%Z /\
                     ~ (ismean d == 0)%Q) ds ->
    Exists (fun d => isfile w (fq1 d) = false \/ isfile w (fq2 d) = false) ds ->
    exists w', for_each ds get_libraries_body (libraries, i) w = (Raise IOError, w') /\
               same_but_stderr w w'.
Proof.
  induction ds as [|d ds IH]; intros libraries i groups w Hinv Hwf Hbad.
  - inversion Hbad.
  - inversion Hwf as [|? ? (Hlen & Hsum & Hmean) Hwf']; subst.
    destruct (isfile w (fq1 d)) eqn:E1; [destruct (isfile w (fq2 d)) eqn:E2|].
    2,3: destruct (open_set_run libraries i groups d w Hinv)
           as (front & cur & gfront & g & Hopen & _);
         exists w; split; [|apply same_but_stderr_refl];
         simpl; apply bind_raise; unfold get_libraries_body;
         rewrite (bind_ret _ _ w _ w Hopen); apply bind_raise;
         apply add_library_missing; tauto.
    assert (Hcl : classifiable w d) by now split.
    destruct (body_run libraries i groups d w Hinv Hcl)
      as (l1 & i1 & w1 & Hrun1 & Hs1 & Hinv1).
    destruct (IH l1 i1 (spec_step groups d) w1 Hinv1 Hwf') as (w' & Hf & Hs').
    + inversion Hbad as [? ? [Hz|Hz]|? ? Hrest]; subst; [congruence | congruence |].
      eapply Exists_impl; [exact Hrest|]. intros x Hx. simpl in Hx.
      now rewrite !(isfile_same w w1) by exact Hs1.
    + exists w'. split; [|exact (same_but_stderr_trans _ _ _ Hs1 Hs')].
      simpl. now rewrite (bind_ret _ _ w _ w1 Hrun1).
Qed.

(** The classifier opens every read file that a measurement names.  When
    the measurements are otherwise sound (at most four counts with a
    non-zero sum, a non-zero mean insert) and one of them names a read
    file that is not there, [get_libraries] raises [IOError]; the
    statistics collaborator has been invoked, and nothing else has
    changed but the diagnostics of the datasets consumed before. *)
Theorem classification_missing_file (ext : Collaborators) (fastq : list path)
    (fasta : path) (mapq threads limit : Z) (verbose : bool) (w : world)
    (libdata : list dataset) :
  fastq2insert_size ext w fastq fasta mapq threads (floor_limit limit / 100) verbose
    = Ret libdata ->
  Forall (fun d => (List.length (pairs d) <= 4)%nat /\ py_sum (pairs d) <> 0%Z /\
                   ~ (ismean d == 0)%Q) libdata ->
  Exists (fun d => isfile w (fq1 d) = false \/ isfile w (fq2 d) = false) libdata ->
  exists w',
    get_libraries ext fastq fasta mapq threads limit verbose w = (Raise IOError, w') /\
    fs w' = fs w /\
    calls w' = calls w ++
      [CallInsertSize fastq fasta mapq threads (floor_limit limit / 100) verbose].
Proof.
  intros Hstats Hwf Hbad.
  set (c := CallInsertSize fastq fasta mapq threads (floor_limit limit / 100) verbose).
  set (w1 := World (fs w) (cwd w) (stderr w) (calls w ++ [c])).
  destruct (loop_missing (sorted ismean libdata) [] 1%nat [] w1 loop_inv_init)
    as (w' & Hf & Hfs & _ & Hcalls).
  - rewrite (sorted_perm ismean libdata). exact Hwf.
  - rewrite (sorted_perm ismean libdata). exact Hbad.
  - exists w'. split; [|split; [exact Hfs | exact Hcalls]].
    unfold get_libraries.
    rewrite (bind_ret _ _ w w w) by reflexivity.
    rewrite (bind_ret _ _ w tt w1) by reflexivity.
    rewrite (bind_ret _ _ w1 libdata w1) by now rewrite lift_ret, Hstats.
    now apply bind_raise.
Qed.

Lemma classification_missing_file_witness :
  exists w',
    get_libraries Cases.ext_lost Scenario.fastq (rel ["asm.fa"]) 10 2 0 true Scenario.w0
      = (Raise IOError, w') /\
    fs w' = fs Scenario.w0 /\
    calls w' = calls Scenario.w0 ++
      [CallInsertSize Scenario.fastq (rel ["asm.fa"]) 10 2 (floor_limit 0 / 100) true].
Proof.
  apply (classification_missing_file Cases.ext_lost Scenario.fastq (rel ["asm.fa"])
           10 2 0 true Scenario.w0 [Scenario.d300; Cases.d_lost]).
  - reflexivity.
  - repeat constructor; simpl; try lia; discriminate.
  - apply Exists_cons_tl, Exists_cons_hd. left. reflexivity.
Defined.

(** ** The scaffolds are the output of the last round *)

Lemma artifact_after_app (pout : path) (cs1 cs2 : list call) :
  artifact_after pout (cs1 ++ cs2) = artifact_after (artifact_after pout cs1) cs2.
Proof.
  revert pout. induction cs1 as [|c cs1 IH]; intros pout; [reflexivity|].
  destruct c; simpl; apply IH.
Qed.

Lemma artifact_after_rounds (outdir : path) (limit : Z) (lib : LibrarySet) (i : nat)
    (js : list nat) :
  forall pout,
    artifact_after pout (expected_rounds_set outdir limit lib i pout js)
      = last_output outdir i pout js.
Proof.
  induction js as [|j js IH]; intros pout; simpl; [reflexivity | apply IH].
Qed.

Section LastRound.

Context (ext : Collaborators) (outdir : path) (fastq : list path)
        (mapq threads joins limit iters : Z) (sspacebin : string) (verbose : bool).

Lemma loop_artifact (fuel : nat) :
  forall libraries i pout w libs' pout' w',
    scaffolding_loop ext outdir fastq mapq threads joins limit iters sspacebin verbose
                     fuel libraries i pout w = (Ret (Some (libs', pout')), w') ->
    exists trace, calls w' = calls w ++ trace /\ pout' = artifact_after pout trace.
Proof.
  induction fuel as [|fuel IH]; intros libraries i pout w libs' pout' w' H;
    simpl in H; [inversion H|].
  destruct (i <? List.length libraries)%nat.
  - bind_inv H. bind_inv H. bind_inv H.
    unfold lift in H0. injection H0 as _ <-.
    apply (rounds_run ext outdir fastq mapq threads joins limit iters sspacebin verbose)
      in H1 as [-> Hc1].
    pose proof (get_libraries_calls ext fastq
                  (last_output outdir (S i) pout (range1 iters))
                  mapq threads limit false w1) as Hc2.
    rewrite H2 in Hc2. simpl in Hc2. destruct Hc2 as [_ Hc2].
    destruct (IH _ _ _ _ _ _ _ H) as (trace & Hc3 & ->).
    exists (expected_rounds_set outdir limit a (S i) pout (range1 iters) ++
            [CallInsertSize fastq (last_output outdir (S i) pout (range1 iters))
               mapq threads (floor_limit limit / 100) false] ++ trace).
    split.
    + rewrite Hc3, Hc2, Hc1, <- !app_assoc. reflexivity.
    + rewrite artifact_after_app, artifact_after_rounds. reflexivity.
  - injection H as <- <- <-. exists []. split; [now rewrite app_nil_r | reflexivity].
Qed.

Lemma absent_scaffolding_loop (fuel : nat) :
  forall libraries i pout,
    keeps (absent_in outdir "scaffolds.fa")
          (scaffolding_loop ext outdir fastq mapq threads joins limit iters sspacebin
             verbose fuel libraries i pout).
Proof.
  set (P := absent_in outdir "scaffolds.fa").
  assert (Hround : forall lib i pout j,
             keeps P (scaffolding_round ext outdir mapq threads joins limit sspacebin
                        verbose lib i pout j)).
  { intros lib i pout j. unfold scaffolding_round, sspace_out.
    rewrite !path_add_in_dir.
    apply (keeps_bind P).
    { destruct verbose; [apply absent_write_stderr | apply (keeps_ret P)]. }
    intros _. apply (keeps_bind P); [apply (keeps_open_r P)|]. intros h.
    apply (keeps_bind P); [apply (keeps_read P)|]. intros text.
    apply (keeps_bind P); [apply absent_record_call|]. intros _.
    apply (keeps_bind P); [apply (keeps_get_world P)|]. intros w.
    apply (keeps_bind P); [apply (keeps_lift P)|]. intros res.
    apply (keeps_bind P); [apply absent_sspace_writes; discriminate|]. intros _.
    apply (keeps_bind P); [apply absent_symlink; discriminate|]. intros _.
    apply (keeps_ret P). }
  induction fuel as [|n IH]; intros libs i pout; simpl; [apply (keeps_ret P)|].
  destruct (i <? List.length libs)%nat; [|apply (keeps_ret P)].
  apply (keeps_bind P); [apply (keeps_lift P)|]. intros lib.
  apply (keeps_bind P); [apply (keeps_for_each P); intros; apply Hround|].
  intros pout'. apply (keeps_bind P).
  { apply (all_get_libraries P); [apply absent_write_stderr | apply absent_record_call]. }
  intros libs'. apply IH.
Qed.

(** When [run_scaffolding] returns, the scaffolds are what the last round
    left.  Started with the name [scaffolds.fa] free in the run directory,
    a run that returns has made that name a symbolic link, and the link
    agrees with the output link of the last scaffolder invocation (with
    the reduced contigs when the scaffolder was not invoked at all, as with
    an empty classification or no iterations): whenever both can be read,
    they hold the same content. *)
Theorem scaffolds_are_last_output (fuel : nat) (libraries libs' : list LibrarySet)
    (reduced : path) (w w' : world) :
  fs w !! to_abs (cwd w) (scaffoldsFname outdir) = None ->
  run_scaffolding ext outdir fastq mapq threads joins limit iters sspacebin verbose
                  fuel (scaffoldsFname outdir) libraries reduced w
    = (Ret (Some libs'), w') ->
  exists trace,
    calls w' = calls w ++ trace /\
    is_link w' (scaffoldsFname outdir) /\
    forall a b,
      content_of w' (scaffoldsFname outdir) = Some a ->
      content_of w' (artifact_after reduced trace) = Some b ->
      a = b.
Proof.
  intros Hfree Hrun. unfold run_scaffolding in Hrun. bind_inv Hrun.
  destruct a as [[libs pout]|]; [|discriminate].
  bind_inv Hrun. destruct a. injection Hrun as <- <-.
  destruct (loop_artifact _ _ _ _ _ _ _ _ H) as (trace & Hcalls & ->).
  destruct (keeps_ret_inv _ _ _ _ _ (absent_scaffolding_loop fuel libraries 0 reduced) H)
    as [Hc Hn].
  unfold scaffoldsFname in Hfree. rewrite to_abs_in_dir in Hfree.
  specialize (Hn Hfree). rewrite <- Hc in Hn.
  exists trace. split; [|split].
  - rewrite <- Hcalls.
    exact (keeps_ret_inv calls_kept _ _ _ _ (calls_symlink _ _) H0).
  - destruct (symlink_makes_link _ _ _ _ _ Hn H0) as (Hc' & t & Ht).
    exists t. unfold scaffoldsFname. now rewrite to_abs_in_dir, Hc'.
  - intros a b Ha Hb.
    exact (forward_by_symlink w0 _ outdir _ "scaffolds.fa" a b Hn H0 Ha Hb).
Qed.

End LastRound.

Lemma scaffolds_are_last_output_witness :
  exists libs' w' trace,
    run_scaffolding Scenario.ext (rel ["out"]) Scenario.fastq 10 2 5 0 2 "sspace" false
                    3 (scaffoldsFname (rel ["out"]))
                    [Scenario.set_short; Scenario.set_long]
                    (rel ["out"; "contigs.reduced.fa"]) Scenario.w_reduced
      = (Ret (Some libs'), w') /\
    calls w' = calls Scenario.w_reduced ++ trace /\
    is_link w' (scaffoldsFname (rel ["out"])) /\
    forall a b,
      content_of w' (scaffoldsFname (rel ["out"])) = Some a ->
      content_of w' (artifact_after (rel ["out"; "contigs.reduced.fa"]) trace) = Some b ->
      a = b.
Proof.
  eexists _, _.
  assert (Hrun : run_scaffolding Scenario.ext (rel ["out"]) Scenario.fastq 10 2 5 0 2
                   "sspace" false 3 (scaffoldsFname (rel ["out"]))
                   [Scenario.set_short; Scenario.set_long]
                   (rel ["out"; "contigs.reduced.fa"]) Scenario.w_reduced
                 = (Ret (Some _), _)) by (apply run_eq; vm_compute; reflexivity).
  assert (Hfree : fs Scenario.w_reduced
                    !! to_abs (cwd Scenario.w_reduced) (scaffoldsFname (rel ["out"]))
                  = None) by reflexivity.
  destruct (scaffolds_are_last_output _ _ _ _ _ _ _ _ _ _ _ _ _ _ _ _ Hfree Hrun)
    as (trace & H1 & H2 & H3).
  exists trace. split; [exact Hrun|]. split; [exact H1|]. split; [exact H2 | exact H3].
Defined.

(** ** The variability warnings of the classifier *)

Lemma add_library_stderr (cur : LibrarySet) (i : nat) (d : dataset) (w w' : world)
    (r : LibrarySet) :
  classifiable w d ->
  add_library cur i d w = (Ret r, w') ->
  exists pre,
    stderr w' = stderr w ++ pre ++ variability_warning d /\
    filter is_variability pre = [].
Proof.
  intros [H1 H2 Hlen Hsum Hmean] Hrun.
  destruct (get_orientation_run (pairs d) (fq1 d) (fq2 d) w Hlen Hsum)
    as (k & m & o & _ & _ & Hor).
  unfold add_library in Hrun.
  rewrite (bind_ret _ _ w (fq1 d) w) in Hrun by (unfold open_r; now rewrite H1).
  rewrite (bind_ret _ _ w (fq2 d) w) in Hrun by (unfold open_r; now rewrite H2).
  rewrite (bind_ret _ _ w _ _ Hor) in Hrun.
  set (w1 := if Qltb (100 * inject_Z m / inject_Z (py_sum (pairs d))) 90
             then World (fs w) (cwd w)
                    (stderr w ++ [PoorQuality o (100 * inject_Z m / inject_Z (py_sum (pairs d)))
                                              (fq1 d) (fq2 d) (pairs d)])
                    (calls w)
             else w) in *.
  assert (Hw1 : exists pre, stderr w1 = stderr w ++ pre /\ filter is_variability pre = []).
  { unfold w1. destruct (Qltb _ 90).
    - eexists [_]. split; reflexivity.
    - exists []. split; [now rewrite app_nil_r | reflexivity]. }
  destruct Hw1 as (pre & Hpre & Hfil).
  rewrite (bind_ret _ _ w1 (ratio_of d) w1) in Hrun.
  2:{ rewrite lift_ret. unfold float_div.
      destruct (Qeqb (ismean d) 0) eqn:E; [|reflexivity].
      apply Qeqb_eq in E. contradiction. }
  exists pre. split; [|exact Hfil]. unfold variability_warning.
  destruct (Qltb (float_lit (66 # 100)) (ratio_of d)).
  - bind_inv Hrun. injection Hrun as _ <-. destruct a. injection H as <-.
    cbn [stderr]. now rewrite Hpre, <- app_assoc.
  - bind_inv Hrun. injection Hrun as _ <-. destruct a. injection H as <-.
    now rewrite Hpre, app_nil_r.
Qed.

Lemma loop_stderr (ds : list dataset) :
  forall libraries i groups w,
    loop_inv libraries i groups -> Forall (classifiable w) ds ->
    exists st w' out,
      for_each ds get_libraries_body (libraries, i) w = (Ret st, w') /\
      stderr w' = stderr w ++ out /\
      filter is_variability out = List.concat (variability_warning <$> ds).
Proof.
  induction ds as [|d ds IH]; intros libraries i groups w Hinv Hall.
  - exists (libraries, i), w, []. split; [reflexivity|].
    split; [now rewrite app_nil_r | reflexivity].
  - inversion Hall as [|? ? Hd Hds]; subst.
    destruct (body_run libraries i groups d w Hinv Hd)
      as (l1 & i1 & w1 & Hrun1 & Hs1 & Hinv1).
    assert (Hout1 : exists pre, stderr w1 = stderr w ++ pre ++ variability_warning d /\
                                filter is_variability pre = []).
    { pose proof Hrun1 as Hb. unfold get_libraries_body in Hb. bind_inv Hb.
      destruct a as [[front cur] i']. bind_inv Hb. injection Hb as _ _ <-.
      destruct (open_set_run libraries i groups d w Hinv)
        as (front' & cur' & gfront & g & Hopen & _).
      rewrite Hopen in H. injection H as _ _ _ <-.
      exact (add_library_stderr _ _ _ _ _ _ Hd H0). }
    destruct Hout1 as (pre & Hpre & Hfil).
    destruct (IH l1 i1 (spec_step groups d) w1 Hinv1) as (st & w2 & out & Hrun2 & Hout & Hf).
    { eapply Forall_impl; [exact Hds|]. intros x. now apply classifiable_same. }
    exists st, w2, (pre ++ variability_warning d ++ out). split; [|split].
    + simpl. now rewrite (bind_ret _ _ w _ w1 Hrun1).
    + rewrite Hout, Hpre, <- !app_assoc. reflexivity.
    + rewrite !filter_app, Hfil, Hf. simpl. f_equal.
      unfold variability_warning. now destruct (Qltb _ _).
Qed.

(** The classifier warns about a highly variable insert size exactly for
    the datasets whose float quotient [stdDev / mean] is above the float
    [0.66]: once for each of them, in the order in which the datasets are
    consumed, and whether or not the fraction is then clamped to 1.  The
    test is on doubles: a quotient that is above 0.66 as a rational and
    rounds to the double nearest to 0.66 gives no warning. *)
Theorem variability_warnings (ext : Collaborators) (fastq : list path) (fasta : path)
    (mapq threads limit : Z) (verbose : bool) (w : world) (libdata : list dataset) :
  fastq2insert_size ext w fastq fasta mapq threads (floor_limit limit / 100) verbose
    = Ret libdata ->
  Forall (classifiable w) libdata ->
  exists libs w' out,
    get_libraries ext fastq fasta mapq threads limit verbose w = (Ret libs, w') /\
    stderr w' = stderr w ++ out /\
    filter is_variability out =
      List.concat (variability_warning <$> sorted ismean libdata).
Proof.
  intros Hstats Hall.
  set (c := CallInsertSize fastq fasta mapq threads (floor_limit limit / 100) verbose).
  set (w1 := World (fs w) (cwd w) (stderr w) (calls w ++ [c])).
  destruct (loop_stderr (sorted ismean libdata) [] 1%nat [] w1 loop_inv_init)
    as (st & w' & out & Hrun & Hout & Hf).
  { rewrite (sorted_perm ismean libdata).
    eapply Forall_impl; [exact Hall|]. intros d [H1 H2 H3 H4 H5].
    split; assumption. }
  exists (fst st), w', out. split; [|split; [exact Hout | exact Hf]].
  unfold get_libraries.
  rewrite (bind_ret _ _ w w w) by reflexivity.
  rewrite (bind_ret _ _ w tt w1) by reflexivity.
  rewrite (bind_ret _ _ w1 libdata w1) by now rewrite lift_ret, Hstats.
  now rewrite (bind_ret _ _ w1 st w' Hrun).
Qed.

Lemma variability_warnings_witness :
  (exists libs w' out,
     get_libraries Scenario.ext Scenario.fastq (rel ["asm.fa"]) 10 2 0 true Scenario.w0
       = (Ret libs, w') /\
     stderr w' = stderr Scenario.w0 ++ out /\
     filter is_variability out =
       [HighlyVariable 1200 1500 (rel ["c_1.fq"]) (rel ["c_2.fq"])]) /\
  (exists libs w' out,
     get_libraries Cases.ext_threshold Scenario.fastq (rel ["asm.fa"]) 10 2 0 true
                   Scenario.w0 = (Ret libs, w') /\
     stderr w' = stderr Scenario.w0 ++ out /\
     filter is_variability out = [] /\
     (66 # 100 < isstd Cases.d_threshold / ismean Cases.d_threshold)%Q).
Proof.
  split.
  - destruct (variability_warnings Scenario.ext Scenario.fastq (rel ["asm.fa"]) 10 2 0
                true Scenario.w0 Scenario.libdata eq_refl scenario_classifiable)
      as (libs & w' & out & Hrun & Hout & Hf).
    exists libs, w', out. split; [exact Hrun|]. split; [exact Hout|].
    rewrite Hf. vm_compute. reflexivity.
  - destruct (variability_warnings Cases.ext_threshold Scenario.fastq (rel ["asm.fa"])
                10 2 0 true Scenario.w0 [Cases.d_threshold] eq_refl)
      as (libs & w' & out & Hrun & Hout & Hf).
    { repeat constructor; try (vm_compute; reflexivity); try (simpl; lia).
      vm_compute. intros H. discriminate H. }
    exists libs, w', out. split; [exact Hrun|]. split; [exact Hout|].
    split; [rewrite Hf; vm_compute; reflexivity | vm_compute; reflexivity].
Defined.

(** ** The invocations of the gap filler *)

#[global] Instance no_gapcloser_preorder : PreOrder no_gapcloser.
Proof.
  split.
  - intros w. exists []. split; [now rewrite app_nil_r | reflexivity].
  - intros w1 w2 w3 (t1 & H1 & F1) (t2 & H2 & F2). exists (t1 ++ t2). split.
    + now rewrite H2, H1, <- app_assoc.
    + now rewrite filter_app, F1, F2.
Qed.

Lemma no_gapcloser_calls_kept (w w' : world) : calls_kept w w' -> no_gapcloser w w'.
Proof. intros H. exists []. split; [now rewrite app_nil_r | reflexivity]. Qed.

Section GapFiller.

Context (ext : Collaborators) (outdir : path) (mapq threads limit iters : Z)
        (verbose : bool).

Let G := no_gapcloser.

Lemma g_write_stderr (d : diag) : keeps G (write_stderr d).
Proof.
  apply (keeps_weaken G calls_kept);
    [apply no_gapcloser_calls_kept | apply calls_write_stderr].
Qed.

Lemma g_write_file (p : path) (text : string) : keeps G (write_file p text).
Proof.
  apply (keeps_weaken G calls_kept);
    [apply no_gapcloser_calls_kept | apply calls_write_file].
Qed.

Lemma g_prepare_gapcloser (configFn : path) (lib : LibrarySet) (minlen maxlen : Z) :
  keeps G (prepare_gapcloser ext outdir mapq configFn (libFs lib) (libRs lib)
             (orients lib) (libIS lib) (libISStDev lib) minlen maxlen limit verbose).
Proof.
  assert (Hfilter : forall i fq1 fq2 minqual,
             keeps G (filter_reads ext i outdir fq1 fq2 minlen maxlen limit minqual)).
  { intros i fq1 fq2 minqual. unfold filter_reads.
    apply (keeps_bind G); [apply g_write_file|]. intros _.
    apply (keeps_bind G); [apply g_write_file|]. intros _.
    apply (keeps_bind G); [apply (keeps_get_world G)|]. intros w.
    apply (keeps_bind G).
    { intros w0. eexists [_]. split; reflexivity. }
    intros _. apply (keeps_bind G); [apply (keeps_lift G)|]. intros [out1 out2].
    apply (keeps_bind G); [apply g_write_file|]. intros _.
    apply (keeps_bind G); [apply g_write_file|]. intros _.
    apply (keeps_ret G). }
  unfold prepare_gapcloser. apply (keeps_bind G).
  - apply (keeps_for_each G). intros config [k [[[[f1 f2] o] iSize] iFrac]].
    unfold prepare_gapcloser_body. destruct (_ || _).
    + apply (keeps_bind G); [apply Hfilter|]. intros [fn1 fn2]. apply (keeps_ret G).
    + apply (keeps_bind G); [|intros; apply (keeps_ret G)].
      destruct verbose; [apply g_write_stderr | apply (keeps_ret G)].
  - intros config. destruct (_ <? _)%nat; [|apply (keeps_ret G)].
    apply (keeps_bind G); [apply g_write_file|]. intros _. apply (keeps_ret G).
Qed.

Lemma prepare_gapcloser_truth (configFn : path) (lib : LibrarySet) (minlen maxlen : Z)
    (w w' : world) (r : option bool) :
  prepare_gapcloser ext outdir mapq configFn (libFs lib) (libRs lib) (orients lib)
                    (libIS lib) (libISStDev lib) minlen maxlen limit verbose w
    = (Ret r, w') ->
  py_truth r = has_eligible lib.
Proof.
  intros H. unfold prepare_gapcloser in H. bind_inv H.
  apply config_loop_ret in H0. subst a.
  set (xs := enumerate1 (zip5 (libFs lib) (libRs lib) (orients lib) (libIS lib)
                              (libISStDev lib))) in *.
  pose proof (blocks_nonempty outdir xs) as Hne.
  destruct (has_eligible lib) eqn:Hel.
  - destruct (enumerate1_hit _ _ Hel) as (x & Hx & Hf).
    assert (Hex : Exists (fun x => eligible (orient_of x.2) = true) xs)
      by (apply Exists_exists; now exists x).
    apply Hne in Hex.
    destruct (omap (config_block_of outdir) xs) as [|b bs]; [congruence|].
    assert (Hlen : (1 <? List.length
                         (["max_rd_len=" +:+ str_of_Z maxlen] ++ b :: bs))%nat = true)
      by (apply Nat.ltb_lt; rewrite length_app; simpl; lia).
    rewrite Hlen in H. bind_inv H. now injection H as <- _.
  - apply enumerate1_skip in Hel. fold xs in Hel.
    destruct (omap (config_block_of outdir) xs) as [|b bs] eqn:E.
    + simpl in H. now injection H as <- _.
    + exfalso. assert (Hex : Exists (fun x => eligible (orient_of x.2) = true) xs)
        by (apply Hne; discriminate).
      apply Exists_exists in Hex as (x & Hx & Hf).
      rewrite Forall_forall in Hel. specialize (Hel x Hx). congruence.
Qed.

Lemma gap_round_run (overlap maxReadLen : Z) (configFn : path) (i j : nat)
    (pout pout' : path) (w w' : world) :
  gapcloser_round ext outdir threads overlap maxReadLen verbose configFn i pout j w
    = (Ret pout', w') ->
  pout' = gap_out outdir i j /\
  calls w' = calls w ++ [CallGapCloser pout configFn (gap_out outdir i j)].
Proof.
  unfold gapcloser_round. intros H. do 5 bind_inv H.
  destruct a3 as [res log]. do 2 bind_inv H.
  unfold ret in H. injection H as <- <-. split; [reflexivity|].
  assert (Hc0 : calls_kept w w0).
  { eapply (keeps_ret_inv calls_kept); [|exact H0].
    destruct verbose; [apply calls_write_stderr | apply (keeps_ret _)]. }
  apply (keeps_ret_inv calls_kept) in H1; [|apply calls_write_file].
  unfold record_call in H2. injection H2 as _ <-.
  apply (keeps_ret_inv calls_kept) in H3; [|apply (keeps_get_world _)].
  apply (keeps_ret_inv calls_kept) in H4; [|apply (keeps_lift _)].
  apply (keeps_ret_inv calls_kept) in H5; [|apply calls_write_file].
  apply (keeps_ret_inv calls_kept) in H6.
  2:{ destruct res as [text|]; [apply calls_write_file | apply (keeps_ret _)]. }
  unfold calls_kept in *. simpl in *. unfold gap_out. congruence.
Qed.

Lemma gap_rounds_run (overlap maxReadLen : Z) (i : nat) (js : list nat) :
  forall pout pout' w w',
    for_each js (gapcloser_round ext outdir threads overlap maxReadLen verbose
                   (gap_conf outdir i) i) pout w = (Ret pout', w') ->
    pout' = gap_last outdir i pout js /\
    calls w' = calls w ++ expected_gap_set outdir i pout js.
Proof.
  induction js as [|j js IH]; intros pout pout' w w' H; simpl in H.
  - inversion H; subst. simpl. now rewrite app_nil_r.
  - bind_inv H. apply gap_round_run in H0 as [-> Hc].
    apply IH in H as [-> Hc']. simpl. split; [reflexivity|].
    rewrite Hc', Hc, <- app_assoc. reflexivity.
Qed.

Lemma filter_gap_set (i : nat) (js : list nat) (pout : path) :
  filter is_gapcloser (expected_gap_set outdir i pout js) =
  expected_gap_set outdir i pout js.
Proof.
  revert pout. induction js as [|j js IH]; intros pout; simpl; [reflexivity|].
  rewrite filter_cons_True by reflexivity. now rewrite IH.
Qed.

Lemma gap_sets_run (overlap maxReadLen minReadLen : Z) (xs : list (nat * LibrarySet)) :
  forall pout pout' w w',
    for_each xs (run_gapclosing_body ext outdir mapq threads limit iters verbose
                   overlap maxReadLen minReadLen) pout w = (Ret pout', w') ->
    exists trace,
      calls w' = calls w ++ trace /\
      filter is_gapcloser trace = expected_gap outdir iters pout xs.
Proof.
  induction xs as [|[i lib] xs IH]; intros pout pout' w w' H; simpl in H.
  - injection H as _ <-. exists []. split; [now rewrite app_nil_r | reflexivity].
  - bind_inv H. unfold run_gapclosing_body in H0. bind_inv H0.
    destruct (keeps_ret_inv G _ _ _ _ (g_prepare_gapcloser _ lib minReadLen maxReadLen) H1)
      as (tr1 & Hc1 & Hf1).
    apply prepare_gapcloser_truth in H1.
    destruct (IH _ _ _ _ H) as (tr3 & Hc3 & Hf3).
    simpl. rewrite <- H1. destruct (py_truth a0); cbn [negb] in H0.
    + apply gap_rounds_run in H0 as [-> Hc2].
      exists (tr1 ++ expected_gap_set outdir i pout (range1 iters) ++ tr3). split.
      * rewrite Hc3, Hc2, Hc1, <- !app_assoc. reflexivity.
      * rewrite !filter_app, Hf1, filter_gap_set, Hf3. reflexivity.
    + injection H0 as <- <-. exists (tr1 ++ tr3). split.
      * rewrite Hc3, Hc1, <- app_assoc. reflexivity.
      * rewrite filter_app, Hf1, Hf3. reflexivity.
Qed.

(** For any read filter: a run of [run_gapclosing] that returns has
    started the gap filler [iters] times for every set that holds a
    library of orientation FR or RF, and not at all for the other sets.
    The invocations come one after the other in the order of the sets,
    the first filling the scaffolds and each later one the output of the
    one before it, also across a set that was passed over; the outputs are
    named [_gapcloser.i.j.fa], where [i] is the position of the set in the
    classification, sets passed over included. *)
Theorem gap_closing_invocations (libraries : list LibrarySet) (nogaps scaffolds : path)
    (w w' : world) :
  run_gapclosing ext outdir mapq libraries nogaps scaffolds threads limit iters verbose w
    = (Ret tt, w') ->
  exists trace,
    calls w' = calls w ++ trace /\
    filter is_gapcloser trace = expected_gap outdir iters scaffolds (enumerate1 libraries) /\
    List.length (filter is_gapcloser trace) =
      (List.length (filter has_eligible libraries) * Z.to_nat iters)%nat.
Proof.
  intros H. unfold run_gapclosing in H. bind_inv H.
  destruct (gap_sets_run _ _ _ _ _ _ _ _ H0) as (trace & Hc & Hf).
  apply (keeps_ret_inv calls_kept) in H; [|apply calls_symlink].
  exists trace. split; [|split; [exact Hf|]].
  - unfold calls_kept in H. congruence.
  - rewrite Hf. clear. unfold enumerate1. generalize 1%nat. generalize scaffolds.
    induction libraries as [|lib libs IH]; intros pout n; [reflexivity|].
    cbn [zip seq List.length expected_gap]. rewrite filter_cons.
    destruct (has_eligible lib).
    + rewrite decide_True by exact I. cbn [List.length].
      rewrite length_app, IH.
      assert (Hl : forall js p, List.length (expected_gap_set outdir n p js)
                                = List.length js).
      { induction js as [|j js IHj]; intros p; simpl; [reflexivity | now rewrite IHj]. }
      rewrite Hl. unfold range1. rewrite length_seq. lia.
    + rewrite decide_False by (intros []). apply IH.
Qed.

End GapFiller.

Lemma gap_closing_invocations_witness :
  exists w' trace,
    run_gapclosing Scenario.ext (rel ["out"]) 10 [Scenario.set_long; Scenario.set_short]
                   (nogapsFname (rel ["out"])) (scaffoldsFname (rel ["out"]))
                   2 0 2 false Scenario.w_scaffolds = (Ret tt, w') /\
    calls w' = calls Scenario.w_scaffolds ++ trace /\
    filter is_gapcloser trace =
      [CallGapCloser (scaffoldsFname (rel ["out"])) (gap_conf (rel ["out"]) 2)
                     (gap_out (rel ["out"]) 2 1);
       CallGapCloser (gap_out (rel ["out"]) 2 1) (gap_conf (rel ["out"]) 2)
                     (gap_out (rel ["out"]) 2 2)].
Proof.
  eexists.
  assert (Hrun : run_gapclosing Scenario.ext (rel ["out"]) 10
                   [Scenario.set_long; Scenario.set_short]
                   (nogapsFname (rel ["out"])) (scaffoldsFname (rel ["out"]))
                   2 0 2 false Scenario.w_scaffolds = (Ret tt, _))
    by (apply run_eq; vm_compute; reflexivity).
  destruct (gap_closing_invocations _ _ _ _ _ _ _ _ _ _ _ _ Hrun) as (trace & Hc & Hf & _).
  exists trace. split; [exact Hrun|]. split; [exact Hc|]. rewrite Hf. reflexivity.
Defined.
